(** * WireWAN overlay manager: a shallow embedding of the control plane

    The development follows the layout of [backend/app]:

    - [ipaddress]: the IPv4 fragment of Python's standard [ipaddress]
      module that the services call (an external collaborator);
    - [security]: [core/security.py], the secret envelope;
    - [models]: the ORM entities of [models/*.py] and the database;
    - [ip_allocation], [conflict_detection], [config_generator]:
      the pure services of [services/*.py];
    - [mikrotik_client]: the router API client over a store-like router;
    - [deployment]: the deployment engine and the job endpoints;
    - [endpoints]: the REST endpoints that compose the services.

    Python exceptions are values of [exn]; a call that may raise returns a
    [result].  Strings are byte strings (the UTF-8 encoding of the Python
    text). *)

From Stdlib Require Import ZArith List String Ascii Lia Bool.
From Stdlib Require Import Sorted.
From stdpp Require Import base option list gmap sets strings pretty sorting.

Local Open Scope Z_scope.

(** ** Exceptions and results *)

(** The body of an [HTTPException]: a plain string, or the structured
    object that [create_peer] builds for critical conflicts. *)
Inductive http_detail :=
| DetailStr (msg : string)
| DetailConflicts (message : string) (conflicts : list (string * string)).

Inductive exn :=
| ValueError (msg : string)
| NameError (name : string)
| HTTPException (status_code : Z) (detail : http_detail)
| MikrotikAPIError (message : string) (detail : string)
| NoResultFound
| EncryptionConfigError (msg : string)
| InvalidToken.

Inductive result (A : Type) :=
| Ok (a : A)
| Raise (e : exn).
Arguments Ok {A} a.
Arguments Raise {A} e.

Definition is_ok {A} (r : result A) : bool :=
  match r with Ok _ => true | Raise _ => false end.

(** Python truthiness of an optional string: [None] and [""] are falsy. *)
Definition truthy (o : option string) : bool :=
  match o with
  | Some s => negb (String.eqb s "")
  | None => false
  end.

(** [sep.join(parts)] *)
Fixpoint join (sep : string) (parts : list string) : string :=
  match parts with
  | [] => ""
  | [p] => p
  | p :: rest => p +:+ sep +:+ join sep rest
  end.

(** [c in s] for a character. *)
Fixpoint has_char (c : ascii) (s : string) : bool :=
  match s with
  | EmptyString => false
  | String a s' => Ascii.eqb a c || has_char c s'
  end.

(** [s.split(sep)] for a separator that is not empty: the text between
    the occurrences of [sep], found from the left.  [skip] counts the
    characters of an occurrence that are still to be passed over. *)
Fixpoint str_split_from (sep : string) (skip : nat) (s : string)
  : list string :=
  match s with
  | EmptyString => [EmptyString]
  | String c s' =>
      match skip with
      | S k => str_split_from sep k s'
      | O =>
          if String.prefix sep s then
            EmptyString :: str_split_from sep (String.length sep - 1) s'
          else
            match str_split_from sep 0 s' with
            | h :: t => String c h :: t
            | [] => [String c EmptyString]
            end
      end
  end.

Definition str_split (sep s : string) : list string := str_split_from sep 0 s.

(** [range(a, b)] over the integers. *)
Definition zrange (a b : Z) : list Z :=
  map (fun i => a + Z.of_nat i) (seq 0 (Z.to_nat (b - a))).

(** ** Python's [ipaddress], IPv4 fragment *)

Module ipaddress.

Definition ALL_ONES : Z := 2 ^ 32 - 1.
Definition max_prefixlen : Z := 32.

(** An [IPv4Network]: the network address as an integer and the prefix
    length; netmask, hostmask and broadcast address derive from them. *)
Record IPv4Network := mkNet { network_address : Z; prefixlen : Z }.

(** [_ip_int_from_prefix] *)
Definition ip_int_from_prefix (p : Z) : Z :=
  Z.lxor ALL_ONES (Z.shiftr ALL_ONES p).

Definition netmask (n : IPv4Network) : Z := ip_int_from_prefix (prefixlen n).
Definition hostmask (n : IPv4Network) : Z := Z.lxor (netmask n) ALL_ONES.
Definition broadcast_address (n : IPv4Network) : Z :=
  Z.lor (network_address n) (hostmask n).

(** [IPv4Network((addr, prefix), strict=False)]: host bits are masked off. *)
Definition network_of (addr p : Z) : IPv4Network :=
  mkNet (Z.land addr (ip_int_from_prefix p)) p.

(** [address in network] *)
Definition contains (n : IPv4Network) (a : Z) : bool :=
  Z.land a (netmask n) =? network_address n.

(** [a.overlaps(b)] *)
Definition overlaps (a b : IPv4Network) : bool :=
  contains b (network_address a) || contains b (broadcast_address a)
  || contains a (network_address b) || contains a (broadcast_address b).

(** [network.hosts()]: for a /31 both addresses, for a /32 the single
    address, otherwise every address strictly between the network and the
    broadcast address. *)
Definition hosts (n : IPv4Network) : list Z :=
  if prefixlen n =? max_prefixlen - 1 then
    zrange (network_address n) (broadcast_address n + 1)
  else if prefixlen n =? max_prefixlen then
    [network_address n]
  else
    zrange (network_address n + 1) (broadcast_address n).

(** [a.subnet_of(b)] *)
Definition subnet_of (a b : IPv4Network) : bool :=
  (network_address b <=? network_address a)
  && (broadcast_address a <=? broadcast_address b).

(** *** Text forms *)

(** [str(IPv4Address)] *)
Definition str_address (a : Z) : string :=
  join "." (map (fun sh => pretty (Z.land (Z.shiftr a sh) 255)) [24; 16; 8; 0]).

(** [str(IPv4Network)] *)
Definition str_network (n : IPv4Network) : string :=
  str_address (network_address n) +:+ "/" +:+ pretty (prefixlen n).

(** [s.split(sep)] for a one-character separator. *)
Fixpoint split_on (sep : ascii) (s : string) : list string :=
  match s with
  | EmptyString => [EmptyString]
  | String c s' =>
      if Ascii.eqb c sep then EmptyString :: split_on sep s'
      else match split_on sep s' with
           | h :: t => String c h :: t
           | [] => [String c EmptyString]
           end
  end.

Definition digit_value (c : ascii) : option Z :=
  let n := Z.of_N (N_of_ascii c) in
  if (48 <=? n) && (n <=? 57) then Some (n - 48) else None.

Fixpoint int_of_digits (acc : Z) (s : string) : option Z :=
  match s with
  | EmptyString => Some acc
  | String c s' =>
      match digit_value c with
      | Some d => int_of_digits (10 * acc + d) s'
      | None => None
      end
  end.

(** [int(s)] guarded by [s.isascii() and s.isdigit()]. *)
Definition parse_decimal (s : string) : option Z :=
  if String.eqb s "" then None else int_of_digits 0 s.

(** [_parse_octet]: one to three digits, no leading zero, at most 255. *)
Definition parse_octet (s : string) : option Z :=
  match parse_decimal s with
  | Some v =>
      if (3 <? String.length s)%nat then None
      else if negb (String.eqb s "0") && String.prefix "0" s then None
      else if 255 <? v then None
      else Some v
  | None => None
  end.

(** [_ip_int_from_string] *)
Definition ip_int_from_string (s : string) : option Z :=
  match map parse_octet (split_on "." s) with
  | [Some a; Some b; Some c; Some d] =>
      Some (Z.shiftl a 24 + Z.shiftl b 16 + Z.shiftl c 8 + d)
  | _ => None
  end.

(** [_prefix_from_prefix_string] *)
Definition prefix_from_prefix_string (s : string) : option Z :=
  match parse_decimal s with
  | Some p => if p <=? max_prefixlen then Some p else None
  | None => None
  end.

(** [_prefix_from_ip_int]: the prefix whose netmask is [m], if any. *)
Definition prefix_from_ip_int (m : Z) : option Z :=
  find (fun p => ip_int_from_prefix p =? m) (zrange 0 (max_prefixlen + 1)).

(** [_prefix_from_ip_string]: dotted netmask, else dotted hostmask. *)
Definition prefix_from_ip_string (s : string) : option Z :=
  match ip_int_from_string s with
  | Some m =>
      match prefix_from_ip_int m with
      | Some p => Some p
      | None => prefix_from_ip_int (Z.lxor m ALL_ONES)
      end
  | None => None
  end.

(** [_make_netmask] on the text after the slash. *)
Definition make_netmask (s : string) : option Z :=
  match prefix_from_prefix_string s with
  | Some p => Some p
  | None => prefix_from_ip_string s
  end.

(** [ipaddress.ip_network(s, strict=False)] for IPv4 text; [None] stands
    for the [ValueError] that Python raises.  Python reads the text as
    IPv4 first and as IPv6 next; a text without a colon is never IPv6, so
    on such text [None] is exactly the [ValueError].  IPv6 text is
    outside this fragment and is not accepted here: the theorems that
    depend on a text being refused exclude text with a colon. *)
Definition ip_network (s : string) : option IPv4Network :=
  match split_on "/" s with
  | [a] =>
      match ip_int_from_string a with
      | Some addr => Some (network_of addr max_prefixlen)
      | None => None
      end
  | [a; m] =>
      match ip_int_from_string a, make_netmask m with
      | Some addr, Some p => Some (network_of addr p)
      | _, _ => None
      end
  | _ => None
  end.

(** [ipaddress.ip_address(s)] *)
Definition ip_address (s : string) : option Z := ip_int_from_string s.

End ipaddress.

(** ** [core/security.py]: the secret envelope *)

Module security.

(** The [cryptography] package, as far as the envelope uses it: PBKDF2
    key derivation and Fernet.  [nonce] is what Fernet draws afresh for
    every token (the timestamp and the IV). *)
Record Crypto := {
  nonce : Type;
  kdf : string -> string -> string;
  fernet_encrypt : string -> nonce -> string -> string;
  fernet_decrypt : string -> string -> option string
}.

(** Fernet's contract: a token decrypts under its key to the plaintext; a
    token is the base64 text of version, timestamp, IV, ciphertext and
    HMAC, at least 100 characters, so shorter text is never a token; the
    nonce is part of the token. *)
Record CryptoLaws (c : Crypto) : Prop := {
  fernet_roundtrip :
    forall k r m, fernet_decrypt c k (fernet_encrypt c k r m) = Some m;
  fernet_token_length :
    forall k r m, (100 <= String.length (fernet_encrypt c k r m))%nat;
  fernet_rejects_short :
    forall k t, (String.length t < 100)%nat -> fernet_decrypt c k t = None;
  fernet_nonce_inj :
    forall k r1 r2 m,
      fernet_encrypt c k r1 m = fernet_encrypt c k r2 m -> r1 = r2
}.

(** [core/config.py], the two settings the envelope reads. *)
Record Settings := {
  ENCRYPTION_KEY : option string;
  ENCRYPTION_SALT : option string
}.

Definition validate_encryption_config (settings : Settings) : result unit :=
  if negb (truthy (ENCRYPTION_KEY settings)) then
    Raise (EncryptionConfigError "ENCRYPTION_KEY is not configured.")
  else if negb (truthy (ENCRYPTION_SALT settings)) then
    Raise (EncryptionConfigError "ENCRYPTION_SALT is not configured.")
  else Ok tt.

Definition get_encryption_key (c : Crypto) (settings : Settings)
  : result string :=
  match validate_encryption_config settings with
  | Raise e => Raise e
  | Ok _ =>
      Ok (kdf c (default "" (ENCRYPTION_KEY settings))
                (default "" (ENCRYPTION_SALT settings)))
  end.

(** [get_fernet()] caches the instance made from [get_encryption_key()];
    the settings never change, so the cache is not observable and the key
    stands for the instance. *)
Definition get_fernet := get_encryption_key.

Definition encrypt_value (c : Crypto) (settings : Settings) (r : nonce c)
    (value : string) : result string :=
  if String.eqb value "" then Ok value
  else
    match get_fernet c settings with
    | Raise e => Raise e
    | Ok f => Ok (fernet_encrypt c f r value)
    end.

Definition decrypt_value (c : Crypto) (settings : Settings)
    (encrypted_value : string) : result string :=
  if String.eqb encrypted_value "" then Ok encrypted_value
  else
    match get_fernet c settings with
    | Raise e => Raise e
    | Ok f =>
        match fernet_decrypt c f encrypted_value with
        | Some m => Ok m
        | None => Raise InvalidToken
        end
    end.

(** A small envelope that meets [CryptoLaws], used to run the code on
    concrete inputs: a token is a 99-character header, the one-character
    nonce and the plaintext.  It hides nothing and only stands in
    for the real cipher's input and output behaviour. *)
Definition toy_header : string :=
  Eval vm_compute in
    string_of_list_ascii (repeat "g"%char 99).

Definition toy_decrypt (t : string) : option string :=
  if String.prefix toy_header t then
    match String.substring 99 (String.length t - 99) t with
    | String _ m => Some m
    | EmptyString => None
    end
  else None.

Definition toy_crypto : Crypto := {|
  nonce := ascii;
  kdf := fun key salt => key +:+ salt;
  fernet_encrypt := fun _ r m => toy_header +:+ String r m;
  fernet_decrypt := fun _ t => toy_decrypt t
|}.

Definition test_settings : Settings :=
  {| ENCRYPTION_KEY := Some "k"; ENCRYPTION_SALT := Some "s" |}.

End security.

(** ** Router resources *)

(** A resource as librouteros returns it: a dictionary from field names
    ([".id"], ["comment"], ["name"], ...) to values, kept here as the text
    the router sends. *)
Abbreviation resource := (gmap string string).

(** [r.get(key, "")] *)
Definition get_str (r : resource) (key : string) : string :=
  default "" (r !! key).

(** The dictionary that [get_managed_resources] returns and that a job
    keeps as [backup_config]: resource family to resources. *)
Abbreviation managed_resources := (list (string * list resource)).

(** ** [models/*.py]: entities and the database *)

Module models.

Inductive PeerType := MIKROTIK | GENERIC_ROUTER | SERVER | CLIENT | HUB.
Inductive MikrotikApiStatus := UNKNOWN | CONNECTED | AUTH_FAILED | UNREACHABLE.
Inductive ServiceProtocol := TCP | UDP | BOTH.
Inductive JobType := DEPLOY_CONFIG | ROLLBACK | VERIFY | TEST_CONNECTION.
Inductive JobStatus := PENDING | RUNNING | COMPLETED | FAILED | CANCELLED.

Definition PeerType_eqb (a b : PeerType) : bool :=
  match a, b with
  | MIKROTIK, MIKROTIK | GENERIC_ROUTER, GENERIC_ROUTER | SERVER, SERVER
  | CLIENT, CLIENT | HUB, HUB => true
  | _, _ => false
  end.

Definition JobStatus_eqb (a b : JobStatus) : bool :=
  match a, b with
  | PENDING, PENDING | RUNNING, RUNNING | COMPLETED, COMPLETED
  | FAILED, FAILED | CANCELLED, CANCELLED => true
  | _, _ => false
  end.

Record WanNetwork := {
  wan_id : string;
  wan_name : string;
  tunnel_ip_range : string;
  shared_services_range : string
}.

Record LocalSubnet := {
  subnet_id : string;
  cidr : string;
  is_routed : bool;
  nat_enabled : bool;
  nat_translated_cidr : option string;
  subnet_description : option string
}.

Record PublishedService := {
  service_id : string;
  service_peer_id : string;
  service_name : string;
  local_ip : string;
  local_port : Z;
  shared_ip : string;
  shared_port : Z;
  protocol : ServiceProtocol;
  is_active : bool
}.

(** A peer with its loaded relationships ([selectinload] of
    [local_subnets] and [published_services]).  [peer_metadata] keeps the
    truth value of each flag of the JSON bag. *)
Record Peer := {
  peer_id : string;
  peer_wan_id : string;
  peer_name : string;
  peer_type : PeerType;
  public_key : option string;
  private_key_encrypted : option string;
  tunnel_ip : option string;
  endpoint : option string;
  listen_port : option Z;
  persistent_keepalive : option Z;
  is_online : bool;
  last_seen : option Z;
  tags : list string;
  peer_metadata : gmap string bool;
  mikrotik_management_ip : option string;
  mikrotik_api_port : option Z;
  mikrotik_username : option string;
  mikrotik_password_encrypted : option string;
  mikrotik_api_token_encrypted : option string;
  mikrotik_use_ssl : bool;
  mikrotik_verify_cert : bool;
  mikrotik_auto_deploy : bool;
  mikrotik_interface_name : option string;
  mikrotik_last_api_check : option Z;
  mikrotik_api_status : option MikrotikApiStatus;
  local_subnets : list LocalSubnet;
  published_services : list PublishedService
}.

Inductive log_entry :=
| LogWarning (msg : string)
| LogTraceback (msg : string).

Record DeploymentJob := {
  job_id : string;
  job_peer_id : string;
  job_type : JobType;
  status : JobStatus;
  progress_percent : Z;
  started_at : option Z;
  completed_at : option Z;
  error_message : option string;
  operations_log : list log_entry;
  backup_config : option managed_resources;
  created_by_id : option string
}.

(** The store: one list of rows per table, in insertion order. *)
Record Database := {
  wans : list WanNetwork;
  peers : list Peer;
  jobs : list DeploymentJob
}.

(** [select(WanNetwork).where(WanNetwork.id == wan_id)], [scalar_one_or_none] *)
Definition get_wan (db : Database) (id : string) : option WanNetwork :=
  find (fun w => String.eqb (wan_id w) id) (wans db).

(** [select(Peer).where(Peer.id == peer_id)], [scalar_one_or_none] *)
Definition get_peer (db : Database) (id : string) : option Peer :=
  find (fun p => String.eqb (peer_id p) id) (peers db).

(** [select(Peer).where(Peer.wan_id == wan_id)] *)
Definition get_wan_peers (db : Database) (id : string) : list Peer :=
  List.filter (fun p => String.eqb (peer_wan_id p) id) (peers db).

(** [select(DeploymentJob).where(DeploymentJob.id == job_id)] *)
Definition get_job (db : Database) (id : string) : option DeploymentJob :=
  find (fun j => String.eqb (job_id j) id) (jobs db).

(** [db.add(peer)] *)
Definition add_peer (p : Peer) (db : Database) : Database :=
  {| wans := wans db; peers := peers db ++ [p]; jobs := jobs db |}.

(** [db.add(job)] *)
Definition add_job (j : DeploymentJob) (db : Database) : Database :=
  {| wans := wans db; peers := peers db; jobs := jobs db ++ [j] |}.

(** An UPDATE of the job row [id]. *)
Definition update_job (id : string) (f : DeploymentJob -> DeploymentJob)
    (db : Database) : Database :=
  {| wans := wans db;
     peers := peers db;
     jobs := map (fun j => if String.eqb (job_id j) id then f j else j)
                 (jobs db) |}.

(** An UPDATE of the peer row [id]. *)
Definition update_peer (id : string) (f : Peer -> Peer) (db : Database)
  : Database :=
  {| wans := wans db;
     peers := map (fun p => if String.eqb (peer_id p) id then f p else p)
                  (peers db);
     jobs := jobs db |}.

(** Field assignments on a job. *)
Definition set_status (s : JobStatus) (j : DeploymentJob) : DeploymentJob :=
  {| job_id := job_id j; job_peer_id := job_peer_id j; job_type := job_type j;
     status := s; progress_percent := progress_percent j;
     started_at := started_at j; completed_at := completed_at j;
     error_message := error_message j; operations_log := operations_log j;
     backup_config := backup_config j; created_by_id := created_by_id j |}.

Definition set_progress_percent (n : Z) (j : DeploymentJob) : DeploymentJob :=
  {| job_id := job_id j; job_peer_id := job_peer_id j; job_type := job_type j;
     status := status j; progress_percent := n;
     started_at := started_at j; completed_at := completed_at j;
     error_message := error_message j; operations_log := operations_log j;
     backup_config := backup_config j; created_by_id := created_by_id j |}.

Definition set_started_at (t : Z) (j : DeploymentJob) : DeploymentJob :=
  {| job_id := job_id j; job_peer_id := job_peer_id j; job_type := job_type j;
     status := status j; progress_percent := progress_percent j;
     started_at := Some t; completed_at := completed_at j;
     error_message := error_message j; operations_log := operations_log j;
     backup_config := backup_config j; created_by_id := created_by_id j |}.

Definition set_completed_at (t : Z) (j : DeploymentJob) : DeploymentJob :=
  {| job_id := job_id j; job_peer_id := job_peer_id j; job_type := job_type j;
     status := status j; progress_percent := progress_percent j;
     started_at := started_at j; completed_at := Some t;
     error_message := error_message j; operations_log := operations_log j;
     backup_config := backup_config j; created_by_id := created_by_id j |}.

Definition set_error_message (m : string) (j : DeploymentJob) : DeploymentJob :=
  {| job_id := job_id j; job_peer_id := job_peer_id j; job_type := job_type j;
     status := status j; progress_percent := progress_percent j;
     started_at := started_at j; completed_at := completed_at j;
     error_message := Some m; operations_log := operations_log j;
     backup_config := backup_config j; created_by_id := created_by_id j |}.

Definition set_operations_log (l : list log_entry) (j : DeploymentJob)
  : DeploymentJob :=
  {| job_id := job_id j; job_peer_id := job_peer_id j; job_type := job_type j;
     status := status j; progress_percent := progress_percent j;
     started_at := started_at j; completed_at := completed_at j;
     error_message := error_message j; operations_log := l;
     backup_config := backup_config j; created_by_id := created_by_id j |}.

Definition set_backup_config (b : managed_resources) (j : DeploymentJob)
  : DeploymentJob :=
  {| job_id := job_id j; job_peer_id := job_peer_id j; job_type := job_type j;
     status := status j; progress_percent := progress_percent j;
     started_at := started_at j; completed_at := completed_at j;
     error_message := error_message j; operations_log := operations_log j;
     backup_config := Some b; created_by_id := created_by_id j |}.

(** An INSERT of a subnet row of the peer: the loaded relationship
    gains the row. *)
Definition add_local_subnet (s : LocalSubnet) (p : Peer) : Peer :=
  {| peer_id := peer_id p; peer_wan_id := peer_wan_id p;
     peer_name := peer_name p; peer_type := peer_type p;
     public_key := public_key p;
     private_key_encrypted := private_key_encrypted p;
     tunnel_ip := tunnel_ip p; endpoint := endpoint p;
     listen_port := listen_port p;
     persistent_keepalive := persistent_keepalive p;
     is_online := is_online p; last_seen := last_seen p; tags := tags p;
     peer_metadata := peer_metadata p;
     mikrotik_management_ip := mikrotik_management_ip p;
     mikrotik_api_port := mikrotik_api_port p;
     mikrotik_username := mikrotik_username p;
     mikrotik_password_encrypted := mikrotik_password_encrypted p;
     mikrotik_api_token_encrypted := mikrotik_api_token_encrypted p;
     mikrotik_use_ssl := mikrotik_use_ssl p;
     mikrotik_verify_cert := mikrotik_verify_cert p;
     mikrotik_auto_deploy := mikrotik_auto_deploy p;
     mikrotik_interface_name := mikrotik_interface_name p;
     mikrotik_last_api_check := mikrotik_last_api_check p;
     mikrotik_api_status := mikrotik_api_status p;
     local_subnets := local_subnets p ++ [s];
     published_services := published_services p |}.

(** The peer fields that a completed apply writes. *)
Definition set_peer_connected (now : Z) (p : Peer) : Peer :=
  {| peer_id := peer_id p; peer_wan_id := peer_wan_id p;
     peer_name := peer_name p; peer_type := peer_type p;
     public_key := public_key p;
     private_key_encrypted := private_key_encrypted p;
     tunnel_ip := tunnel_ip p; endpoint := endpoint p;
     listen_port := listen_port p;
     persistent_keepalive := persistent_keepalive p;
     is_online := true; last_seen := Some now;
     tags := tags p; peer_metadata := peer_metadata p;
     mikrotik_management_ip := mikrotik_management_ip p;
     mikrotik_api_port := mikrotik_api_port p;
     mikrotik_username := mikrotik_username p;
     mikrotik_password_encrypted := mikrotik_password_encrypted p;
     mikrotik_api_token_encrypted := mikrotik_api_token_encrypted p;
     mikrotik_use_ssl := mikrotik_use_ssl p;
     mikrotik_verify_cert := mikrotik_verify_cert p;
     mikrotik_auto_deploy := mikrotik_auto_deploy p;
     mikrotik_interface_name := mikrotik_interface_name p;
     mikrotik_last_api_check := Some now;
     mikrotik_api_status := Some CONNECTED;
     local_subnets := local_subnets p;
     published_services := published_services p |}.

End models.

(** ** [services/ip_allocation.py] *)

Module ip_allocation.
Import models.

(** [get_allocated_tunnel_ips]: the tunnel IPs of the WAN's peers that
    have one. *)
Definition get_allocated_tunnel_ips (db : Database) (wan : string)
  : gset string :=
  list_to_set (omap tunnel_ip (get_wan_peers db wan)).

(** [get_allocated_service_ips]: the shared IPs of every service of the
    WAN's peers. *)
Definition get_allocated_service_ips (db : Database) (wan : string)
  : gset string :=
  list_to_set
    (flat_map (fun p => map shared_ip (published_services p))
              (get_wan_peers db wan)).

(** [get_available_hosts] *)
Definition get_available_hosts (cidr : string) : result (list string) :=
  match ipaddress.ip_network cidr with
  | Some network => Ok (map ipaddress.str_address (ipaddress.hosts network))
  | None => Raise (ValueError "does not appear to be an IPv4 network")
  end.

(** The loop shared by both allocators: the first [ip] of [available]
    that is not in [allocated], else [None]. *)
Fixpoint first_free (allocated : gset string) (available : list string)
  : option string :=
  match available with
  | [] => None
  | ip :: rest =>
      if bool_decide (ip ∉ allocated) then Some ip
      else first_free allocated rest
  end.

Definition allocate_tunnel_ip (db : Database) (wan : string)
    (tunnel_range : string) : result (option string) :=
  let allocated := get_allocated_tunnel_ips db wan in
  match get_available_hosts tunnel_range with
  | Raise e => Raise e
  | Ok available => Ok (first_free allocated available)
  end.

Definition allocate_shared_service_ip (db : Database) (wan : string)
    (services_range : string) : result (option string) :=
  let allocated := get_allocated_service_ips db wan in
  match get_available_hosts services_range with
  | Raise e => Raise e
  | Ok available => Ok (first_free allocated available)
  end.

(** [is_ip_in_range]: a [ValueError] of either parse gives [False]. *)
Definition is_ip_in_range (ip cidr : string) : bool :=
  match ipaddress.ip_address ip, ipaddress.ip_network cidr with
  | Some a, Some n => ipaddress.contains n a
  | _, _ => false
  end.

Definition reserve_specific_tunnel_ip (db : Database) (wan ip : string)
    (tunnel_range : string) : bool :=
  if negb (is_ip_in_range ip tunnel_range) then false
  else bool_decide (ip ∉ get_allocated_tunnel_ips db wan).

End ip_allocation.

(** ** [services/conflict_detection.py] *)

Module conflict_detection.
Import models.

Inductive ConflictSeverity := CRITICAL | WARNING | INFO.

Inductive ConflictResolution :=
| DONT_ROUTE | USE_NAT | CHANGE_SUBNET | SELECTIVE_ROUTING.

Record SubnetConflict := {
  subnet : string;
  conflict_type : string;
  severity : ConflictSeverity;
  conflicting_with : string;
  conflicting_subnet : string;
  description : string;
  suggested_resolutions : list ConflictResolution
}.

(** [severity.value] *)
Definition severity_value (s : ConflictSeverity) : string :=
  match s with
  | CRITICAL => "critical"
  | WARNING => "warning"
  | INFO => "info"
  end.

(** [subnets_overlap]: a [ValueError] of either parse gives [False]. *)
Definition subnets_overlap (cidr1 cidr2 : string) : bool :=
  match ipaddress.ip_network cidr1, ipaddress.ip_network cidr2 with
  | Some net1, Some net2 => ipaddress.overlaps net1 net2
  | _, _ => false
  end.

(** The four checks of one iteration of the [for subnet in subnets] loop,
    each giving the conflicts it appends. *)
Definition tunnel_conflicts (wan : WanNetwork) (s : string)
  : list SubnetConflict :=
  if subnets_overlap s (tunnel_ip_range wan) then
    [ {| subnet := s;
         conflict_type := "tunnel_ip_overlap";
         severity := CRITICAL;
         conflicting_with := "WAN Tunnel Network";
         conflicting_subnet := tunnel_ip_range wan;
         description := "Subnet " +:+ s
           +:+ " overlaps with WAN tunnel IP range " +:+ tunnel_ip_range wan;
         suggested_resolutions := [DONT_ROUTE; USE_NAT; CHANGE_SUBNET] |} ]
  else [].

Definition shared_conflicts (wan : WanNetwork) (s : string)
  : list SubnetConflict :=
  if subnets_overlap s (shared_services_range wan) then
    [ {| subnet := s;
         conflict_type := "shared_services_overlap";
         severity := CRITICAL;
         conflicting_with := "WAN Shared Services Network";
         conflicting_subnet := shared_services_range wan;
         description := "Subnet " +:+ s
           +:+ " overlaps with shared services range "
           +:+ shared_services_range wan;
         suggested_resolutions := [DONT_ROUTE; USE_NAT; CHANGE_SUBNET] |} ]
  else [].

Definition peer_conflicts (wan_peers : list Peer) (peer : string)
    (s : string) : list SubnetConflict :=
  flat_map
    (fun p =>
       if String.eqb (peer_id p) peer then []
       else
         flat_map
           (fun local_subnet =>
              if subnets_overlap s (cidr local_subnet) then
                [ {| subnet := s;
                     conflict_type := "peer_subnet_overlap";
                     severity := WARNING;
                     conflicting_with := "Peer: " +:+ peer_name p;
                     conflicting_subnet := cidr local_subnet;
                     description := "Subnet " +:+ s +:+ " overlaps with "
                       +:+ peer_name p +:+ "'s subnet " +:+ cidr local_subnet;
                     suggested_resolutions :=
                       [USE_NAT; SELECTIVE_ROUTING; CHANGE_SUBNET] |} ]
              else [])
           (local_subnets p))
    wan_peers.

Definition route_conflicts (existing_route_nets : list ipaddress.IPv4Network)
    (s : string) : list SubnetConflict :=
  flat_map
    (fun route_net =>
       match ipaddress.ip_network s with
       | Some subnet_net =>
           if ipaddress.overlaps subnet_net route_net then
             [ {| subnet := s;
                  conflict_type := "existing_route_overlap";
                  severity := WARNING;
                  conflicting_with := "Existing routed network";
                  conflicting_subnet := ipaddress.str_network route_net;
                  description := "Subnet " +:+ s
                    +:+ " overlaps with existing routed network "
                    +:+ ipaddress.str_network route_net;
                  suggested_resolutions :=
                    [DONT_ROUTE; SELECTIVE_ROUTING; CHANGE_SUBNET] |} ]
           else []
       | None => []
       end)
    existing_route_nets.

(** [[ip_network(r) for r in existing_routes if r]]: the first text that
    does not parse raises. *)
Fixpoint parse_routes (existing_routes : list string)
  : result (list ipaddress.IPv4Network) :=
  match existing_routes with
  | [] => Ok []
  | r :: rest =>
      if String.eqb r "" then parse_routes rest
      else
        match ipaddress.ip_network r with
        | None => Raise (ValueError "does not appear to be an IPv4 network")
        | Some n =>
            match parse_routes rest with
            | Ok ns => Ok (n :: ns)
            | Raise e => Raise e
            end
        end
  end.

Definition detect_conflicts (db : Database) (wan peer : string)
    (subnets : list string) (existing_routes : option (list string))
  : result (list SubnetConflict) :=
  match parse_routes (default [] existing_routes) with
  | Raise e => Raise e
  | Ok existing_route_nets =>
      match get_wan db wan with
      | None => Ok []
      | Some w =>
          Ok (flat_map
                (fun s =>
                   tunnel_conflicts w s ++ shared_conflicts w s
                   ++ peer_conflicts (get_wan_peers db wan) peer s
                   ++ route_conflicts existing_route_nets s)
                subnets)
      end
  end.

(** The inner loop of [find_available_nat_subnet] over [existing_subnets]:
    [Some true] when an overlap is found, [Some false] when none is, and
    [None] when an entry does not parse (the [ValueError] that the
    enclosing [try] turns into [continue]). *)
Fixpoint conflict_found (candidate_net : ipaddress.IPv4Network)
    (existing_subnets : list string) : option bool :=
  match existing_subnets with
  | [] => Some false
  | existing :: rest =>
      match ipaddress.ip_network existing with
      | None => None
      | Some existing_net =>
          if ipaddress.overlaps candidate_net existing_net then Some true
          else conflict_found candidate_net rest
      end
  end.

(** One iteration of either candidate loop: the text to return, if the
    candidate is free. *)
Definition try_candidate (candidate : string) (existing_subnets : list string)
  : option string :=
  match ipaddress.ip_network candidate with
  | None => None
  | Some candidate_net =>
      match conflict_found candidate_net existing_subnets with
      | Some false => Some (ipaddress.str_network candidate_net)
      | _ => None
      end
  end.

(** A [for] loop that returns at the first iteration giving a value. *)
Fixpoint first_some {A B} (f : A -> option B) (l : list A) : option B :=
  match l with
  | [] => None
  | x :: rest =>
      match f x with
      | Some y => Some y
      | None => first_some f rest
      end
  end.

(** [f"172.{base}.0.0/{prefix_len}"] *)
Definition candidate_172 (prefix_len base : Z) : string :=
  "172." +:+ pretty base +:+ ".0.0/" +:+ pretty prefix_len.

(** [f"192.168.{third_octet}.0/{prefix_len}"] *)
Definition candidate_192 (prefix_len third_octet : Z) : string :=
  "192.168." +:+ pretty third_octet +:+ ".0/" +:+ pretty prefix_len.

Definition find_available_nat_subnet (conflicting_subnet : string)
    (existing_subnets : list string) : result (option string) :=
  match ipaddress.ip_network conflicting_subnet with
  | None => Raise (ValueError "does not appear to be an IPv4 network")
  | Some conflicting_net =>
      let prefix_len := ipaddress.prefixlen conflicting_net in
      match first_some
              (fun base =>
                 try_candidate (candidate_172 prefix_len base) existing_subnets)
              (zrange 16 32) with
      | Some r => Ok (Some r)
      | None =>
          Ok (first_some
                (fun third_octet =>
                   try_candidate (candidate_192 prefix_len third_octet)
                                 existing_subnets)
                (zrange 0 256))
      end
  end.

End conflict_detection.

(** ** [services/config_generator.py] *)

Module config_generator.
Import models.

Definition COMMENT_PREFIX : string := "WAN-Overlay-Manager:".

Definition newline : string := String (ascii_of_nat 10) EmptyString.

(** [f"{x}"] of an optional string. *)
Definition fmt_opt (o : option string) : string := default "None" o.

(** Truthiness of an optional integer: [None] and [0] are falsy. *)
Definition truthy_int (o : option Z) : bool :=
  match o with
  | Some n => negb (n =? 0)
  | None => false
  end.

(** [list(set(l))]: the distinct elements of [l], in the order in which
    the set enumerates them. *)
Definition py_set (l : list string) : list string :=
  elements (list_to_set l : gset string).

Definition _should_route_all_traffic (peer : Peer) : bool :=
  default false (peer_metadata peer !! "route_all_traffic").

(** The loop over [other_peer.local_subnets]. *)
Definition routed_subnet_entries (other_peer : Peer) : list string :=
  flat_map
    (fun s =>
       if is_routed s then
         if nat_enabled s && truthy (nat_translated_cidr s)
         then [default "" (nat_translated_cidr s)]
         else [cidr s]
       else [])
    (local_subnets other_peer).

(** The loop over [other_peer.published_services]. *)
Definition service_entries (other_peer : Peer) : list string :=
  flat_map
    (fun s => if is_active s then [shared_ip s +:+ "/32"] else [])
    (published_services other_peer).

(** [allowed_ips] of one [[Peer]] block of the WireGuard text, before
    [set()]. *)
Definition allowed_ips (route_all : bool) (shared_range : string)
    (other_peer : Peer) : list string :=
  (if truthy (tunnel_ip other_peer)
   then [fmt_opt (tunnel_ip other_peer) +:+ "/32"] else [])
  ++ (if route_all && truthy (endpoint other_peer) then ["0.0.0.0/0"] else [])
  ++ routed_subnet_entries other_peer
  ++ service_entries other_peer
  ++ [shared_range].

(** The lines that one iteration of the loop over [all_peers] appends. *)
Definition peer_block (peer : Peer) (wan : WanNetwork) (other_peer : Peer)
  : list string :=
  if String.eqb (peer_id other_peer) (peer_id peer) then []
  else if negb (truthy (public_key other_peer)) then []
  else
    ["# Peer: " +:+ peer_name other_peer;
     "[Peer]";
     "PublicKey = " +:+ fmt_opt (public_key other_peer)]
    ++ (if truthy (endpoint other_peer)
        then ["Endpoint = " +:+ fmt_opt (endpoint other_peer)] else [])
    ++ ["AllowedIPs = "
        +:+ join ", "
              (py_set (allowed_ips (_should_route_all_traffic peer)
                                   (shared_services_range wan) other_peer))]
    ++ (if truthy_int (persistent_keepalive peer)
        then ["PersistentKeepalive = "
              +:+ pretty (default 0 (persistent_keepalive peer))] else [])
    ++ [""].

Definition interface_block (peer : Peer) (private_key now : string)
  : list string :=
  ["# WAN-Overlay-Manager Configuration";
   "# Peer: " +:+ peer_name peer;
   "# Generated: " +:+ now;
   "";
   "[Interface]";
   "PrivateKey = " +:+ private_key;
   "Address = "
   +:+ join ", " ((fmt_opt (tunnel_ip peer) +:+ "/32")
                  :: service_entries peer)]
  ++ (if truthy_int (listen_port peer)
      then ["ListenPort = " +:+ pretty (default 0 (listen_port peer))] else [])
  ++ [""].

(** [config_lines] of [generate_wireguard_config].  [peer.wan] is read
    through the foreign key; the lookup is done once here. *)
Definition wireguard_config_lines (db : Database) (peer : string)
    (private_key now : string) : result (list string) :=
  match get_peer db peer with
  | None => Raise (ValueError ("Peer " +:+ peer +:+ " not found"))
  | Some p =>
      match get_wan db (peer_wan_id p) with
      | None => Raise NoResultFound
      | Some wan =>
          Ok (interface_block p private_key now
              ++ flat_map (peer_block p wan) (get_wan_peers db (peer_wan_id p)))
      end
  end.

Definition generate_wireguard_config (db : Database) (peer : string)
    (private_key now : string) : result string :=
  match wireguard_config_lines db peer private_key now with
  | Ok config_lines => Ok (join newline config_lines)
  | Raise e => Raise e
  end.

(** The structured desired state of [get_mikrotik_desired_state]. *)
Record DesiredState := {
  ds_interface : resource;
  ds_peers : list resource;
  ds_ip_addresses : list resource;
  ds_routes : list resource;
  ds_firewall_rules : list resource;
  ds_nat_rules : list resource
}.

Definition interface_name_of (peer : Peer) : string :=
  if truthy (mikrotik_interface_name peer)
  then fmt_opt (mikrotik_interface_name peer) else "wg-wan-overlay".

Definition subnet_route_cidr (s : LocalSubnet) : string :=
  if nat_enabled s && truthy (nat_translated_cidr s)
  then default "" (nat_translated_cidr s) else cidr s.

Definition desired_peer (peer : Peer) (wan : WanNetwork) (other_peer : Peer)
  : list resource :=
  if String.eqb (peer_id other_peer) (peer_id peer)
     || negb (truthy (public_key other_peer)) then []
  else
    let allowed :=
      (if truthy (tunnel_ip other_peer)
       then [fmt_opt (tunnel_ip other_peer) +:+ "/32"] else [])
      ++ flat_map (fun s => if is_routed s then [subnet_route_cidr s] else [])
                  (local_subnets other_peer)
      ++ service_entries other_peer
      ++ [shared_services_range wan] in
    let keepalive :=
      if truthy_int (persistent_keepalive other_peer)
      then default 0 (persistent_keepalive other_peer) else 25 in
    let peer_config : resource :=
      list_to_map
        [("interface", interface_name_of peer);
         ("public-key", fmt_opt (public_key other_peer));
         ("allowed-address", join "," (py_set allowed));
         ("persistent-keepalive", pretty keepalive +:+ "s");
         ("comment", COMMENT_PREFIX +:+ "peer-" +:+ peer_id other_peer)] in
    if truthy (endpoint other_peer) then
      let parts := ipaddress.split_on ":" (fmt_opt (endpoint other_peer)) in
      [ <["endpoint-address" := hd "" parts]>
          (<["endpoint-port" := nth 1 parts "51820"]> peer_config) ]
    else [peer_config].

Definition desired_routes (peer : Peer) (wan : WanNetwork)
    (all_peers : list Peer) : list resource :=
  flat_map
    (fun other_peer =>
       if String.eqb (peer_id other_peer) (peer_id peer) then []
       else
         flat_map
           (fun s =>
              if is_routed s then
                [ (list_to_map
                     [("dst-address", subnet_route_cidr s);
                      ("gateway", interface_name_of peer);
                      ("comment", COMMENT_PREFIX +:+ "route-to-"
                                  +:+ peer_id other_peer)] : resource) ]
              else [])
           (local_subnets other_peer))
    all_peers
  ++ [ (list_to_map
          [("dst-address", shared_services_range wan);
           ("gateway", interface_name_of peer);
           ("comment", COMMENT_PREFIX +:+ "route-shared-services-"
                       +:+ peer_id peer)] : resource) ].

Definition protocol_value (p : ServiceProtocol) : string :=
  match p with TCP => "tcp" | UDP => "udp" | BOTH => "both" end.

Definition desired_nat_rules (peer : Peer) : list resource :=
  flat_map
    (fun service =>
       if is_active service then
         map
           (fun proto =>
              let rule : resource :=
                list_to_map
                  [("chain", "dstnat");
                   ("dst-address", shared_ip service);
                   ("protocol", proto);
                   ("action", "dst-nat");
                   ("to-addresses", local_ip service);
                   ("comment", COMMENT_PREFIX +:+ "service-"
                               +:+ service_id service)] in
              let rule :=
                if 0 <? shared_port service
                then <["dst-port" := pretty (shared_port service)]> rule
                else rule in
              if 0 <? local_port service
              then <["to-ports" := pretty (local_port service)]> rule
              else rule)
           (match protocol service with
            | BOTH => ["tcp"; "udp"]
            | p => [protocol_value p]
            end)
       else [])
    (published_services peer).

Definition get_mikrotik_desired_state (db : Database) (peer : string)
    (private_key : string) : result DesiredState :=
  match get_peer db peer with
  | None => Raise (ValueError ("Peer " +:+ peer +:+ " not found"))
  | Some p =>
      match get_wan db (peer_wan_id p) with
      | None => Raise NoResultFound
      | Some wan =>
          let all_peers := get_wan_peers db (peer_wan_id p) in
          let interface_name := interface_name_of p in
          let managed := COMMENT_PREFIX +:+ "peer-" +:+ peer_id p in
          Ok {| ds_interface :=
                  list_to_map
                    [("name", interface_name);
                     ("listen-port",
                      pretty (if truthy_int (listen_port p)
                              then default 0 (listen_port p) else 51820));
                     ("private-key", private_key);
                     ("comment", managed)];
                ds_peers := flat_map (desired_peer p wan) all_peers;
                ds_ip_addresses :=
                  [ list_to_map
                      [("address", fmt_opt (tunnel_ip p) +:+ "/24");
                       ("interface", interface_name);
                       ("comment", managed)] ];
                ds_routes := desired_routes p wan all_peers;
                ds_firewall_rules :=
                  [ list_to_map
                      [("chain", "input"); ("in-interface", interface_name);
                       ("action", "accept");
                       ("comment", COMMENT_PREFIX +:+ "allow-input-wan-"
                                   +:+ peer_id p)];
                    list_to_map
                      [("chain", "forward"); ("in-interface", interface_name);
                       ("action", "accept");
                       ("comment", COMMENT_PREFIX +:+ "allow-from-wan-"
                                   +:+ peer_id p)];
                    list_to_map
                      [("chain", "forward"); ("out-interface", interface_name);
                       ("action", "accept");
                       ("comment", COMMENT_PREFIX +:+ "allow-to-wan-"
                                   +:+ peer_id p)] ];
                ds_nat_rules := desired_nat_rules p |}
      end
  end.

End config_generator.

(** ** The managed router *)

(** The router is an external collaborator.  It is modelled as the
    contract of the spec's section 4.5 asks: per resource path a list of
    resources, with list, add, update in place and delete by id. *)
Module router.

Inductive path :=
| WIREGUARD          (* /interface/wireguard *)
| WIREGUARD_PEERS    (* /interface/wireguard/peers *)
| IP_ADDRESS         (* /ip/address *)
| IP_ROUTE           (* /ip/route *)
| FIREWALL_FILTER    (* /ip/firewall/filter *)
| FIREWALL_NAT       (* /ip/firewall/nat *)
| SYSTEM_IDENTITY    (* /system/identity *)
| SYSTEM_RESOURCE.   (* /system/resource *)

#[global] Instance path_eq_dec : EqDecision path.
Proof. solve_decision. Defined.

(** The [command] argument of [_execute_sync] with its keyword arguments. *)
Inductive command :=
| Print
| Add (kwargs : resource)
| Update (kwargs : resource)
| Remove (id : string).

Definition is_write (c : command) : bool :=
  match c with Print => false | _ => true end.

Record Router := {
  table : path -> list resource;
  next_id : N
}.

Definition set_table (p : path) (l : list resource) (r : Router) : Router :=
  {| table := fun q => if decide (q = p) then l else table r q;
     next_id := next_id r |}.

Definition has_id (id : string) (r : resource) : bool :=
  bool_decide (r !! ".id" = Some id).

(** What the router does with one command: the reply and the new state.
    An update or a removal of an id that is not there is refused. *)
Definition apply (p : path) (c : command) (r : Router)
  : result (list resource) * Router :=
  match c with
  | Print => (Ok (table r p), r)
  | Add kwargs =>
      let id := "*" +:+ pretty (next_id r) in
      (Ok [ {[ "ret" := id ]} ],
       {| table := fun q => if decide (q = p)
                            then table r p ++ [ <[".id" := id]> kwargs ]
                            else table r q;
          next_id := N.succ (next_id r) |})
  | Update kwargs =>
      let id := get_str kwargs ".id" in
      if existsb (has_id id) (table r p) then
        (Ok [],
         set_table p
           (map (fun x => if has_id id x then kwargs ∪ x else x) (table r p)) r)
      else (Raise (MikrotikAPIError "API Error" "no such item"), r)
  | Remove id =>
      if existsb (has_id id) (table r p) then
        (Ok [], set_table p (List.filter (fun x => negb (has_id id x)) (table r p)) r)
      else (Raise (MikrotikAPIError "API Error" "no such item"), r)
  end.

End router.

(** ** Asynchronous execution *)

(** One task runs against the router and the database.  Every [await] is
    an await point: the clock ticks, and whatever other requests commit to
    the database meanwhile is applied ([interference]).  A router call
    fails when [fault] says so at its tick. *)
Module runtime.
Import models router.

Inductive event :=
| EvApi (p : path) (c : command)       (* a command sent to the router *)
| EvProgress (n : Z)                   (* [job.progress_percent = n] *)
| EvStatus (s : JobStatus)             (* [job.status = s] *)
| EvBackup (b : managed_resources)     (* [job.backup_config = b] *)
| EvAwait (db : Database).             (* database after an await point *)

Record World := {
  w_router : Router;
  w_db : Database;
  w_clock : nat;
  w_trace : list event;
  w_fault : nat -> bool;
  w_interference : nat -> Database -> Database
}.

Definition M (A : Type) : Type := World -> result A * World.

#[global] Instance M_ret : MRet M := fun A a w => (Ok a, w).

#[global] Instance M_bind : MBind M := fun A B f m w =>
  match m w with
  | (Ok a, w') => f a w'
  | (Raise e, w') => (Raise e, w')
  end.

Definition raise {A} (e : exn) : M A := fun w => (Raise e, w).

(** [try: m except Exception as e: handler(e)] *)
Definition try_except {A} (m : M A) (handler : exn -> M A) : M A := fun w =>
  match m w with
  | (Ok a, w') => (Ok a, w')
  | (Raise e, w') => handler e w'
  end.

Definition lift_result {A} (r : result A) : M A := fun w => (r, w).

Definition get_db : M Database := fun w => (Ok (w_db w), w).

Definition modify_db (f : Database -> Database) : M unit := fun w =>
  (Ok tt,
   {| w_router := w_router w; w_db := f (w_db w); w_clock := w_clock w;
      w_trace := w_trace w; w_fault := w_fault w;
      w_interference := w_interference w |}).

Definition emit (e : event) : M unit := fun w =>
  (Ok tt,
   {| w_router := w_router w; w_db := w_db w; w_clock := w_clock w;
      w_trace := w_trace w ++ [e]; w_fault := w_fault w;
      w_interference := w_interference w |}).

(** An await point; it answers whether the awaited call is set to fail. *)
Definition await_point : M bool := fun w =>
  let n := w_clock w in
  let db' := w_interference w n (w_db w) in
  (Ok (w_fault w n),
   {| w_router := w_router w; w_db := db'; w_clock := S n;
      w_trace := w_trace w ++ [EvAwait db']; w_fault := w_fault w;
      w_interference := w_interference w |}).

(** [await db.commit()] *)
Definition commit : M unit := _ ← await_point; mret tt.

(** The router serves one command. *)
Definition router_apply (p : path) (c : command) : M (list resource) := fun w =>
  let '(reply, r') := apply p c (w_router w) in
  (reply,
   {| w_router := r'; w_db := w_db w; w_clock := w_clock w;
      w_trace := w_trace w; w_fault := w_fault w;
      w_interference := w_interference w |}).

(** [for x in l: body(x)] *)
Fixpoint for_each {A} (l : list A) (body : A -> M unit) : M unit :=
  match l with
  | [] => mret tt
  | x :: rest => _ ← body x; for_each rest body
  end.

(** The events that change the router. *)
Definition is_write_event (e : event) : bool :=
  match e with
  | EvApi _ c => is_write c
  | _ => false
  end.

Definition initial_world (r : Router) (db : Database) (fault : nat -> bool)
    (interference : nat -> Database -> Database) : World :=
  {| w_router := r; w_db := db; w_clock := 0%nat; w_trace := [];
     w_fault := fault; w_interference := interference |}.

Definition no_fault : nat -> bool := fun _ => false.
Definition no_interference : nat -> Database -> Database := fun _ db => db.

End runtime.

(** ** [services/mikrotik_client.py] *)

Module mikrotik_client.
Import router runtime.

Definition COMMENT_PREFIX : string := "WAN-Overlay-Manager:".

Record MikrotikConnectionInfo := {
  success : bool;
  router_identity : option string;
  routeros_version : option string;
  conn_error_message : option string
}.

(** [needle in haystack] on strings. *)
Fixpoint str_in (needle haystack : string) : bool :=
  String.prefix needle haystack
  || match haystack with
     | EmptyString => false
     | String _ rest => str_in needle rest
     end.

(** [MikrotikAPIClient]: what [__init__] keeps. *)
Record MikrotikAPIClient := {
  host : option string;
  port : Z;
  username : string;
  password : string;
  api_token : option string;
  use_ssl : bool;
  verify_cert : bool
}.

(** [_get_connection] as far as this development goes: a client without a
    host raises at once ([if not self.host]; the error is caught by the
    function's own [except Exception] and raised again with [str(e)] as its
    detail); otherwise the connection is made or refused.  The detail of a
    refused connection is cut down to its fixed part. *)
Definition _get_connection (self : MikrotikAPIClient) (refused : bool)
  : result unit :=
  if negb (truthy (host self)) then
    Raise (MikrotikAPIError "Connection failed" "Connection failed")
  else if refused then
    Raise (MikrotikAPIError "Connection refused" "Is the API service enabled?")
  else Ok tt.

(** [__init__]: [username or "admin"], [password or ""]. *)
Definition __init__ (host : option string) (port : Z)
    (username password api_token : option string)
    (use_ssl verify_cert : bool) : MikrotikAPIClient :=
  {| host := host; port := port;
     username := if truthy username then default "" username else "admin";
     password := default "" password;
     api_token := api_token;
     use_ssl := use_ssl; verify_cert := verify_cert |}.

(** [_execute]: connect, send the command, translate the library's
    errors.  A failed connection sends nothing. *)
Definition _execute (self : MikrotikAPIClient) (p : path) (c : command)
  : M (list resource) :=
  refused ← await_point;
  _ ← lift_result (_get_connection self refused);
  _ ← emit (EvApi p c);
  router_apply p c.

(** [[r for r in result if comment_filter in r.get("comment", "")]], kept
    only when [comment_filter] is given and not empty. *)
Definition filter_comment (comment_filter : option string)
    (l : list resource) : list resource :=
  if truthy comment_filter then
    List.filter (fun r => str_in (default "" comment_filter) (get_str r "comment")) l
  else l.

(** [[r for r in result if r.get(key) == v]], kept only when [v] is given
    and not empty. *)
Definition filter_field (key : string) (v : option string)
    (l : list resource) : list resource :=
  if truthy v then
    List.filter (fun r => bool_decide (r !! key = v)) l
  else l.

(** The two [except] clauses of [_test_connection_sync]:
    [f"{e.message}: {e.detail}"] for the client's own error, [str(e)] for
    any other. *)
Definition connection_error_message (e : exn) : string :=
  match e with
  | MikrotikAPIError message detail => message +:+ ": " +:+ detail
  | ValueError msg => msg
  | EncryptionConfigError msg => msg
  | NameError name => "name '" +:+ name +:+ "' is not defined"
  | NoResultFound => "No row was found when one was required"
  | HTTPException _ _ => ""
  | InvalidToken => ""
  end.

Definition test_connection (self : MikrotikAPIClient)
  : M MikrotikConnectionInfo :=
  refused ← await_point;
  match _get_connection self refused with
  | Raise e =>
      mret {| success := false; router_identity := None;
              routeros_version := None;
              conn_error_message := Some (connection_error_message e) |}
  | Ok _ =>
      identity_list ← router_apply SYSTEM_IDENTITY Print;
      resource_list ← router_apply SYSTEM_RESOURCE Print;
      mret {| success := true;
              router_identity :=
                Some (match identity_list with
                      | r :: _ => default "Unknown" (r !! "name")
                      | [] => "Unknown"
                      end);
              routeros_version :=
                Some (match resource_list with
                      | r :: _ => default "Unknown" (r !! "version")
                      | [] => "Unknown"
                      end);
              conn_error_message := None |}
  end.

Definition get_wireguard_interfaces (self : MikrotikAPIClient)
    (comment_filter : option string)
  : M (list resource) :=
  result ← _execute self WIREGUARD Print;
  mret (filter_comment comment_filter result).

(** [if v: kwargs[key] = v] *)
Definition with_opt (key : string) (v : option string) (kwargs : resource)
  : resource :=
  if truthy v then <[key := default "" v]> kwargs else kwargs.

Definition create_wireguard_interface (self : MikrotikAPIClient)
    (name listen_port private_key : string)
    (comment : option string) : M (list resource) :=
  _execute self WIREGUARD
    (Add (with_opt "comment" comment
            (list_to_map [("name", name); ("listen-port", listen_port);
                          ("private-key", private_key)]))).

(** [k.replace("_", "-")] *)
Fixpoint underscore_to_hyphen (k : string) : string :=
  match k with
  | EmptyString => EmptyString
  | String c rest =>
      String (if Ascii.eqb c "_" then "-"%char else c) (underscore_to_hyphen rest)
  end.

Definition update_wireguard_interface (self : MikrotikAPIClient)
    (interface_id : string)
    (data : resource) : M (list resource) :=
  let converted : resource :=
    list_to_map
      (map (fun '(k, v) =>
              if String.eqb k ".id" then (k, v) else (underscore_to_hyphen k, v))
           (map_to_list (<[".id" := interface_id]> data))) in
  _ ← _execute self WIREGUARD (Update converted);
  mret [].

Definition delete_wireguard_interface (self : MikrotikAPIClient)
    (interface_id : string) : M unit :=
  _ ← _execute self WIREGUARD (Remove interface_id); mret tt.

Definition get_wireguard_peers (self : MikrotikAPIClient)
    (interface comment_filter : option string)
  : M (list resource) :=
  result ← _execute self WIREGUARD_PEERS Print;
  mret (filter_comment comment_filter (filter_field "interface" interface result)).

Definition create_wireguard_peer (self : MikrotikAPIClient)
    (interface public_key allowed_address : string)
    (endpoint_address endpoint_port persistent_keepalive comment : option string)
  : M (list resource) :=
  _execute self WIREGUARD_PEERS
    (Add (with_opt "comment" comment
         (with_opt "persistent-keepalive" persistent_keepalive
         (with_opt "endpoint-port" endpoint_port
         (with_opt "endpoint-address" endpoint_address
            (list_to_map [("interface", interface);
                          ("public-key", public_key);
                          ("allowed-address", allowed_address)])))))).

Definition delete_wireguard_peer (self : MikrotikAPIClient)
    (id : string) : M unit :=
  _ ← _execute self WIREGUARD_PEERS (Remove id); mret tt.

Definition get_ip_addresses (self : MikrotikAPIClient)
    (interface comment_filter : option string)
  : M (list resource) :=
  result ← _execute self IP_ADDRESS Print;
  mret (filter_comment comment_filter (filter_field "interface" interface result)).

Definition create_ip_address (self : MikrotikAPIClient)
    (address interface : string)
    (comment : option string) : M (list resource) :=
  _execute self IP_ADDRESS
    (Add (with_opt "comment" comment
            (list_to_map [("address", address); ("interface", interface)]))).

Definition delete_ip_address (self : MikrotikAPIClient)
    (id : string) : M unit :=
  _ ← _execute self IP_ADDRESS (Remove id); mret tt.

Definition get_routes (self : MikrotikAPIClient)
    (comment_filter : option string) : M (list resource) :=
  result ← _execute self IP_ROUTE Print;
  mret (filter_comment comment_filter result).

Definition create_route (self : MikrotikAPIClient)
    (dst_address gateway : string)
    (comment : option string) : M (list resource) :=
  _execute self IP_ROUTE
    (Add (with_opt "comment" comment
            (list_to_map [("dst-address", dst_address); ("gateway", gateway)]))).

Definition delete_route (self : MikrotikAPIClient) (id : string) : M unit :=
  _ ← _execute self IP_ROUTE (Remove id); mret tt.

Definition get_firewall_filter_rules (self : MikrotikAPIClient)
    (chain comment_filter : option string)
  : M (list resource) :=
  result ← _execute self FIREWALL_FILTER Print;
  mret (filter_comment comment_filter (filter_field "chain" chain result)).

Definition create_firewall_filter_rule (self : MikrotikAPIClient)
    (chain action : string)
    (in_interface out_interface comment : option string) : M (list resource) :=
  _execute self FIREWALL_FILTER
    (Add (with_opt "comment" comment
         (with_opt "out-interface" out_interface
         (with_opt "in-interface" in_interface
            (list_to_map [("chain", chain); ("action", action)]))))).

Definition delete_firewall_filter_rule (self : MikrotikAPIClient)
    (id : string) : M unit :=
  _ ← _execute self FIREWALL_FILTER (Remove id); mret tt.

Definition get_nat_rules (self : MikrotikAPIClient)
    (chain comment_filter : option string)
  : M (list resource) :=
  result ← _execute self FIREWALL_NAT Print;
  mret (filter_comment comment_filter (filter_field "chain" chain result)).

Definition create_nat_rule (self : MikrotikAPIClient) (chain action : string)
    (dst_address src_address protocol dst_port to_addresses to_ports
       out_interface comment : option string) : M (list resource) :=
  _execute self FIREWALL_NAT
    (Add (with_opt "comment" comment
         (with_opt "out-interface" out_interface
         (with_opt "to-ports" to_ports
         (with_opt "to-addresses" to_addresses
         (with_opt "dst-port" dst_port
         (with_opt "protocol" protocol
         (with_opt "src-address" src_address
         (with_opt "dst-address" dst_address
            (list_to_map [("chain", chain); ("action", action)])))))))))).

Definition delete_nat_rule (self : MikrotikAPIClient) (id : string) : M unit :=
  _ ← _execute self FIREWALL_NAT (Remove id); mret tt.

Definition get_managed_resources (self : MikrotikAPIClient) : M managed_resources :=
  wireguard_interfaces ← get_wireguard_interfaces self (Some COMMENT_PREFIX);
  wireguard_peers ← get_wireguard_peers self None (Some COMMENT_PREFIX);
  ip_addresses ← get_ip_addresses self None (Some COMMENT_PREFIX);
  routes ← get_routes self (Some COMMENT_PREFIX);
  firewall_filter_rules ← get_firewall_filter_rules self None (Some COMMENT_PREFIX);
  nat_rules ← get_nat_rules self None (Some COMMENT_PREFIX);
  mret [("wireguard_interfaces", wireguard_interfaces);
        ("wireguard_peers", wireguard_peers);
        ("ip_addresses", ip_addresses);
        ("routes", routes);
        ("firewall_filter_rules", firewall_filter_rules);
        ("nat_rules", nat_rules)].

Definition remove_managed_resources (self : MikrotikAPIClient) : M unit :=
  nats ← get_nat_rules self None (Some COMMENT_PREFIX);
  _ ← for_each nats (fun nat => delete_nat_rule self (get_str nat ".id"));
  rules ← get_firewall_filter_rules self None (Some COMMENT_PREFIX);
  _ ← for_each rules (fun rule => delete_firewall_filter_rule self (get_str rule ".id"));
  routes ← get_routes self (Some COMMENT_PREFIX);
  _ ← for_each routes (fun route => delete_route self (get_str route ".id"));
  addrs ← get_ip_addresses self None (Some COMMENT_PREFIX);
  _ ← for_each addrs (fun addr => delete_ip_address self (get_str addr ".id"));
  peers ← get_wireguard_peers self None (Some COMMENT_PREFIX);
  _ ← for_each peers (fun peer => delete_wireguard_peer self (get_str peer ".id"));
  ifaces ← get_wireguard_interfaces self (Some COMMENT_PREFIX);
  for_each ifaces (fun iface => delete_wireguard_interface self (get_str iface ".id")).

End mikrotik_client.

(** ** [services/deployment.py]: the deployment engine *)

Module deployment.
Import models router runtime mikrotik_client.

Definition COMMENT_PREFIX : string := "WAN-Overlay-Manager:".

(** A background task made by [asyncio.create_task]: the arguments of
    [_execute_deployment]. *)
Record Task := { task_job_id : string; task_peer_id : string }.

(** [create_deployment_job]; [new_id] is the fresh [uuid4]. *)
Definition create_deployment_job (db : Database) (peer : string)
    (jt : JobType) (created_by : option string) (new_id : string)
  : DeploymentJob * Database :=
  let job :=
    {| job_id := new_id; job_peer_id := peer; job_type := jt;
       status := PENDING; progress_percent := 0;
       started_at := None; completed_at := None; error_message := None;
       operations_log := []; backup_config := None;
       created_by_id := created_by |} in
  (job, add_job job db).

(** [deploy_configuration]: the new job, the task it launches, and the
    database after the commit. *)
Definition deploy_configuration (db : Database) (peer : string)
    (created_by : option string) (new_id : string)
  : result (DeploymentJob * Task) * Database :=
  match get_peer db peer with
  | None => (Raise (ValueError "Peer not found"), db)
  | Some p =>
      if negb (PeerType_eqb (peer_type p) MIKROTIK) then
        (Raise (ValueError "Peer is not a MikroTik device"), db)
      else
        let '(job, db') :=
          create_deployment_job db peer DEPLOY_CONFIG created_by new_id in
        (Ok (job, {| task_job_id := job_id job; task_peer_id := peer |}), db')
  end.

(** [str(e)] *)
Definition exn_str (e : exn) : string :=
  match e with
  | ValueError msg => msg
  | NameError name => "name '" +:+ name +:+ "' is not defined"
  | HTTPException _ _ => ""
  | MikrotikAPIError message _ => message
  | NoResultFound => "No row was found when one was required"
  | EncryptionConfigError msg => msg
  | InvalidToken => ""
  end.

(** [type(e).__name__] *)
Definition exn_name (e : exn) : string :=
  match e with
  | ValueError _ => "ValueError"
  | NameError _ => "NameError"
  | HTTPException _ _ => "HTTPException"
  | MikrotikAPIError _ _ => "MikrotikAPIError"
  | NoResultFound => "NoResultFound"
  | EncryptionConfigError _ => "EncryptionConfigError"
  | InvalidToken => "InvalidToken"
  end.

(** [result.scalar_one()] *)
Definition scalar_one {A} (o : option A) : M A :=
  match o with
  | Some a => mret a
  | None => raise NoResultFound
  end.

(** [datetime.utcnow()]: the clock of the run. *)
Definition utcnow : M Z := fun w => (Ok (Z.of_nat (w_clock w)), w).

(** Assignments to the job object; the unit of work writes each changed
    column to the row of [job] at the commit that follows. *)
Definition assign (job : string) (f : DeploymentJob -> DeploymentJob)
  : M unit :=
  modify_db (update_job job f).

Definition assign_progress (job : string) (n : Z) : M unit :=
  _ ← emit (EvProgress n); assign job (set_progress_percent n).

Definition assign_status (job : string) (s : JobStatus) : M unit :=
  _ ← emit (EvStatus s); assign job (set_status s).

Definition assign_backup (job : string) (b : managed_resources) : M unit :=
  _ ← emit (EvBackup b); assign job (set_backup_config b).

(** [comment and comment.startswith(COMMENT_PREFIX)] *)
Definition is_managed (r : resource) : bool :=
  let comment := get_str r "comment" in
  negb (String.eqb comment "") && String.prefix COMMENT_PREFIX comment.

(** [for r in existing: if managed: await delete(r[".id"])] *)
Definition delete_managed (existing : list resource)
    (delete : string -> M unit) : M unit :=
  for_each existing
    (fun r => if is_managed r then delete (get_str r ".id") else mret tt).

(** [decrypt_value(x) if x else dflt] *)
Definition decrypt_if_set (c : security.Crypto) (settings : security.Settings)
    (x : option string) (dflt : option string) : M (option string) :=
  if truthy x then
    v ← lift_result (security.decrypt_value c settings (default "" x));
    mret (Some v)
  else mret dflt.

(** The body of the [try] block of [_execute_deployment]. *)
Definition apply_body (c : security.Crypto) (settings : security.Settings)
    (job peer : string) : M unit :=
  db ← get_db;
  _ ← scalar_one (get_job db job);
  p ← scalar_one (get_peer db peer);
  (* Update job status *)
  _ ← assign_status job RUNNING;
  now ← utcnow;
  _ ← assign job (set_started_at now);
  _ ← assign_progress job 5;
  _ ← commit;
  (* Get MikroTik client *)
  password ← decrypt_if_set c settings (mikrotik_password_encrypted p) None;
  api_token ← decrypt_if_set c settings (mikrotik_api_token_encrypted p) None;
  let client :=
    __init__ (mikrotik_management_ip p)
      (if config_generator.truthy_int (mikrotik_api_port p)
       then default 0 (mikrotik_api_port p) else 443)
      (mikrotik_username p) password api_token
      (mikrotik_use_ssl p) (mikrotik_verify_cert p) in
  (* Test connection first *)
  conn_result ← test_connection client;
  _ ← (if success conn_result then mret tt
       else raise (MikrotikAPIError
                     ("Connection test failed: "
                      +:+ config_generator.fmt_opt (conn_error_message conn_result))
                     ""));
  _ ← assign_progress job 10;
  _ ← commit;
  (* Get desired state *)
  private_key ← decrypt_if_set c settings (private_key_encrypted p) (Some "");
  db ← get_db;
  desired_state ←
    lift_result (config_generator.get_mikrotik_desired_state
                   db peer (default "" private_key));
  _ ← assign_progress job 15;
  _ ← commit;
  (* Get current managed resources for backup *)
  current_resources ← get_managed_resources client;
  _ ← assign_backup job current_resources;
  _ ← assign_progress job 20;
  _ ← commit;
  let interface_name := config_generator.interface_name_of p in
  let iface_cfg := config_generator.ds_interface desired_state in
  (* Step 1: Create/update Wireguard interface *)
  existing_interfaces ← get_wireguard_interfaces client None;
  _ ← match find (fun iface => bool_decide (iface !! "name" = Some interface_name))
                 existing_interfaces with
      | Some iface =>
          update_wireguard_interface client (get_str iface ".id")
            (list_to_map
               [("listen-port", get_str iface_cfg "listen-port");
                ("private-key", get_str iface_cfg "private-key");
                ("comment", get_str iface_cfg "comment")])
      | None =>
          create_wireguard_interface client interface_name
            (get_str iface_cfg "listen-port")
            (get_str iface_cfg "private-key")
            (Some (get_str iface_cfg "comment"))
      end;
  _ ← assign_progress job 30;
  _ ← commit;
  (* Step 2: Remove old peers and add new ones *)
  existing_peers ← get_wireguard_peers client (Some interface_name) None;
  _ ← delete_managed existing_peers (delete_wireguard_peer client);
  _ ← assign_progress job 40;
  _ ← commit;
  _ ← for_each (config_generator.ds_peers desired_state)
        (fun peer_config =>
           _ ← create_wireguard_peer client
                 (get_str peer_config "interface")
                 (get_str peer_config "public-key")
                 (get_str peer_config "allowed-address")
                 (peer_config !! "endpoint-address")
                 (peer_config !! "endpoint-port")
                 (peer_config !! "persistent-keepalive")
                 (Some (get_str peer_config "comment"));
           mret tt);
  _ ← assign_progress job 50;
  _ ← commit;
  (* Step 3: Configure IP addresses *)
  existing_addrs ← get_ip_addresses client (Some interface_name) None;
  _ ← delete_managed existing_addrs (delete_ip_address client);
  _ ← for_each (config_generator.ds_ip_addresses desired_state)
        (fun addr_config =>
           _ ← create_ip_address client
                 (get_str addr_config "address")
                 (get_str addr_config "interface")
                 (Some (get_str addr_config "comment"));
           mret tt);
  _ ← assign_progress job 60;
  _ ← commit;
  (* Step 4: Configure routes *)
  existing_routes ← get_routes client None;
  _ ← delete_managed existing_routes (delete_route client);
  _ ← for_each (config_generator.ds_routes desired_state)
        (fun route_config =>
           _ ← create_route client
                 (get_str route_config "dst-address")
                 (get_str route_config "gateway")
                 (Some (get_str route_config "comment"));
           mret tt);
  _ ← assign_progress job 70;
  _ ← commit;
  (* Step 5: Configure firewall rules *)
  existing_rules ← get_firewall_filter_rules client None None;
  _ ← delete_managed existing_rules (delete_firewall_filter_rule client);
  _ ← for_each (config_generator.ds_firewall_rules desired_state)
        (fun rule_config =>
           _ ← create_firewall_filter_rule client
                 (get_str rule_config "chain")
                 (get_str rule_config "action")
                 (rule_config !! "in-interface")
                 (rule_config !! "out-interface")
                 (Some (get_str rule_config "comment"));
           mret tt);
  _ ← assign_progress job 80;
  _ ← commit;
  (* Step 6: Configure NAT rules *)
  existing_nat ← get_nat_rules client None None;
  _ ← delete_managed existing_nat (delete_nat_rule client);
  _ ← for_each (config_generator.ds_nat_rules desired_state)
        (fun nat_config =>
           _ ← create_nat_rule client
                 (get_str nat_config "chain")
                 (get_str nat_config "action")
                 (nat_config !! "dst-address")
                 None
                 (nat_config !! "protocol")
                 (nat_config !! "dst-port")
                 (nat_config !! "to-addresses")
                 (nat_config !! "to-ports")
                 None
                 (Some (get_str nat_config "comment"));
           mret tt);
  _ ← assign_progress job 90;
  _ ← commit;
  (* Step 7: Verify deployment *)
  interfaces ← get_wireguard_interfaces client None;
  let interface_running :=
    existsb (fun iface =>
               bool_decide (iface !! "name" = Some interface_name)
               && bool_decide (iface !! "running" = Some "true"))
            interfaces in
  _ ← assign_progress job 100;
  _ ← assign_status job COMPLETED;
  now ← utcnow;
  _ ← assign job (set_completed_at now);
  _ ← (if interface_running then mret tt
       else assign job
              (set_operations_log
                 [LogWarning "Interface created but may not be running"]));
  (* Update peer status *)
  _ ← modify_db (update_peer peer (set_peer_connected now));
  commit.

(** The two [except] clauses. *)
Definition apply_failed (job : string) (e : exn) : M unit :=
  db ← get_db;
  match get_job db job with
  | None => raise (NameError "job")
  | Some j =>
      match e with
      | MikrotikAPIError message detail =>
          _ ← assign_status job FAILED;
          _ ← assign job
                (set_error_message
                   (if String.eqb detail "" then message
                    else message +:+ ": " +:+ detail));
          now ← utcnow;
          _ ← assign job (set_completed_at now);
          commit
      | _ =>
          _ ← assign_status job FAILED;
          _ ← assign job
                (set_error_message
                   (if String.eqb (exn_str e) ""
                    then "Unexpected error (" +:+ exn_name e +:+ ")"
                    else exn_str e));
          _ ← assign job
                (set_operations_log
                   (operations_log j ++ [LogTraceback (exn_name e)]));
          now ← utcnow;
          _ ← assign job (set_completed_at now);
          commit
      end
  end.

(** [_execute_deployment], the background apply worker. *)
Definition _execute_deployment (c : security.Crypto)
    (settings : security.Settings) (job peer : string) : M unit :=
  try_except (apply_body c settings job peer) (apply_failed job).

(** [_get_mikrotik_client]: a stored secret that does not decrypt is
    reported as a [ValueError]. *)
Definition _get_mikrotik_client (c : security.Crypto)
    (settings : security.Settings) (peer : Peer) : result MikrotikAPIClient :=
  let decrypt_stored (x : option string) (what : string)
    : result (option string) :=
    if truthy x then
      match security.decrypt_value c settings (default "" x) with
      | Ok v => Ok (Some v)
      | Raise _ =>
          Raise (ValueError ("Cannot decrypt stored " +:+ what
                             +:+ ". Please update the MikroTik credentials."))
      end
    else Ok None in
  match decrypt_stored (mikrotik_password_encrypted peer) "password" with
  | Raise e => Raise e
  | Ok password =>
      match decrypt_stored (mikrotik_api_token_encrypted peer) "API token" with
      | Raise e => Raise e
      | Ok api_token =>
          Ok (__init__ (mikrotik_management_ip peer)
                (if config_generator.truthy_int (mikrotik_api_port peer)
                 then default 0 (mikrotik_api_port peer) else 8728)
                (mikrotik_username peer) password api_token
                (mikrotik_use_ssl peer) (mikrotik_verify_cert peer))
      end
  end.

(** [clear_managed_configuration] *)
Definition clear_managed_configuration (c : security.Crypto)
    (settings : security.Settings) (db : Database) (peer : string)
  : M unit :=
  match get_peer db peer with
  | None => raise (ValueError "Peer not found")
  | Some p =>
      if negb (PeerType_eqb (peer_type p) MIKROTIK) then
        raise (ValueError "Peer is not a MikroTik device")
      else
        client ← lift_result (_get_mikrotik_client c settings p);
        remove_managed_resources client
  end.

End deployment.

(** ** [api/endpoints]: the REST endpoints *)

Module endpoints.
Import models.

(** *** [deployments.py] *)

Definition HTTP_400 : Z := 400.
Definition HTTP_404 : Z := 404.

Definition cancellable (s : JobStatus) : bool :=
  match s with PENDING | RUNNING => true | _ => false end.

(** [job.status.value] *)
Definition status_value (s : JobStatus) : string :=
  match s with
  | PENDING => "pending"
  | RUNNING => "running"
  | COMPLETED => "completed"
  | FAILED => "failed"
  | CANCELLED => "cancelled"
  end.

(** [cancel_job]: the reply carries the job id. *)
Definition cancel_job (db : Database) (job : string)
  : result string * Database :=
  match get_job db job with
  | None => (Raise (HTTPException HTTP_404 (DetailStr "Deployment job not found")), db)
  | Some j =>
      if negb (cancellable (status j)) then
        (Raise (HTTPException HTTP_400
                  (DetailStr ("Cannot cancel job with status: "
                              +:+ status_value (status j)))), db)
      else (Ok (job_id j), update_job job (set_status CANCELLED) db)
  end.

(** [retry_job]: the reply carries the original and the new job id. *)
Definition retry_job (db : Database) (job : string) (new_id : string)
  : result (string * string * deployment.Task) * Database :=
  match get_job db job with
  | None => (Raise (HTTPException HTTP_404 (DetailStr "Deployment job not found")), db)
  | Some j =>
      if negb (JobStatus_eqb (status j) FAILED) then
        (Raise (HTTPException HTTP_400 (DetailStr "Can only retry failed jobs")), db)
      else
        match deployment.deploy_configuration db (job_peer_id j)
                (created_by_id j) new_id with
        | (Ok (new_job, task), db') => (Ok (job_id j, job_id new_job, task), db')
        | (Raise e, db') => (Raise e, db')
        end
  end.

(** [delete_job] *)
Definition delete_job (db : Database) (job : string) : result unit * Database :=
  match get_job db job with
  | None => (Raise (HTTPException HTTP_404 (DetailStr "Deployment job not found")), db)
  | Some j =>
      if cancellable (status j) then
        (Raise (HTTPException HTTP_400
                  (DetailStr "Cannot delete a pending or running job. Cancel it first.")),
         db)
      else
        (Ok tt,
         {| wans := wans db; peers := peers db;
            jobs := List.filter (fun x => negb (String.eqb (job_id x) job)) (jobs db) |})
  end.

(** The other requests that the runtime interleaves with a worker: a
    [cancel_job] for [job] served at each await point that [at_tick]
    selects. *)
Definition cancel_requests (job : string) (at_tick : nat -> bool)
  : nat -> Database -> Database :=
  fun n db => if at_tick n then snd (cancel_job db job) else db.

(** *** [peers.py] *)

(** [SubnetInput] and [PeerCreate], after validation by their schemas. *)
Record SubnetInput := {
  si_cidr : string;
  si_is_routed : bool;
  si_description : option string
}.

Record PeerCreate := {
  pc_name : string;
  pc_type : PeerType;
  pc_endpoint : option string;
  pc_listen_port : option Z;
  pc_persistent_keepalive : option Z;
  pc_tags : list string;
  pc_mikrotik_management_ip : option string;
  pc_mikrotik_api_port : option Z;
  pc_mikrotik_username : option string;
  pc_mikrotik_password : option string;
  pc_mikrotik_api_token : option string;
  pc_mikrotik_use_ssl : bool;
  pc_mikrotik_verify_cert : bool;
  pc_mikrotik_auto_deploy : bool;
  pc_mikrotik_interface_name : option string;
  pc_local_subnets : list SubnetInput
}.

(** What one call of [create_peer] draws: the [uuid4] values, the
    WireGuard key pair and the nonces of the three encryptions. *)
Record PeerEntropy (c : security.Crypto) := {
  new_peer_id : string;
  new_subnet_id : nat -> string;
  private_key : string;
  new_public_key : string;
  key_nonce : security.nonce c;
  password_nonce : security.nonce c;
  token_nonce : security.nonce c
}.
Arguments new_peer_id {c}.
Arguments new_subnet_id {c}.
Arguments private_key {c}.
Arguments new_public_key {c}.
Arguments key_nonce {c}.
Arguments password_nonce {c}.
Arguments token_nonce {c}.

(** [encrypt_value(x)] under [if x:]. *)
Definition encrypt_if_set (c : security.Crypto) (settings : security.Settings)
    (r : security.nonce c) (x : option string) : result (option string) :=
  if truthy x then
    match security.encrypt_value c settings r (default "" x) with
    | Ok v => Ok (Some v)
    | Raise e => Raise e
    end
  else Ok None.

Definition new_subnets {c} (e : PeerEntropy c) (l : list SubnetInput)
  : list LocalSubnet :=
  imap (fun i s =>
          {| subnet_id := new_subnet_id e i; cidr := si_cidr s;
             is_routed := si_is_routed s; nat_enabled := false;
             nat_translated_cidr := None;
             subnet_description := si_description s |}) l.

(** The conflict check at the head of [create_peer]: it raises the 400
    with the structured [conflicts] array when a critical conflict is
    found. *)
Definition check_critical_conflicts (db : Database) (wan : string)
    (peer_in : PeerCreate) : result unit :=
  match pc_local_subnets peer_in with
  | [] => Ok tt
  | subnets =>
      match conflict_detection.detect_conflicts db wan ""
              (map si_cidr subnets) None with
      | Raise err => Raise err
      | Ok conflicts =>
          let critical_conflicts :=
            List.filter
              (fun x => String.eqb
                          (conflict_detection.severity_value
                             (conflict_detection.severity x))
                          "critical")
              conflicts in
          match critical_conflicts with
          | [] => Ok tt
          | _ =>
              Raise (HTTPException HTTP_400
                       (DetailConflicts "Critical subnet conflicts detected"
                          (map (fun x => (conflict_detection.subnet x,
                                          conflict_detection.description x))
                               critical_conflicts)))
          end
      end
  end.

(** [create_peer]: the created peer (status 201) or the raised error,
    and the database afterwards. *)
Definition create_peer (c : security.Crypto) (settings : security.Settings)
    (db : Database) (wan : string) (peer_in : PeerCreate) (e : PeerEntropy c)
  : result Peer * Database :=
  match get_wan db wan with
  | None => (Raise (HTTPException HTTP_404 (DetailStr "WAN network not found")), db)
  | Some w =>
      (* Check for conflicts with local subnets *)
      match check_critical_conflicts db wan peer_in with
      | Raise err => (Raise err, db)
      | Ok _ =>
          (* Allocate tunnel IP *)
          match ip_allocation.allocate_tunnel_ip db wan (tunnel_ip_range w) with
          | Raise err => (Raise err, db)
          | Ok allocated =>
              if negb (truthy allocated) then
                (Raise (HTTPException HTTP_400
                          (DetailStr "No available tunnel IPs in the WAN network")),
                 db)
              else
                let is_mikrotik := PeerType_eqb (pc_type peer_in) MIKROTIK in
                match security.encrypt_value c settings (key_nonce e) (private_key e),
                      (if is_mikrotik
                       then encrypt_if_set c settings (password_nonce e)
                              (pc_mikrotik_password peer_in)
                       else Ok None),
                      (if is_mikrotik
                       then encrypt_if_set c settings (token_nonce e)
                              (pc_mikrotik_api_token peer_in)
                       else Ok None) with
                | Ok key_enc, Ok password_enc, Ok token_enc =>
                    let peer :=
                      {| peer_id := new_peer_id e;
                         peer_wan_id := wan;
                         peer_name := pc_name peer_in;
                         peer_type := pc_type peer_in;
                         public_key := Some (new_public_key e);
                         private_key_encrypted := Some key_enc;
                         tunnel_ip := allocated;
                         endpoint := pc_endpoint peer_in;
                         listen_port := pc_listen_port peer_in;
                         persistent_keepalive := pc_persistent_keepalive peer_in;
                         is_online := false;
                         last_seen := None;
                         tags := pc_tags peer_in;
                         peer_metadata := ∅;
                         mikrotik_management_ip :=
                           if is_mikrotik then pc_mikrotik_management_ip peer_in
                           else None;
                         mikrotik_api_port :=
                           if is_mikrotik then pc_mikrotik_api_port peer_in
                           else Some 8728;
                         mikrotik_username :=
                           if is_mikrotik then pc_mikrotik_username peer_in
                           else None;
                         mikrotik_password_encrypted := password_enc;
                         mikrotik_api_token_encrypted := token_enc;
                         mikrotik_use_ssl :=
                           if is_mikrotik then pc_mikrotik_use_ssl peer_in
                           else true;
                         mikrotik_verify_cert :=
                           if is_mikrotik then pc_mikrotik_verify_cert peer_in
                           else false;
                         mikrotik_auto_deploy :=
                           if is_mikrotik then pc_mikrotik_auto_deploy peer_in
                           else false;
                         mikrotik_interface_name :=
                           if is_mikrotik then pc_mikrotik_interface_name peer_in
                           else Some "wg-wan-overlay";
                         mikrotik_last_api_check := None;
                         mikrotik_api_status := Some UNKNOWN;
                         local_subnets := new_subnets e (pc_local_subnets peer_in);
                         published_services := [] |} in
                    (Ok peer, add_peer peer db)
                | Raise err, _, _ => (Raise err, db)
                | _, Raise err, _ => (Raise err, db)
                | _, _, Raise err => (Raise err, db)
                end
          end
      end
  end.

(** [SubnetInput.validate_cidr] of [schemas/peer.py], which
    [create_peer] runs on each subnet of its body.  The message is that
    of [ip_network] for text without quotes. *)
Definition validate_cidr (v : string) : result string :=
  match ipaddress.ip_network v with
  | Some _ => Ok v
  | None =>
      Raise (ValueError
               ("Invalid CIDR notation: '" +:+ v
                +:+ "' does not appear to be an IPv4 or IPv6 network"))
  end.

(** The reply of [add_subnet]: the stored row and, of each conflict, its
    subnet, severity and description. *)
Record SubnetAdded := {
  added_subnet : LocalSubnet;
  added_conflicts : list (string * string * string)
}.

(** [add_subnet]: [cidr] is the query parameter as sent, no schema
    validates it; the conflicts found are reported and refuse nothing. *)
Definition add_subnet (db : Database) (peer cidr : string) (is_routed : bool)
    (description : option string) (new_id : string)
  : result SubnetAdded * Database :=
  match get_peer db peer with
  | None => (Raise (HTTPException HTTP_404 (DetailStr "Peer not found")), db)
  | Some p =>
      (* Check for conflicts *)
      match conflict_detection.detect_conflicts db (peer_wan_id p) (peer_id p)
              [cidr] None with
      | Raise err => (Raise err, db)
      | Ok conflicts =>
          let subnet :=
            {| subnet_id := new_id; models.cidr := cidr;
               models.is_routed := is_routed; nat_enabled := false;
               nat_translated_cidr := None;
               subnet_description := description |} in
          (Ok {| added_subnet := subnet;
                 added_conflicts :=
                   map (fun x =>
                          (conflict_detection.subnet x,
                           conflict_detection.severity_value
                             (conflict_detection.severity x),
                           conflict_detection.description x))
                       conflicts |},
           update_peer peer (add_local_subnet subnet) db)
      end
  end.

(** *** [services.py] *)

(** A value that a Python name can hold, as far as [list_services] looks
    at it. *)
Inductive pyobj :=
| PyNone
| PyWan (w : WanNetwork)
| PyObject.

(** The names that the module [endpoints/services.py] binds: its imports
    and its definitions. *)
Definition services_globals : list string :=
  ["Optional"; "uuid"; "APIRouter"; "Depends"; "HTTPException"; "status";
   "Query"; "select"; "func"; "AsyncSession"; "selectinload"; "get_db";
   "Peer"; "PeerType"; "PublishedService"; "WanNetwork"; "ServiceCreate";
   "ServiceUpdate"; "ServiceResponse"; "ServiceListResponse";
   "IPAllocationService"; "DeploymentService"; "PiHoleService"; "_slugify";
   "router"; "build_service_response"; "list_services"; "create_service";
   "get_service"; "update_service"; "delete_service"].

(** The names that the body of [list_services] assigns: its parameters
    and its local variables.  Every other name in the body is looked up in
    the module. *)
Definition list_services_locals : list string :=
  ["wan_id"; "skip"; "limit"; "peer_id"; "db"; "wan_result"; "query";
   "result"; "services"; "count_query"; "count_result"; "total"; "pihole";
   "wan_name"; "items"; "s"; "hostname"].

(** Reading a name inside a function: a local when the function assigns
    it, else a global of the module, else [NameError]. *)
Definition load_name (frame : gmap string pyobj) (locals globals : list string)
    (name : string) : result pyobj :=
  if existsb (String.eqb name) locals then
    match frame !! name with
    | Some v => Ok v
    | None => Raise (NameError name)
    end
  else if existsb (String.eqb name) globals then Ok PyObject
  else Raise (NameError name).

(** [PiHoleService], as [list_services] uses it. *)
Record PiHole := {
  is_configured : bool;
  build_hostname : string -> string -> option string -> string
}.

Record ServiceResponse := {
  sr_service : PublishedService;
  sr_hostname : option string
}.

Record ServiceListResponse := {
  slr_items : list ServiceResponse;
  slr_total : nat
}.

(** [query.offset(skip).limit(limit)] *)
Definition page {A} (skip limit : nat) (l : list A) : list A :=
  take limit (drop skip l).

Definition list_services (db : Database) (pihole : PiHole) (wan : string)
    (skip limit : nat) (peer : option string) : result ServiceListResponse :=
  (* Verify WAN exists *)
  match get_wan db wan with
  | None => Raise (HTTPException HTTP_404 (DetailStr "WAN network not found"))
  | Some _ =>
      let matching :=
        List.filter
          (fun s => negb (truthy peer)
                    || String.eqb (service_peer_id s) (default "" peer))
          (flat_map published_services (get_wan_peers db wan)) in
      let services := page skip limit matching in
      let total := length matching in
      (* the frame at [wan_name = wan.name if wan else None] *)
      let frame : gmap string pyobj :=
        list_to_map (map (fun n => (n, PyObject))
                         ["wan_id"; "skip"; "limit"; "peer_id"; "db";
                          "wan_result"; "query"; "result"; "services";
                          "count_query"; "count_result"; "total"; "pihole"]) in
      match load_name frame list_services_locals services_globals "wan" with
      | Raise e => Raise e
      | Ok v =>
          let wan_name :=
            match v with
            | PyWan w => Some (wan_name w)
            | _ => None
            end in
          Ok {| slr_items :=
                  map (fun s =>
                         {| sr_service := s;
                            sr_hostname :=
                              if is_configured pihole
                              then Some (build_hostname pihole (service_name s)
                                           (service_id s) wan_name)
                              else None |})
                      services;
                slr_total := total |}
      end
  end.

End endpoints.

(** ** Concrete overlays for the end-to-end scenarios *)

Module scenarios.
Import models endpoints security.

(** S1: a WAN whose tunnel range has six hosts. *)
Definition s1_wan : WanNetwork :=
  {| wan_id := "wan-1"; wan_name := "lab";
     tunnel_ip_range := "10.0.0.0/29";
     shared_services_range := "10.0.5.0/24" |}.

Definition s1_db : Database :=
  {| wans := [s1_wan]; peers := []; jobs := [] |}.

(** S2: the default ranges. *)
Definition s2_wan : WanNetwork :=
  {| wan_id := "wan-2"; wan_name := "office";
     tunnel_ip_range := "10.0.0.0/24";
     shared_services_range := "10.0.5.0/24" |}.

Definition s2_db : Database :=
  {| wans := [s2_wan]; peers := []; jobs := [] |}.

(** A point-to-point WAN on a /31. *)
Definition p2p_wan : WanNetwork :=
  {| wan_id := "wan-3"; wan_name := "link";
     tunnel_ip_range := "10.0.0.0/31";
     shared_services_range := "10.0.5.0/24" |}.

Definition p2p_db : Database :=
  {| wans := [p2p_wan]; peers := []; jobs := [] |}.

(** A server peer request with the schema defaults. *)
Definition peer_request (name : string) (subnets : list SubnetInput)
  : PeerCreate :=
  {| pc_name := name; pc_type := SERVER; pc_endpoint := None;
     pc_listen_port := Some 51820; pc_persistent_keepalive := Some 25;
     pc_tags := [];
     pc_mikrotik_management_ip := None; pc_mikrotik_api_port := Some 8728;
     pc_mikrotik_username := None; pc_mikrotik_password := None;
     pc_mikrotik_api_token := None; pc_mikrotik_use_ssl := true;
     pc_mikrotik_verify_cert := false; pc_mikrotik_auto_deploy := false;
     pc_mikrotik_interface_name := Some "wg-wan-overlay";
     pc_local_subnets := subnets |}.

Definition entropy_for (name : string) : PeerEntropy toy_crypto :=
  {| new_peer_id := "peer-" +:+ name;
     new_subnet_id := fun i => "subnet-" +:+ name +:+ "-" +:+ pretty i;
     private_key := "private-" +:+ name;
     new_public_key := "public-" +:+ name;
     key_nonce := ("a"%char : nonce toy_crypto);
     password_nonce := ("b"%char : nonce toy_crypto);
     token_nonce := ("c"%char : nonce toy_crypto) |}.

(** Successive [create_peer] requests, one per name: the tunnel IP or the
    error of each, in order. *)
Fixpoint create_peers (db : Database) (wan : string) (names : list string)
  : list (result (option string)) :=
  match names with
  | [] => []
  | name :: rest =>
      match create_peer toy_crypto test_settings db wan
              (peer_request name []) (entropy_for name) with
      | (Ok p, db') => Ok (tunnel_ip p) :: create_peers db' wan rest
      | (Raise e, db') => Raise e :: create_peers db' wan rest
      end
  end.

(** A peer row with the column defaults. *)
Definition mk_peer (id wan name : string) (ptype : PeerType)
    (key tunnel ep : option string) (subnets : list LocalSubnet)
    (services : list PublishedService) : Peer :=
  {| peer_id := id; peer_wan_id := wan; peer_name := name;
     peer_type := ptype; public_key := key;
     private_key_encrypted := None; tunnel_ip := tunnel; endpoint := ep;
     listen_port := Some 51820; persistent_keepalive := Some 25;
     is_online := false; last_seen := None; tags := [];
     peer_metadata := ∅;
     mikrotik_management_ip := None; mikrotik_api_port := Some 8728;
     mikrotik_username := None; mikrotik_password_encrypted := None;
     mikrotik_api_token_encrypted := None; mikrotik_use_ssl := true;
     mikrotik_verify_cert := false; mikrotik_auto_deploy := false;
     mikrotik_interface_name := Some "wg-wan-overlay";
     mikrotik_last_api_check := None; mikrotik_api_status := Some UNKNOWN;
     local_subnets := subnets; published_services := services |}.

(** S3: peer A, and peer B with an endpoint and one routed subnet. *)
Definition s3_peer_a : Peer :=
  mk_peer "peer-a" "wan-2" "A" SERVER (Some "K_A") (Some "10.0.0.1") None [] [].

Definition s3_peer_b : Peer :=
  mk_peer "peer-b" "wan-2" "B" SERVER (Some "K_B") (Some "10.0.0.2")
    (Some "203.0.113.5:51820")
    [ {| subnet_id := "subnet-b"; cidr := "192.168.10.0/24";
         is_routed := true; nat_enabled := false;
         nat_translated_cidr := None; subnet_description := None |} ]
    [].

Definition s3_db : Database :=
  {| wans := [s2_wan]; peers := [s3_peer_a; s3_peer_b]; jobs := [] |}.

(** S3 after a request to [add_subnet] for peer B whose [cidr] holds two
    addresses in one text. *)
Definition unvalidated_cidr : string := "10.0.0.2/32, 10.0.5.0/24".

Definition s3_db_added : Database :=
  snd (endpoints.add_subnet s3_db "peer-b" unvalidated_cidr true None
         "subnet-x").

(** The text generated for peer A after that request, and what follows
    "AllowedIPs = " on that line of it. *)
Definition s3_added_text : string :=
  Eval vm_compute in
    match config_generator.generate_wireguard_config s3_db_added "peer-a"
            "PRIVATE" "now" with
    | Ok text => text
    | Raise _ => ""
    end.

Definition s3_added_allowed : string :=
  Eval vm_compute in
    match List.filter (String.prefix "AllowedIPs = ")
            (str_split config_generator.newline s3_added_text) with
    | line :: _ => String.substring 13 (String.length line - 13) line
    | [] => ""
    end.

Definition s3_lines : list string :=
  Eval vm_compute in
    match config_generator.wireguard_config_lines s3_db "peer-a" "PRIVATE" "now" with
    | Ok l => l
    | Raise _ => []
    end.

(** A router with three firewall rules: one made by the manager, one
    foreign rule whose comment mentions the manager's prefix in the
    middle, and one foreign rule that does not mention it. *)
Definition legacy_rule : resource :=
  list_to_map
    [(".id", "*1"); ("chain", "input"); ("action", "drop");
     ("comment", "legacy rule, kept next to WAN-Overlay-Manager: rules")].

Definition managed_rule : resource :=
  list_to_map
    [(".id", "*2"); ("chain", "input"); ("action", "accept");
     ("comment", "WAN-Overlay-Manager:allow-input-wan-peer-a")].

Definition office_rule : resource :=
  list_to_map
    [(".id", "*3"); ("chain", "forward"); ("action", "accept");
     ("comment", "office")].

Definition firewall_router : router.Router :=
  {| router.table := fun p =>
       match p with
       | router.FIREWALL_FILTER => [legacy_rule; managed_rule; office_rule]
       | _ => []
       end;
     router.next_id := 4 |}.

Definition empty_db : Database := {| wans := []; peers := []; jobs := [] |}.

(** [peer.mikrotik_management_ip = ip] *)
Definition with_management_ip (ip : string) (p : Peer) : Peer :=
  {| peer_id := peer_id p; peer_wan_id := peer_wan_id p;
     peer_name := peer_name p; peer_type := peer_type p;
     public_key := public_key p;
     private_key_encrypted := private_key_encrypted p;
     tunnel_ip := tunnel_ip p; endpoint := endpoint p;
     listen_port := listen_port p;
     persistent_keepalive := persistent_keepalive p;
     is_online := is_online p; last_seen := last_seen p; tags := tags p;
     peer_metadata := peer_metadata p;
     mikrotik_management_ip := Some ip;
     mikrotik_api_port := mikrotik_api_port p;
     mikrotik_username := mikrotik_username p;
     mikrotik_password_encrypted := mikrotik_password_encrypted p;
     mikrotik_api_token_encrypted := mikrotik_api_token_encrypted p;
     mikrotik_use_ssl := mikrotik_use_ssl p;
     mikrotik_verify_cert := mikrotik_verify_cert p;
     mikrotik_auto_deploy := mikrotik_auto_deploy p;
     mikrotik_interface_name := mikrotik_interface_name p;
     mikrotik_last_api_check := mikrotik_last_api_check p;
     mikrotik_api_status := mikrotik_api_status p;
     local_subnets := local_subnets p;
     published_services := published_services p |}.

(** The client of a router that is managed at 192.0.2.1. *)
Definition router_client : mikrotik_client.MikrotikAPIClient :=
  mikrotik_client.__init__ (Some "192.0.2.1") 8728 None None None true false.

(** A managed router peer, reached at 192.0.2.1, with a failed job and a
    running job. *)
Definition managed_peer : Peer :=
  with_management_ip "192.0.2.1"
    (mk_peer "peer-m" "wan-2" "M" MIKROTIK (Some "K_M") (Some "10.0.0.9")
       None [] []).

(** The same peer before its management address is set. *)
Definition unreachable_peer : Peer :=
  mk_peer "peer-m" "wan-2" "M" MIKROTIK (Some "K_M") (Some "10.0.0.9")
    None [] [].

Definition mk_job (id peer : string) (s : JobStatus) (progress : Z)
  : DeploymentJob :=
  {| job_id := id; job_peer_id := peer; job_type := DEPLOY_CONFIG;
     status := s; progress_percent := progress;
     started_at := None; completed_at := None; error_message := None;
     operations_log := []; backup_config := None; created_by_id := None |}.

Definition busy_db : Database :=
  {| wans := [s2_wan];
     peers := [managed_peer];
     jobs := [mk_job "job-0" "peer-m" FAILED 30;
              mk_job "job-1" "peer-m" RUNNING 50] |}.

(** S5: a router with one foreign firewall rule and one stale managed
    route, and a pending job for the managed peer. *)
Definition stale_route : resource :=
  list_to_map
    [(".id", "*7"); ("dst-address", "192.168.77.0/24");
     ("gateway", "wg-wan-overlay");
     ("comment", "WAN-Overlay-Manager:route-to-gone")].

Definition s5_router : router.Router :=
  {| router.table := fun p =>
       match p with
       | router.FIREWALL_FILTER => [office_rule]
       | router.IP_ROUTE => [stale_route]
       | _ => []
       end;
     router.next_id := 8 |}.

Definition s5_db : Database :=
  {| wans := [s2_wan];
     peers := [managed_peer; s3_peer_b];
     jobs := [mk_job "job-1" "peer-m" PENDING 0] |}.

(** S5 before the management address of the peer is set. *)
Definition unreachable_db : Database :=
  {| wans := [s2_wan];
     peers := [unreachable_peer; s3_peer_b];
     jobs := [mk_job "job-1" "peer-m" PENDING 0] |}.

(** The run of the worker for job-1 on S5 under the given failures and
    other requests. *)
Definition s5_run (fault : nat -> bool)
    (interference : nat -> Database -> Database)
  : result unit * runtime.World :=
  deployment._execute_deployment toy_crypto test_settings "job-1" "peer-m"
    (runtime.initial_world s5_router s5_db fault interference).

(** A deployment without Pi-hole settings. *)
Definition pihole_unset : PiHole :=
  {| is_configured := false;
     build_hostname := fun name id _ => name +:+ "." +:+ id |}.

End scenarios.

(** * Verification *)

(** ** Facts about the [ipaddress] fragment *)

Section IpaddressFacts.
Import ipaddress.

Lemma elem_of_zrange (a b x : Z) : x ∈ zrange a b ↔ a <= x < b.
Proof.
  unfold zrange. rewrite list_elem_of_fmap. split.
  - intros (i & -> & Hi). apply elem_of_seq in Hi. lia.
  - intros H. exists (Z.to_nat (x - a)). split; [lia|].
    apply elem_of_seq. lia.
Qed.

Lemma digit_value_range c d : digit_value c = Some d -> 0 <= d <= 9.
Proof.
  unfold digit_value. intros H.
  destruct (_ && _) eqn:E; [|done]. inversion H; subst.
  apply andb_true_iff in E as [E1 E2]. lia.
Qed.

Lemma int_of_digits_nonneg s :
  forall acc v, 0 <= acc -> int_of_digits acc s = Some v -> 0 <= v.
Proof.
  induction s as [|c s IH]; simpl; intros acc v Hacc H.
  - by inversion H; subst.
  - destruct (digit_value c) as [d|] eqn:E; [|done].
    apply digit_value_range in E. eapply IH; [|exact H]. lia.
Qed.

Lemma parse_decimal_nonneg s v : parse_decimal s = Some v -> 0 <= v.
Proof.
  unfold parse_decimal. destruct (String.eqb s ""); [done|].
  by apply int_of_digits_nonneg.
Qed.

Lemma parse_octet_range s v : parse_octet s = Some v -> 0 <= v <= 255.
Proof.
  unfold parse_octet. destruct (parse_decimal s) as [x|] eqn:E; [|done].
  apply parse_decimal_nonneg in E.
  destruct (_ <? _)%nat; [done|]. destruct (_ && _); [done|].
  destruct (Z.ltb_spec 255 x); [done|]. intros Hv; inversion Hv; subst. lia.
Qed.

Lemma ip_int_from_string_range s a :
  ip_int_from_string s = Some a -> 0 <= a < 2 ^ 32.
Proof.
  unfold ip_int_from_string.
  destruct (map parse_octet (split_on "." s))
    as [|[o1|] [|[o2|] [|[o3|] [|[o4|] [|]]]]] eqn:E; try done.
  intros H; inversion H; subst; clear H.
  assert (Hin : forall o, Some o ∈ map parse_octet (split_on "." s) ->
                          0 <= o <= 255).
  { intros o Ho. apply list_elem_of_fmap in Ho as (x & Hx & _).
    symmetry in Hx. by apply parse_octet_range in Hx. }
  rewrite E in Hin.
  assert (0 <= o1 <= 255) by (apply Hin; apply list_elem_of_here).
  assert (0 <= o2 <= 255)
    by (apply Hin; do 1 apply list_elem_of_further; apply list_elem_of_here).
  assert (0 <= o3 <= 255)
    by (apply Hin; do 2 apply list_elem_of_further; apply list_elem_of_here).
  assert (0 <= o4 <= 255)
    by (apply Hin; do 3 apply list_elem_of_further; apply list_elem_of_here).
  rewrite !Z.shiftl_mul_pow2 by lia. lia.
Qed.

Lemma prefix_from_ip_int_range m p :
  prefix_from_ip_int m = Some p -> 0 <= p <= 32.
Proof.
  unfold prefix_from_ip_int. intros H. apply find_some in H as [H _].
  apply list_elem_of_In, elem_of_zrange in H. unfold max_prefixlen in H. lia.
Qed.

Lemma make_netmask_range s p : make_netmask s = Some p -> 0 <= p <= 32.
Proof.
  unfold make_netmask, prefix_from_prefix_string, prefix_from_ip_string.
  destruct (parse_decimal s) as [q|] eqn:E.
  - apply parse_decimal_nonneg in E.
    destruct (Z.leb_spec q max_prefixlen) as [Hq|Hq].
    + intros H; inversion H; subst. unfold max_prefixlen in Hq. lia.
    + destruct (ip_int_from_string s) as [m|]; [|done].
      destruct (prefix_from_ip_int m) eqn:E1.
      * intros H; inversion H; subst. by eapply prefix_from_ip_int_range.
      * apply prefix_from_ip_int_range.
  - destruct (ip_int_from_string s) as [m|]; [|done].
    destruct (prefix_from_ip_int m) eqn:E1.
    + intros H; inversion H; subst. by eapply prefix_from_ip_int_range.
    + apply prefix_from_ip_int_range.
Qed.

(** Every parsed network is a masked address with a prefix of 0 to 32. *)
Lemma ip_network_inv s n :
  ip_network s = Some n ->
  exists addr p, n = network_of addr p /\ 0 <= addr < 2 ^ 32 /\ 0 <= p <= 32.
Proof.
  unfold ip_network.
  destruct (split_on "/" s) as [|a [|m [|]]]; try done.
  - destruct (ip_int_from_string a) as [addr|] eqn:Ea; [|done].
    intros H; inversion H; subst. exists addr, max_prefixlen.
    split; [done|]. split; [by eapply ip_int_from_string_range|].
    unfold max_prefixlen; lia.
  - destruct (ip_int_from_string a) as [addr|] eqn:Ea; [|done].
    destruct (make_netmask m) as [p|] eqn:Em; [|done].
    intros H; inversion H; subst. exists addr, p.
    split; [done|]. split; [by eapply ip_int_from_string_range|].
    by eapply make_netmask_range.
Qed.

Lemma ip_int_from_prefix_nonneg p : 0 <= ip_int_from_prefix p.
Proof.
  unfold ip_int_from_prefix. apply Z.lxor_nonneg.
  assert (0 <= ALL_ONES) by (unfold ALL_ONES; lia).
  assert (0 <= Z.shiftr ALL_ONES p) by (by apply Z.shiftr_nonneg).
  lia.
Qed.

Lemma network_address_nonneg addr p : 0 <= network_address (network_of addr p).
Proof.
  simpl. apply Z.land_nonneg. right. apply ip_int_from_prefix_nonneg.
Qed.

Lemma hostmask_nonneg n : 0 <= hostmask n.
Proof.
  unfold hostmask, netmask. apply Z.lxor_nonneg.
  pose proof (ip_int_from_prefix_nonneg (prefixlen n)).
  assert (0 <= ALL_ONES) by (unfold ALL_ONES; lia). lia.
Qed.

Lemma network_le_broadcast n :
  0 <= network_address n -> network_address n <= broadcast_address n.
Proof.
  intros Hn. unfold broadcast_address.
  pose proof (hostmask_nonneg n) as Hh.
  pose proof (Z.lor_nonneg (network_address n) (hostmask n)) as [_ Hlor].
  rewrite <- (Z.sub_nonneg). rewrite Z.sub_nocarry_ldiff.
  - apply Z.ldiff_nonneg. left. apply Hlor. lia.
  - apply Z.bits_inj'. intros k Hk.
    rewrite Z.ldiff_spec, Z.lor_spec, Z.bits_0.
    destruct (Z.testbit (network_address n) k); simpl; [|done].
    reflexivity.
Qed.

(** For a prefix of at most 30, the hosts are the addresses strictly
    between the network address and the broadcast address. *)
Lemma hosts_exclude_network_and_broadcast (n : IPv4Network) (a : Z) :
  prefixlen n <= 30 ->
  a ∈ hosts n <-> network_address n < a < broadcast_address n.
Proof.
  intros Hp. unfold hosts, max_prefixlen.
  destruct (Z.eqb_spec (prefixlen n) (32 - 1)); [lia|].
  destruct (Z.eqb_spec (prefixlen n) 32); [lia|].
  rewrite elem_of_zrange. lia.
Qed.

(** A /31 offers both of its addresses. *)
Lemma hosts_slash31 (n : IPv4Network) :
  prefixlen n = 31 -> 0 <= network_address n ->
  network_address n ∈ hosts n /\ broadcast_address n ∈ hosts n.
Proof.
  intros Hp Hn. unfold hosts, max_prefixlen. rewrite Hp. simpl.
  pose proof (network_le_broadcast n Hn).
  rewrite !elem_of_zrange. lia.
Qed.

End IpaddressFacts.

(** The text has a colon.  [ipaddress.ip_network] reads a text as an
    IPv4 network first and as an IPv6 network next; a text without a
    colon is never an IPv6 network, so on such a text it raises
    [ValueError] exactly when the IPv4 reading fails. *)
Definition has_colon (s : string) : bool := has_char ":"%char s.

(** ** Networks as ranges of addresses *)

Section NetworkRanges.
Import ipaddress.

(** The number of addresses of a network of prefix length [p]. *)
Definition block_size (p : Z) : Z := 2 ^ (32 - p).

Lemma block_size_pos p : 0 <= p <= 32 -> 0 < block_size p.
Proof. intros Hp. unfold block_size. apply Z.pow_pos_nonneg; lia. Qed.

Lemma prefix_masks :
  forallb
    (fun p =>
       (ip_int_from_prefix p =? 2 ^ 32 - block_size p)
       && (Z.lxor (ip_int_from_prefix p) ALL_ONES =? block_size p - 1))
    (zrange 0 33)
  = true.
Proof. vm_compute. reflexivity. Qed.

Lemma ip_int_from_prefix_value p :
  0 <= p <= 32 -> ip_int_from_prefix p = 2 ^ 32 - block_size p.
Proof.
  intros Hp. pose proof prefix_masks as H. rewrite forallb_forall in H.
  assert (Hin : In p (zrange 0 33))
    by (apply list_elem_of_In, elem_of_zrange; lia).
  apply H in Hin. apply andb_prop in Hin as [Hm _]. by apply Z.eqb_eq.
Qed.

Lemma hostmask_value n :
  0 <= prefixlen n <= 32 -> hostmask n = block_size (prefixlen n) - 1.
Proof.
  intros Hp. pose proof prefix_masks as H. rewrite forallb_forall in H.
  assert (Hin : In (prefixlen n) (zrange 0 33))
    by (apply list_elem_of_In, elem_of_zrange; lia).
  apply H in Hin. apply andb_prop in Hin as [_ Hm]. by apply Z.eqb_eq.
Qed.

(** Masking with the netmask clears the host bits. *)
Lemma land_netmask a p :
  0 <= a < 2 ^ 32 -> 0 <= p <= 32 ->
  Z.land a (ip_int_from_prefix p) = a - a mod block_size p.
Proof.
  intros Ha Hp. rewrite ip_int_from_prefix_value by done.
  unfold block_size. set (k := 32 - p). assert (Hk : 0 <= k <= 32) by lia.
  assert (E1 : 2 ^ 32 - 2 ^ k = Z.shiftl (Z.ones (32 - k)) k).
  { rewrite Z.shiftl_mul_pow2, Z.ones_equiv by lia.
    assert (H32 : 2 ^ 32 = 2 ^ (32 - k) * 2 ^ k)
      by (rewrite <- Z.pow_add_r by lia; f_equal; lia).
    rewrite H32. unfold Z.pred. ring. }
  assert (E2 : a - a mod 2 ^ k = Z.shiftl (Z.shiftr a k) k).
  { rewrite Z.shiftl_mul_pow2, Z.shiftr_div_pow2 by lia.
    pose proof (Z.div_mod a (2 ^ k)) as Hd.
    assert (2 ^ k <> 0) by (apply Z.pow_nonzero; lia). lia. }
  rewrite E1, E2. apply Z.bits_inj'. intros i Hi.
  rewrite Z.land_spec.
  destruct (Z.lt_ge_cases i k) as [Hik|Hik].
  - rewrite !Z.shiftl_spec_low by lia. apply andb_false_r.
  - rewrite !Z.shiftl_spec by lia. rewrite Z.shiftr_spec by lia.
    replace (i - k + k) with i by lia.
    destruct (Z.lt_ge_cases i 32) as [Hi32|Hi32].
    + rewrite Z.ones_spec_low by lia. apply andb_true_r.
    + rewrite Z.ones_spec_high by lia. rewrite andb_false_r.
      symmetry. apply Z.bits_above_log2; [lia|].
      destruct (Z.eq_dec a 0) as [->|Hne]; [simpl; lia|].
      assert (2 ^ 32 <= 2 ^ i) by (apply Z.pow_le_mono_r; lia).
      apply Z.log2_lt_pow2; lia.
Qed.


(** A network that [ip_network] makes. *)
Definition well_formed_net (n : IPv4Network) : Prop :=
  exists addr, n = network_of addr (prefixlen n)
               /\ 0 <= addr < 2 ^ 32 /\ 0 <= prefixlen n <= 32.

Lemma ip_network_well_formed s n : ip_network s = Some n -> well_formed_net n.
Proof.
  intros (addr & p & -> & Ha & Hp)%ip_network_inv. by exists addr.
Qed.

(** The addresses of a well-formed network are an aligned block. *)
Lemma network_block n :
  well_formed_net n ->
  0 <= network_address n
  /\ network_address n mod block_size (prefixlen n) = 0
  /\ broadcast_address n = network_address n + block_size (prefixlen n) - 1
  /\ broadcast_address n < 2 ^ 32.
Proof.
  intros (addr & Hn & Ha & Hp).
  pose proof (block_size_pos _ Hp) as Hb.
  set (bs := block_size (prefixlen n)) in *.
  assert (Hna : network_address n = addr - addr mod bs).
  { rewrite Hn at 1. simpl. by apply land_netmask. }
  pose proof (Z.mod_pos_bound addr bs Hb) as Hm.
  assert (Hd : addr = bs * (addr / bs) + addr mod bs)
    by (apply Z.div_mod; lia).
  assert (Hmul : network_address n = bs * (addr / bs)) by lia.
  assert (Hmod : network_address n mod bs = 0).
  { rewrite Hmul, Z.mul_comm. apply Z.mod_mul. lia. }
  assert (Hq : addr / bs < 2 ^ prefixlen n).
  { apply Z.div_lt_upper_bound; [lia|].
    unfold bs, block_size. rewrite <- Z.pow_add_r by lia.
    replace (32 - prefixlen n + prefixlen n) with 32 by lia. lia. }
  assert (H32 : bs * 2 ^ prefixlen n = 2 ^ 32).
  { unfold bs, block_size. rewrite <- Z.pow_add_r by lia. f_equal. lia. }
  assert (Hq0 : 0 <= addr / bs) by (apply Z.div_pos; lia).
  split; [nia|]. split; [exact Hmod|].
  assert (Hbc : broadcast_address n = network_address n + bs - 1).
  { unfold broadcast_address. rewrite hostmask_value by done. fold bs.
    rewrite <- Z.add_sub_assoc.
    assert (Hland : Z.land (network_address n) (bs - 1) = 0).
    { rewrite Hmul. unfold bs, block_size.
      rewrite Z.mul_comm, <- Z.shiftl_mul_pow2 by lia.
      replace (2 ^ (32 - prefixlen n) - 1) with (Z.ones (32 - prefixlen n))
        by (rewrite Z.ones_equiv; unfold Z.pred; lia).
      apply Z.bits_inj'. intros i Hi. rewrite Z.land_spec, Z.bits_0.
      destruct (Z.lt_ge_cases i (32 - prefixlen n)).
      - rewrite Z.shiftl_spec_low by lia. done.
      - rewrite Z.ones_spec_high by lia. apply andb_false_r. }
    rewrite <- (Z.lxor_lor _ _ Hland). symmetry.
    by apply Z.add_nocarry_lxor. }
  split; [exact Hbc|]. rewrite Hbc, Hmul. nia.
Qed.

(** [address in network]: the address lies in the block. *)
Lemma contains_range n a :
  well_formed_net n -> 0 <= a < 2 ^ 32 ->
  contains n a = true <-> network_address n <= a <= broadcast_address n.
Proof.
  intros Hwf Ha. pose proof Hwf as (addr & Hn & Haddr & Hp).
  destruct (network_block n Hwf) as (Hn0 & Hmod & Hbc & _).
  pose proof (block_size_pos _ Hp) as Hb.
  set (bs := block_size (prefixlen n)) in *.
  unfold contains, netmask. rewrite Z.eqb_eq, land_netmask by done. fold bs.
  pose proof (Z.mod_pos_bound a bs Hb) as Hm.
  assert (Hd : a = bs * (a / bs) + a mod bs) by (apply Z.div_mod; lia).
  apply Z.mod_divide in Hmod as [q Hq]; [|lia].
  rewrite Hbc. split.
  - intros E. lia.
  - intros Hr. assert (a / bs = q); [|nia].
    symmetry. apply (Z.div_unique a bs q (a - q * bs)); lia.
Qed.


(** Two networks overlap exactly when they share an address. *)
Lemma overlaps_share_address a b :
  well_formed_net a -> well_formed_net b ->
  overlaps a b = true <->
  exists x, 0 <= x < 2 ^ 32 /\ contains a x = true /\ contains b x = true.
Proof.
  intros Ha Hb.
  destruct (network_block a Ha) as (Ha0 & _ & Hab & Ha32).
  destruct (network_block b Hb) as (Hb0 & _ & Hbb & Hb32).
  pose proof (block_size_pos (prefixlen a)) as Hsa.
  pose proof (block_size_pos (prefixlen b)) as Hsb.
  assert (0 < block_size (prefixlen a)) by (destruct Ha as (? & _ & _ & ?); auto).
  assert (0 < block_size (prefixlen b)) by (destruct Hb as (? & _ & _ & ?); auto).
  assert (Hin : forall n x, well_formed_net n -> 0 <= x < 2 ^ 32 ->
                  contains n x = true <->
                  network_address n <= x <= broadcast_address n)
    by (intros; by apply contains_range).
  unfold overlaps. rewrite !orb_true_iff.
  rewrite !Hin by (done || lia). split.
  - intros [[[H1|H1]|H1]|H1].
    + exists (network_address a). rewrite !Hin by (done || lia). lia.
    + exists (broadcast_address a). rewrite !Hin by (done || lia). lia.
    + exists (network_address b). rewrite !Hin by (done || lia). lia.
    + exists (broadcast_address b). rewrite !Hin by (done || lia). lia.
  - intros (x & Hx & H1 & H2). rewrite !Hin in H1, H2 by done. lia.
Qed.

End NetworkRanges.


Section OverlapMeaning.
Import ipaddress conflict_detection.

Lemma overlaps_comm a b : overlaps a b = overlaps b a.
Proof.
  unfold overlaps.
  generalize (contains b (network_address a)) (contains b (broadcast_address a))
    (contains a (network_address b)) (contains a (broadcast_address b)).
  intros [] [] [] []; reflexivity.
Qed.

(** [subnets_overlap] is the intersection of the two address ranges.  For
    two texts without a colon (no IPv6 text): the answer is [True]
    exactly when both are IPv4 networks that share an address; a text
    that is no network gives [False]; and the answer does not depend on
    the order of the arguments. *)
Theorem subnets_overlap_iff_shared_address (cidr1 cidr2 : string) :
  has_colon cidr1 = false -> has_colon cidr2 = false ->
  (subnets_overlap cidr1 cidr2 = true <->
   exists n1 n2 x,
     ip_network cidr1 = Some n1 /\ ip_network cidr2 = Some n2
     /\ 0 <= x < 2 ^ 32 /\ contains n1 x = true /\ contains n2 x = true)
  /\ subnets_overlap cidr1 cidr2 = subnets_overlap cidr2 cidr1.
Proof.
  intros _ _. unfold subnets_overlap. split.
  - destruct (ip_network cidr1) as [n1|] eqn:E1.
    + destruct (ip_network cidr2) as [n2|] eqn:E2.
      * pose proof (overlaps_share_address n1 n2
                      (ip_network_well_formed _ _ E1)
                      (ip_network_well_formed _ _ E2)) as Hov.
        split.
        -- intros Ho. apply Hov in Ho as (x & Hx & H1 & H2).
           exists n1, n2, x. repeat (split; [assumption || reflexivity|]).
           assumption.
        -- intros (m1 & m2 & x & Hm1 & Hm2 & Hx & H1 & H2).
           injection Hm1 as <-. injection Hm2 as <-.
           apply Hov. exists x. split; [exact Hx|]. split; assumption.
      * split; [discriminate|].
        intros (m1 & m2 & x & _ & Hm2 & _). discriminate Hm2.
    + split; [discriminate|].
      intros (m1 & m2 & x & Hm1 & _). discriminate Hm1.
  - destruct (ip_network cidr1), (ip_network cidr2); try reflexivity.
    apply overlaps_comm.
Qed.

(** The /24 and the upper /25 inside it share 10.0.0.128. *)
Lemma subnets_overlap_iff_shared_address_witness :
  has_colon "10.0.0.0/24" = false /\ has_colon "10.0.0.128/25" = false
  /\ subnets_overlap "10.0.0.0/24" "10.0.0.128/25" = true
  /\ subnets_overlap "10.0.0.128/25" "10.0.0.0/24" = true.
Proof.
  split; [reflexivity|]. split; [reflexivity|].
  destruct (subnets_overlap_iff_shared_address "10.0.0.0/24" "10.0.0.128/25"
              eq_refl eq_refl) as [Hiff Hsym].
  assert (H : subnets_overlap "10.0.0.0/24" "10.0.0.128/25" = true).
  { apply Hiff. exists (mkNet 167772160 24), (mkNet 167772288 25), 167772288.
    repeat (apply conj); try reflexivity; lia. }
  split; [exact H|]. rewrite <- Hsym. exact H.
Defined.

End OverlapMeaning.


(** ** IP allocation *)

Section Allocation.
Import models ipaddress ip_allocation endpoints scenarios.

(** What the allocation loop returns, stated on the list it scans: the
    first entry that is not allocated, or nothing when all are. *)
Definition is_first_free (allocated : gset string) (usable : list string)
    (r : option string) : Prop :=
  match r with
  | Some ip =>
      exists i : nat,
        usable !! i = Some ip /\ (ip ∉ allocated)
        /\ (forall (j : nat) h,
              (j < i)%nat -> usable !! j = Some h -> h ∈ allocated)
  | None => forall h, h ∈ usable -> h ∈ allocated
  end.

Lemma first_free_spec allocated usable :
  is_first_free allocated usable (first_free allocated usable).
Proof.
  induction usable as [|ip rest IH]; simpl.
  - intros h Hh. inversion Hh.
  - case_bool_decide as Hip.
    + exists 0%nat. split; [done|]. split; [exact Hip|]. intros j h Hj. lia.
    + destruct (first_free allocated rest) as [ip'|] eqn:E; simpl in *.
      * destruct IH as (i & Hi & Hfree & Hbefore).
        exists (S i). split; [done|]. split; [exact Hfree|].
        intros [|j] h Hj Hl; simpl in Hl.
        -- inversion Hl; subst. exact Hip.
        -- apply (Hbefore j); [lia|done].
      * intros h Hh. apply elem_of_cons in Hh as [->|Hh]; [|by apply IH].
        exact Hip.
Qed.

Lemma first_free_None allocated usable :
  first_free allocated usable = None <->
  (forall h, h ∈ usable -> h ∈ allocated).
Proof.
  split.
  - intros E. pose proof (first_free_spec allocated usable) as H.
    rewrite E in H. exact H.
  - intros Hall. pose proof (first_free_spec allocated usable) as H.
    destruct (first_free allocated usable) as [ip|]; [|done].
    destruct H as (i & Hi & Hfree & _). exfalso. apply Hfree, Hall.
    by eapply list_elem_of_lookup_2.
Qed.

(** An exhausted tunnel pool surfaces as the 400 of [create_peer], and no
    peer is added. *)
Lemma create_peer_pool_exhausted c settings db wan w peer_in e :
  get_wan db wan = Some w ->
  check_critical_conflicts db wan peer_in = Ok tt ->
  allocate_tunnel_ip db wan (tunnel_ip_range w) = Ok None ->
  create_peer c settings db wan peer_in e
  = (Raise (HTTPException 400
              (DetailStr "No available tunnel IPs in the WAN network")), db).
Proof.
  intros Hw Hc Ha. unfold create_peer. rewrite Hw, Hc, Ha. reflexivity.
Qed.

(** C2, as the code has it.  For every pool text that parses and every
    database, both allocators return the first entry of [hosts()] that
    is not allocated, and [None] exactly when every entry is allocated;
    [hosts()] leaves out the network and the broadcast address when the
    prefix is at most 30, holds both addresses of a /31 and the one
    address of a /32.  An
    exhausted tunnel pool makes [create_peer] answer 400.  On the /29
    of scenario S1, seven creations give 10.0.0.1 to 10.0.0.6 and then
    the 400. *)
Theorem allocation_returns_first_free_host :
  (forall (db : Database) (wan cidr : string) (n : IPv4Network),
      ip_network cidr = Some n ->
      let usable := map str_address (hosts n) in
      (exists r, allocate_tunnel_ip db wan cidr = Ok r
         /\ is_first_free (get_allocated_tunnel_ips db wan) usable r
         /\ (r = None <->
             forall h, h ∈ usable -> h ∈ get_allocated_tunnel_ips db wan))
      /\ (exists r, allocate_shared_service_ip db wan cidr = Ok r
         /\ is_first_free (get_allocated_service_ips db wan) usable r
         /\ (r = None <->
             forall h, h ∈ usable -> h ∈ get_allocated_service_ips db wan))
      /\ (prefixlen n <= 30 ->
          forall a, a ∈ hosts n <->
                    network_address n < a < broadcast_address n)
      /\ (prefixlen n = 31 ->
          network_address n ∈ hosts n /\ broadcast_address n ∈ hosts n)
      /\ (prefixlen n = 32 -> hosts n = [network_address n]))
  /\ (forall c settings db wan w peer_in e,
        get_wan db wan = Some w ->
        check_critical_conflicts db wan peer_in = Ok tt ->
        allocate_tunnel_ip db wan (tunnel_ip_range w) = Ok None ->
        create_peer c settings db wan peer_in e
        = (Raise (HTTPException 400
                    (DetailStr "No available tunnel IPs in the WAN network")),
           db))
  /\ create_peers s1_db "wan-1" ["A"; "B"; "C"; "D"; "E"; "F"; "G"]
     = [Ok (Some "10.0.0.1"); Ok (Some "10.0.0.2"); Ok (Some "10.0.0.3");
        Ok (Some "10.0.0.4"); Ok (Some "10.0.0.5"); Ok (Some "10.0.0.6");
        Raise (HTTPException 400
                 (DetailStr "No available tunnel IPs in the WAN network"))].
Proof.
  split; [|split].
  - intros db wan cidr n Hn usable.
    unfold allocate_tunnel_ip, allocate_shared_service_ip, get_available_hosts.
    rewrite Hn. fold usable.
    split; [|split; [|split; [|split]]].
    + eexists. split; [reflexivity|]. split.
      * apply first_free_spec.
      * apply first_free_None.
    + eexists. split; [reflexivity|]. split.
      * apply first_free_spec.
      * apply first_free_None.
    + intros Hp a. by apply hosts_exclude_network_and_broadcast.
    + intros Hp. apply hosts_slash31; [done|].
      apply ip_network_inv in Hn as (addr & p & -> & _).
      apply network_address_nonneg.
    + intros Hp. unfold hosts. by rewrite Hp.
  - intros. by eapply create_peer_pool_exhausted.
  - vm_compute. reflexivity.
Qed.

(** The theorem at the pool of scenario S1 with nothing allocated. *)
Lemma allocation_returns_first_free_host_witness :
  ip_network "10.0.0.0/29" = Some (mkNet 167772160 29)
  /\ exists r, allocate_tunnel_ip s1_db "wan-1" "10.0.0.0/29" = Ok r
       /\ is_first_free (get_allocated_tunnel_ips s1_db "wan-1")
            (map str_address (hosts (mkNet 167772160 29))) r.
Proof.
  split; [reflexivity|].
  destruct (proj1 allocation_returns_first_free_host s1_db "wan-1"
              "10.0.0.0/29" (mkNet 167772160 29) eq_refl)
    as [(r & Hr & Hfirst & _) _].
  exists r. split; [exact Hr | exact Hfirst].
Defined.

(** C2 as stated fails on a /31 pool: with nothing allocated the
    allocator hands out 10.0.0.0, the network address of the pool. *)
Lemma allocation_hands_out_network_address_of_slash31 :
  exists n,
    ip_network "10.0.0.0/31" = Some n
    /\ allocate_tunnel_ip p2p_db "wan-3" "10.0.0.0/31"
       = Ok (Some (str_address (network_address n))).
Proof. exists (mkNet 167772160 31). split; vm_compute; reflexivity. Qed.

End Allocation.

(** ** The WireGuard text *)

(** *** Reading a joined text back *)

Section SplitJoin.



Lemma string_prefix_app (a b : string) :
  String.prefix a (a +:+ b) = true.
Proof.
  induction a as [|ch a IH].
  - by destruct b.
  - change (String.prefix (String ch a) (String ch (a +:+ b)) = true).
    cbn [String.prefix].
    destruct (ascii_dec ch ch); [exact IH | congruence].
Qed.






End SplitJoin.

Section WireguardConfig.
Import models config_generator.


Lemma elem_of_py_set x l : x ∈ py_set l <-> x ∈ l.
Proof. unfold py_set. rewrite elem_of_elements, elem_of_list_to_set. done. Qed.










End WireguardConfig.

Section WireguardConfigScenario.
Import models config_generator scenarios.


(** C3 on a subnet stored through [add_subnet].  The schema that
    [create_peer] runs on each subnet refuses the text
    "10.0.0.2/32, 10.0.5.0/24"; [add_subnet] takes it as it is and
    stores it as a routed subnet of peer B.  The text then generated for
    peer A has one [AllowedIPs] line; read back with [split(", ")] it
    has five entries, and both B's [tunnel_ip/32] and the WAN's
    [shared_services_range] stand in it twice.  (The numbers do not
    depend on the order in which the set is enumerated.) *)
Theorem allowed_ips_repeated_after_add_subnet :
  endpoints.validate_cidr unvalidated_cidr
  = Raise (ValueError
             ("Invalid CIDR notation: '10.0.0.2/32, 10.0.5.0/24' "
              +:+ "does not appear to be an IPv4 or IPv6 network"))
  /\ is_ok (fst (endpoints.add_subnet s3_db "peer-b" unvalidated_cidr true
                   None "subnet-x")) = true
  /\ option_map (fun p => map cidr (local_subnets p))
       (get_peer s3_db_added "peer-b")
     = Some ["192.168.10.0/24"; "10.0.0.2/32, 10.0.5.0/24"]
  /\ (tunnel_ip s3_peer_b = Some "10.0.0.2"
      /\ shared_services_range s2_wan = "10.0.5.0/24")
  /\ exists text allowed,
       generate_wireguard_config s3_db_added "peer-a" "PRIVATE" "now"
       = Ok text
       /\ List.filter (String.prefix "AllowedIPs = ") (str_split newline text)
          = ["AllowedIPs = " +:+ allowed]
       /\ length (str_split ", " allowed) = 5%nat
       /\ count_occ String.string_dec (str_split ", " allowed) "10.0.0.2/32"
          = 2%nat
       /\ count_occ String.string_dec (str_split ", " allowed) "10.0.5.0/24"
          = 2%nat.
Proof.
  split; [vm_compute; reflexivity|].
  split; [vm_compute; reflexivity|].
  split; [vm_compute; reflexivity|].
  split; [split; reflexivity|].
  exists s3_added_text, s3_added_allowed.
  repeat (apply conj); vm_compute; reflexivity.
Qed.

(** Scenario S3: the text for A has exactly one [[Peer]] block, that of
    B, and its [AllowedIPs] entries are the three expected ones. *)
Example s3_config_generation :
  flat_map (peer_block s3_peer_a s2_wan) [s3_peer_a; s3_peer_b]
  = peer_block s3_peer_a s2_wan s3_peer_b
  /\ "PublicKey = K_B" ∈ s3_lines
  /\ "Endpoint = 203.0.113.5:51820" ∈ s3_lines
  /\ forall x,
       x ∈ py_set (allowed_ips false "10.0.5.0/24" s3_peer_b)
       <-> x ∈ ["10.0.0.2/32"; "192.168.10.0/24"; "10.0.5.0/24"].
Proof.
  split; [reflexivity|]. split; [|split].
  - unfold s3_lines. do 11 apply list_elem_of_further. apply list_elem_of_here.
  - unfold s3_lines. do 12 apply list_elem_of_further. apply list_elem_of_here.
  - intros x. rewrite elem_of_py_set. reflexivity.
Qed.

End WireguardConfigScenario.

(** *** Adding a subnet *)

Section AddSubnet.
Import models endpoints scenarios.

Lemma get_peer_update_peer db peer f :
  (forall p, peer_id (f p) = peer_id p) ->
  get_peer (update_peer peer f db) peer = option_map f (get_peer db peer).
Proof.
  intros Hid. unfold get_peer, update_peer. simpl.
  induction (peers db) as [|p l IH]; simpl; [done|].
  destruct (String.eqb_spec (peer_id p) peer) as [E|E].
  - by rewrite Hid, E, String.eqb_refl.
  - apply String.eqb_neq in E. by rewrite E.
Qed.

(** [add_subnet] refuses nothing.  For a peer that exists and any text
    sent as [cidr] that fits the column (50 characters), a CIDR or not,
    in conflict or not, it answers with the stored row; the peer has gained a subnet whose [cidr] is that
    text, routed as asked and without NAT; the WANs and the jobs are as
    before. *)
Theorem add_subnet_stores_any_text
    (db : Database) (peer text : string) (routed : bool)
    (description : option string) (new_id : string) (p : Peer) :
  get_peer db peer = Some p ->
  (String.length text <= 50)%nat ->
  let subnet :=
    {| subnet_id := new_id; cidr := text; is_routed := routed;
       nat_enabled := false; nat_translated_cidr := None;
       subnet_description := description |} in
  let db' := snd (add_subnet db peer text routed description new_id) in
  (exists conflicts,
     fst (add_subnet db peer text routed description new_id)
     = Ok {| added_subnet := subnet; added_conflicts := conflicts |})
  /\ (exists p',
        get_peer db' peer = Some p'
        /\ local_subnets p' = local_subnets p ++ [subnet])
  /\ wans db' = wans db
  /\ jobs db' = jobs db.
Proof.
  intros Hp _ subnet db'. subst db'. unfold add_subnet. rewrite Hp.
  unfold conflict_detection.detect_conflicts. simpl.
  destruct (get_wan db (peer_wan_id p)) as [w|]; simpl.
  - split; [by eexists|]. split; [|done].
    rewrite get_peer_update_peer by done. rewrite Hp. simpl.
    by eexists.
  - split; [by eexists|]. split; [|done].
    rewrite get_peer_update_peer by done. rewrite Hp. simpl.
    by eexists.
Qed.

Lemma add_subnet_stores_any_text_witness :
  get_peer s3_db "peer-b" = Some s3_peer_b
  /\ (String.length unvalidated_cidr <= 50)%nat
  /\ is_ok (fst (add_subnet s3_db "peer-b" unvalidated_cidr true None
                   "subnet-x")) = true
  /\ exists p',
       get_peer s3_db_added "peer-b" = Some p'
       /\ map cidr (local_subnets p')
          = ["192.168.10.0/24"; "10.0.0.2/32, 10.0.5.0/24"].
Proof.
  split; [reflexivity|].
  assert (Hlen : (String.length unvalidated_cidr <= 50)%nat)
    by (vm_compute; lia).
  split; [exact Hlen|].
  destruct (add_subnet_stores_any_text s3_db "peer-b" unvalidated_cidr true
              None "subnet-x" s3_peer_b eq_refl Hlen)
    as ((conflicts & Hreply) & (p' & Hp' & Hsubnets) & _).
  split; [by rewrite Hreply|].
  exists p'. split; [exact Hp'|]. by rewrite Hsubnets.
Defined.

End AddSubnet.

(** *** Ownership of the desired state *)

Section DesiredStateOwnership.
Import models config_generator.

(** The resources of a desired state, family by family. *)
Definition all_resources (ds : DesiredState) : list resource :=
  ds_interface ds :: ds_peers ds ++ ds_ip_addresses ds ++ ds_routes ds
  ++ ds_firewall_rules ds ++ ds_nat_rules ds.

(** The resource carries a comment made of the prefix and a name. *)
Definition tagged (r : resource) : Prop :=
  exists name, r !! "comment" = Some (COMMENT_PREFIX +:+ name).

Lemma str_in_prefix a b : mikrotik_client.str_in a (a +:+ b) = true.
Proof.
  assert (H : forall h, String.prefix a h = true ->
                        mikrotik_client.str_in a h = true).
  { intros h Hp. destruct h; cbn [mikrotik_client.str_in]; by rewrite Hp. }
  apply H, string_prefix_app.
Qed.

(** A tagged resource is one that the apply worker deletes as its own
    and that the client's comment filter selects. *)
Lemma tagged_is_managed r :
  tagged r ->
  deployment.is_managed r = true
  /\ mikrotik_client.filter_comment (Some mikrotik_client.COMMENT_PREFIX) [r]
     = [r].
Proof.
  intros (name & Hc).
  assert (Hg : get_str r "comment" = COMMENT_PREFIX +:+ name)
    by (unfold get_str; rewrite Hc; reflexivity).
  split.
  - unfold deployment.is_managed. cbv zeta. rewrite Hg.
    change deployment.COMMENT_PREFIX with COMMENT_PREFIX.
    rewrite string_prefix_app, andb_true_r. reflexivity.
  - unfold mikrotik_client.filter_comment.
    change (truthy (Some mikrotik_client.COMMENT_PREFIX)) with true.
    change (default "" (Some mikrotik_client.COMMENT_PREFIX))
      with COMMENT_PREFIX.
    cbn [List.filter]. by rewrite Hg, str_in_prefix.
Qed.

Lemma tagged_insert k v r : k <> "comment" -> tagged r -> tagged (<[k := v]> r).
Proof.
  intros Hk (name & Hc). exists name. by rewrite lookup_insert_ne.
Qed.

Lemma desired_peer_tagged peer wan other :
  Forall tagged (desired_peer peer wan other).
Proof.
  unfold desired_peer.
  destruct (String.eqb (peer_id other) (peer_id peer)
            || negb (truthy (public_key other))); [constructor|].
  cbv zeta.
  assert (Hbase : forall a b c d,
            tagged (list_to_map
                      [("interface", a); ("public-key", b);
                       ("allowed-address", c); ("persistent-keepalive", d);
                       ("comment", COMMENT_PREFIX +:+ "peer-" +:+ peer_id other)])).
  { intros. by exists ("peer-" +:+ peer_id other). }
  destruct (truthy (endpoint other)); repeat constructor.
  - apply tagged_insert; [done|]. apply tagged_insert; [done|]. apply Hbase.
  - apply Hbase.
Qed.

Lemma desired_routes_tagged peer wan all_peers :
  Forall tagged (desired_routes peer wan all_peers).
Proof.
  unfold desired_routes. apply Forall_app. split.
  - apply Forall_flat_map, Forall_forall. intros other _.
    destruct (String.eqb (peer_id other) (peer_id peer)); [constructor|].
    apply Forall_flat_map, Forall_forall. intros s _.
    destruct (is_routed s); repeat constructor.
    by exists ("route-to-" +:+ peer_id other).
  - repeat constructor. by exists ("route-shared-services-" +:+ peer_id peer).
Qed.

Lemma desired_nat_rules_tagged peer : Forall tagged (desired_nat_rules peer).
Proof.
  unfold desired_nat_rules.
  apply Forall_flat_map, Forall_forall. intros service _.
  destruct (is_active service); [|constructor].
  apply Forall_fmap, Forall_forall. intros proto _. simpl.
  assert (Hbase : tagged (list_to_map
            [("chain", "dstnat"); ("dst-address", shared_ip service);
             ("protocol", proto); ("action", "dst-nat");
             ("to-addresses", local_ip service);
             ("comment", COMMENT_PREFIX +:+ "service-"
                         +:+ service_id service)]))
    by (by exists ("service-" +:+ service_id service)).
  destruct (0 <? local_port service), (0 <? shared_port service);
    repeat (apply tagged_insert; [done|]); exact Hbase.
Qed.

(** Every resource of the desired state of a MikroTik peer carries the
    ownership prefix at the head of its comment: the apply worker will
    treat it as managed, and the comment filter of
    [get_managed_resources] and [remove_managed_resources] selects it. *)
Theorem desired_state_is_owned
    (db : Database) (peer private_key : string) (ds : DesiredState) :
  get_mikrotik_desired_state db peer private_key = Ok ds ->
  Forall
    (fun r =>
       tagged r
       /\ deployment.is_managed r = true
       /\ mikrotik_client.filter_comment
            (Some mikrotik_client.COMMENT_PREFIX) [r] = [r])
    (all_resources ds).
Proof.
  intros Hds.
  assert (Htag : Forall tagged (all_resources ds)).
  { unfold get_mikrotik_desired_state in Hds.
    destruct (get_peer db peer) as [p|]; [|discriminate].
    destruct (get_wan db (peer_wan_id p)) as [wan|]; [|discriminate].
    apply (f_equal (fun r => match r with Ok d => d | Raise _ => ds end))
      in Hds.
    cbv beta iota in Hds. subst ds. unfold all_resources.
    cbn [ds_interface ds_peers ds_ip_addresses ds_routes ds_firewall_rules
         ds_nat_rules].
    constructor; [by exists ("peer-" +:+ peer_id p)|].
    apply Forall_app. split.
    { apply Forall_flat_map, Forall_forall. intros other _.
      apply desired_peer_tagged. }
    apply Forall_app. split.
    { repeat constructor. by exists ("peer-" +:+ peer_id p). }
    apply Forall_app. split; [apply desired_routes_tagged|].
    apply Forall_app. split; [|apply desired_nat_rules_tagged].
    repeat constructor.
    - by exists ("allow-input-wan-" +:+ peer_id p).
    - by exists ("allow-from-wan-" +:+ peer_id p).
    - by exists ("allow-to-wan-" +:+ peer_id p). }
  eapply Forall_impl; [exact Htag|].
  intros r Hr. split; [exact Hr|]. by apply tagged_is_managed.
Qed.

(** The desired state of the managed peer of scenario S5. *)
Lemma desired_state_is_owned_witness :
  exists ds,
    get_mikrotik_desired_state scenarios.s5_db "peer-m" "" = Ok ds
    /\ Forall (fun r => deployment.is_managed r = true) (all_resources ds)
    /\ length (all_resources ds) = 8%nat.
Proof.
  eexists. split; [reflexivity|]. split; [|vm_compute; reflexivity].
  eapply Forall_impl;
    [apply (desired_state_is_owned scenarios.s5_db "peer-m" "" _ eq_refl)|].
  by intros r (_ & H & _).
Defined.

End DesiredStateOwnership.

(** ** The secret envelope *)

Section Envelope.
Import security.

Lemma prefix_app a b : String.prefix a (a +:+ b) = true.
Proof.
  induction a as [|ch a IH]; simpl.
  - by destruct b.
  - destruct (ascii_dec ch ch); [exact IH | congruence].
Qed.

Lemma prefix_inv a t : String.prefix a t = true -> exists b, t = a +:+ b.
Proof.
  revert t. induction a as [|ch a IH]; intros t H.
  - by exists t.
  - destruct t as [|ch' t]; simpl in H; [discriminate|].
    destruct (ascii_dec ch ch') as [->|]; [|discriminate].
    destruct (IH t H) as (b & ->). by exists b.
Qed.

Lemma length_app_string a b :
  String.length (a +:+ b) = (String.length a + String.length b)%nat.
Proof. induction a as [|ch a IH]; simpl; [done|]. by rewrite IH. Qed.

Lemma substring_app_tail a b :
  String.substring (String.length a) (String.length b) (a +:+ b) = b.
Proof.
  induction a as [|ch a IH]; simpl; [|exact IH].
  induction b as [|ch b IHb]; simpl; [done|]. f_equal. exact IHb.
Qed.

Lemma app_string_inj a b1 b2 : a +:+ b1 = a +:+ b2 -> b1 = b2.
Proof.
  induction a as [|ch a IH]; simpl; [done|].
  intros H. injection H as H. by apply IH.
Qed.

Lemma toy_header_length : String.length toy_header = 99%nat.
Proof. reflexivity. Qed.

Lemma toy_decrypt_token r m : toy_decrypt (toy_header +:+ String r m) = Some m.
Proof.
  unfold toy_decrypt. rewrite prefix_app, length_app_string, toy_header_length.
  replace (99 + String.length (String r m) - 99)%nat
    with (String.length (String r m)) by lia.
  rewrite <- toy_header_length at 1. by rewrite substring_app_tail.
Qed.

Lemma toy_decrypt_short t :
  (String.length t < 100)%nat -> toy_decrypt t = None.
Proof.
  intros Hlen. unfold toy_decrypt.
  destruct (String.prefix toy_header t) eqn:E; [|done].
  apply prefix_inv in E as (b & ->).
  rewrite length_app_string, toy_header_length in *.
  destruct b as [|ch b]; simpl in Hlen; [|lia].
  replace (99 + String.length "" - 99)%nat with (String.length "") by (simpl; lia).
  rewrite <- toy_header_length at 1. by rewrite substring_app_tail.
Qed.

(** The small envelope meets Fernet's contract. *)
Lemma toy_crypto_laws : CryptoLaws toy_crypto.
Proof.
  split; cbn [fernet_encrypt fernet_decrypt toy_crypto nonce].
  - intros _ r m. apply toy_decrypt_token.
  - intros _ r m. rewrite length_app_string, toy_header_length. simpl. lia.
  - intros _ t. apply toy_decrypt_short.
  - intros _ r1 r2 m H. apply app_string_inj in H. by injection H.
Qed.

Lemma get_fernet_configured c settings :
  validate_encryption_config settings = Ok tt ->
  exists f, get_fernet c settings = Ok f.
Proof.
  intros H. unfold get_fernet, get_encryption_key. rewrite H. eauto.
Qed.

Lemma token_not_empty c (L : CryptoLaws c) k r m : fernet_encrypt c k r m <> "".
Proof.
  intros E. pose proof (fernet_token_length c L k r m) as H.
  rewrite E in H. simpl in H. lia.
Qed.

(** Decryption undoes encryption. *)
Lemma decrypt_encrypt_value c (L : CryptoLaws c) settings r x :
  validate_encryption_config settings = Ok tt ->
  exists t, encrypt_value c settings r x = Ok t
            /\ decrypt_value c settings t = Ok x.
Proof.
  intros Hcfg. destruct (get_fernet_configured c settings Hcfg) as (f & Hf).
  unfold encrypt_value, decrypt_value.
  destruct (String.eqb_spec x "") as [->|Hx].
  - exists "". done.
  - rewrite Hf. eexists. split; [reflexivity|].
    destruct (String.eqb_spec (fernet_encrypt c f r x) "") as [E|_].
    + by apply token_not_empty in E.
    + by rewrite (fernet_roundtrip c L).
Qed.

(** Text that is not a token does not decrypt. *)
Lemma decrypt_value_rejects_short c (L : CryptoLaws c) settings x :
  validate_encryption_config settings = Ok tt ->
  x <> "" -> (String.length x < 100)%nat ->
  decrypt_value c settings x = Raise InvalidToken.
Proof.
  intros Hcfg Hx Hlen.
  destruct (get_fernet_configured c settings Hcfg) as (f & Hf).
  unfold decrypt_value. apply String.eqb_neq in Hx. rewrite Hx, Hf.
  by rewrite (fernet_rejects_short c L).
Qed.

(** Encrypting the same text again gives another token. *)
Lemma reencryption_gives_fresh_token c (L : CryptoLaws c) settings r r' m :
  validate_encryption_config settings = Ok tt ->
  m <> "" -> r <> r' ->
  encrypt_value c settings r m <> encrypt_value c settings r' m.
Proof.
  intros Hcfg Hm Hr.
  destruct (get_fernet_configured c settings Hcfg) as (f & Hf).
  unfold encrypt_value. apply String.eqb_neq in Hm. rewrite Hm, Hf.
  intros E. injection E as E. by apply (fernet_nonce_inj c L) in E.
Qed.

(** What [decrypt_value] does on non-empty text is what Fernet does
    with it under the derived key. *)
Lemma decrypt_value_nonempty c settings f x :
  x <> "" -> get_fernet c settings = Ok f ->
  decrypt_value c settings x
  = match fernet_decrypt c f x with
    | Some m => Ok m
    | None => Raise InvalidToken
    end.
Proof.
  intros Hx Hf. unfold decrypt_value. apply String.eqb_neq in Hx.
  by rewrite Hx, Hf.
Qed.

(** C4, as the code has it.  Both functions map the empty string to
    itself.  With the key and the salt configured and any envelope that
    meets Fernet's contract: [decrypt_value(encrypt_value(x)) = x] for
    every [x]; [decrypt_value] raises [InvalidToken] on every non-empty
    text that Fernet rejects under the derived key, and every non-empty
    text shorter than 100 characters is such a text; when
    [decrypt_value(t)] gives [m], [encrypt_value(m)] decrypts to [m]
    again; it is the empty string when [m] is empty, so it differs from
    a non-empty [t]; and when [m] is not empty it is the token that
    Fernet makes with the nonce drawn, a different one for every
    different nonce, so it is [t] for at most one nonce. *)
Theorem envelope_round_trip :
  (forall c settings r,
      encrypt_value c settings r "" = Ok ""
      /\ decrypt_value c settings "" = Ok "")
  /\ (forall c, CryptoLaws c -> forall settings,
        validate_encryption_config settings = Ok tt ->
        (forall r x,
            exists t, encrypt_value c settings r x = Ok t
                      /\ decrypt_value c settings t = Ok x)
        /\ (forall x f,
              x <> "" -> get_fernet c settings = Ok f ->
              fernet_decrypt c f x = None ->
              decrypt_value c settings x = Raise InvalidToken)
        /\ (forall x,
              x <> "" -> (String.length x < 100)%nat ->
              decrypt_value c settings x = Raise InvalidToken)
        /\ (forall t m r,
              decrypt_value c settings t = Ok m ->
              exists t', encrypt_value c settings r m = Ok t'
                         /\ decrypt_value c settings t' = Ok m)
        /\ (forall t r,
              t <> "" -> decrypt_value c settings t = Ok "" ->
              encrypt_value c settings r "" = Ok ""
              /\ encrypt_value c settings r "" <> Ok t)
        /\ (forall m r f,
              m <> "" -> get_fernet c settings = Ok f ->
              encrypt_value c settings r m = Ok (fernet_encrypt c f r m))
        /\ (forall m r r',
              m <> "" -> r <> r' ->
              encrypt_value c settings r m <> encrypt_value c settings r' m)
        /\ (forall t m r r',
              m <> "" ->
              encrypt_value c settings r m = Ok t ->
              encrypt_value c settings r' m = Ok t -> r = r')).
Proof.
  split.
  - intros c settings r. split; reflexivity.
  - intros c L settings Hcfg.
    split; [|split; [|split; [|split; [|split; [|split; [|split]]]]]].
    + intros r x. by apply decrypt_encrypt_value.
    + intros x f Hx Hf Hd.
      by rewrite (decrypt_value_nonempty c settings f x Hx Hf), Hd.
    + intros x Hx Hlen. by apply decrypt_value_rejects_short.
    + intros t m r _. by apply decrypt_encrypt_value.
    + intros t r Ht _. split; [reflexivity|].
      intros E. injection E as E. by apply Ht.
    + intros m r f Hm Hf. unfold encrypt_value.
      apply String.eqb_neq in Hm. by rewrite Hm, Hf.
    + intros m r r' Hm Hr. by apply reencryption_gives_fresh_token.
    + intros t m r r' Hm E1 E2.
      destruct (get_fernet_configured c settings Hcfg) as (f & Hf).
      unfold encrypt_value in E1, E2. apply String.eqb_neq in Hm.
      rewrite Hm, Hf in E1, E2.
      injection E1 as E1. injection E2 as E2.
      apply (fernet_nonce_inj c L f r r' m). congruence.
Qed.

(** The theorem at the small envelope and the text ["secret"]. *)
Lemma envelope_round_trip_witness :
  validate_encryption_config test_settings = Ok tt
  /\ exists t,
       encrypt_value toy_crypto test_settings ("n"%char : nonce toy_crypto)
         "secret" = Ok t
       /\ decrypt_value toy_crypto test_settings t = Ok "secret".
Proof.
  split; [reflexivity|].
  apply (proj1 (proj2 envelope_round_trip toy_crypto toy_crypto_laws
                  test_settings eq_refl)).
Defined.

(** A token of the empty plaintext: it decrypts to the empty string,
    which [encrypt_value] returns as it is. *)
Example token_of_empty_plaintext :
  let t := fernet_encrypt toy_crypto "ks" ("n"%char : nonce toy_crypto) "" in
  decrypt_value toy_crypto test_settings t = Ok ""
  /\ encrypt_value toy_crypto test_settings ("n"%char : nonce toy_crypto) ""
     = Ok ""
  /\ t <> "".
Proof. repeat (apply conj); [reflexivity | reflexivity | discriminate]. Qed.

(** C4 as stated fails in the direction encrypt-after-decrypt: no
    envelope that meets Fernet's contract satisfies
    [encrypt_value(decrypt_value(x)) = x] for every non-empty [x],
    because [decrypt_value "hello"] raises. *)
Lemma encrypt_after_decrypt_is_not_identity :
  ~ (forall c, CryptoLaws c -> forall settings (r : nonce c) x,
        validate_encryption_config settings = Ok tt ->
        x <> "" ->
        exists m, decrypt_value c settings x = Ok m
                  /\ encrypt_value c settings r m = Ok x).
Proof.
  intros H.
  destruct (H toy_crypto toy_crypto_laws test_settings
              ("n"%char : nonce toy_crypto) "hello" eq_refl)
    as (m & Hm & _); [discriminate|].
  vm_compute in Hm. discriminate.
Qed.

End Envelope.

(** ** Conflict detection *)

Section Conflicts.
Import models conflict_detection endpoints scenarios.

(** The conflict that [detect_conflicts] appends for an overlap with the
    tunnel range. *)
Definition tunnel_conflict (w : WanNetwork) (s : string) : SubnetConflict :=
  {| subnet := s;
     conflict_type := "tunnel_ip_overlap";
     severity := CRITICAL;
     conflicting_with := "WAN Tunnel Network";
     conflicting_subnet := tunnel_ip_range w;
     description := "Subnet " +:+ s
       +:+ " overlaps with WAN tunnel IP range " +:+ tunnel_ip_range w;
     suggested_resolutions := [DONT_ROUTE; USE_NAT; CHANGE_SUBNET] |}.

Lemma elem_of_flat_map {A B} (f : A -> list B) (l : list A) (y : B) :
  y ∈ flat_map f l <-> exists x, x ∈ l /\ y ∈ f x.
Proof.
  rewrite list_elem_of_In, in_flat_map. split.
  - intros (x & Hx & Hy). exists x. by rewrite !list_elem_of_In.
  - intros (x & Hx & Hy). exists x. by rewrite <- !list_elem_of_In.
Qed.

Lemma elem_of_filter_list {A} (f : A -> bool) (l : list A) (x : A) :
  x ∈ List.filter f l <-> x ∈ l /\ f x = true.
Proof. by rewrite !list_elem_of_In, filter_In. Qed.

Lemma tunnel_conflict_emitted w s :
  subnets_overlap s (tunnel_ip_range w) = true ->
  tunnel_conflicts w s = [tunnel_conflict w s].
Proof. intros H. unfold tunnel_conflicts. by rewrite H. Qed.

Lemma detect_conflicts_no_routes db wan peer subnets w :
  get_wan db wan = Some w ->
  detect_conflicts db wan peer subnets None
  = Ok (flat_map
          (fun s =>
             tunnel_conflicts w s ++ shared_conflicts w s
             ++ peer_conflicts (get_wan_peers db wan) peer s
             ++ route_conflicts [] s)
          subnets).
Proof. intros Hw. unfold detect_conflicts. simpl. by rewrite Hw. Qed.

Lemma detect_conflicts_tunnel_overlap db wan peer subnets routes conflicts w s :
  detect_conflicts db wan peer subnets routes = Ok conflicts ->
  get_wan db wan = Some w ->
  s ∈ subnets ->
  subnets_overlap s (tunnel_ip_range w) = true ->
  tunnel_conflict w s ∈ conflicts.
Proof.
  intros Hd Hw Hs Hov. unfold detect_conflicts in Hd.
  destruct (parse_routes (default [] routes)) as [nets|]; [|done].
  rewrite Hw in Hd. injection Hd as <-.
  apply elem_of_flat_map. exists s. split; [done|].
  rewrite (tunnel_conflict_emitted w s Hov).
  apply elem_of_app. left. apply list_elem_of_here.
Qed.

(** A declared subnet that overlaps the tunnel range stops [create_peer]
    with the 400 that carries the conflicts; the database is unchanged. *)
Lemma create_peer_critical_conflict c settings db wan w peer_in e s :
  get_wan db wan = Some w ->
  s ∈ pc_local_subnets peer_in ->
  subnets_overlap (si_cidr s) (tunnel_ip_range w) = true ->
  exists conflicts,
    create_peer c settings db wan peer_in e
    = (Raise (HTTPException 400
                (DetailConflicts "Critical subnet conflicts detected" conflicts)),
       db)
    /\ (si_cidr s, description (tunnel_conflict w (si_cidr s))) ∈ conflicts.
Proof.
  intros Hw Hs Hov.
  assert (Hin : tunnel_conflict w (si_cidr s)
                ∈ List.filter
                    (fun x => String.eqb (severity_value (severity x)) "critical")
                    (flat_map
                       (fun s =>
                          tunnel_conflicts w s ++ shared_conflicts w s
                          ++ peer_conflicts (get_wan_peers db wan) "" s
                          ++ route_conflicts [] s)
                       (map si_cidr (pc_local_subnets peer_in)))).
  { apply elem_of_filter_list. split; [|reflexivity].
    apply elem_of_flat_map. exists (si_cidr s). split.
    - apply list_elem_of_fmap. by exists s.
    - rewrite (tunnel_conflict_emitted w _ Hov).
      apply elem_of_app. left. apply list_elem_of_here. }
  unfold create_peer, check_critical_conflicts. rewrite Hw.
  destruct (pc_local_subnets peer_in) as [|s0 rest] eqn:Hsub.
  { inversion Hs. }
  rewrite (detect_conflicts_no_routes db wan "" _ w Hw).
  destruct (List.filter _ _) as [|c0 critical] eqn:Hcrit.
  { inversion Hin. }
  eexists. split; [reflexivity|].
  apply list_elem_of_fmap. exists (tunnel_conflict w (si_cidr s)).
  split; [reflexivity | exact Hin].
Qed.

(** C5.  When the WAN exists, every candidate subnet that overlaps the
    WAN's tunnel range gets a conflict of type [tunnel_ip_overlap] with
    severity critical and the resolutions [dont_route], [use_nat],
    [change_subnet]; and [create_peer] with such a declared subnet answers
    400 with the structured conflicts array and leaves the database as
    it was.  On scenario S2 the 400 carries exactly one conflict. *)
Theorem tunnel_overlap_is_critical :
  (forall db wan peer subnets routes conflicts w s,
      detect_conflicts db wan peer subnets routes = Ok conflicts ->
      get_wan db wan = Some w ->
      s ∈ subnets ->
      subnets_overlap s (tunnel_ip_range w) = true ->
      exists x,
        x ∈ conflicts /\ subnet x = s
        /\ severity x = CRITICAL
        /\ conflict_type x = "tunnel_ip_overlap"
        /\ conflicting_subnet x = tunnel_ip_range w
        /\ suggested_resolutions x = [DONT_ROUTE; USE_NAT; CHANGE_SUBNET])
  /\ (forall c settings db wan w peer_in e s,
        get_wan db wan = Some w ->
        s ∈ pc_local_subnets peer_in ->
        subnets_overlap (si_cidr s) (tunnel_ip_range w) = true ->
        exists conflicts,
          create_peer c settings db wan peer_in e
          = (Raise (HTTPException 400
                      (DetailConflicts "Critical subnet conflicts detected"
                         conflicts)),
             db)
          /\ (si_cidr s, description (tunnel_conflict w (si_cidr s)))
             ∈ conflicts)
  /\ (detect_conflicts s2_db "wan-2" "" ["10.0.0.0/24"] None
      = Ok [tunnel_conflict s2_wan "10.0.0.0/24"]
      /\ create_peer security.toy_crypto security.test_settings s2_db "wan-2"
           (peer_request "A" [ {| si_cidr := "10.0.0.0/24";
                                  si_is_routed := true;
                                  si_description := None |} ])
           (entropy_for "A")
         = (Raise (HTTPException 400
                     (DetailConflicts "Critical subnet conflicts detected"
                        [("10.0.0.0/24",
                          "Subnet 10.0.0.0/24 overlaps with WAN tunnel IP range 10.0.0.0/24")])),
            s2_db)).
Proof.
  split; [|split].
  - intros db wan peer subnets routes conflicts w s Hd Hw Hs Hov.
    exists (tunnel_conflict w s).
    split; [by eapply detect_conflicts_tunnel_overlap|].
    repeat split.
  - intros. by eapply create_peer_critical_conflict.
  - split; vm_compute; reflexivity.
Qed.

(** The theorem on scenario S2. *)
Lemma tunnel_overlap_is_critical_witness :
  detect_conflicts s2_db "wan-2" "" ["10.0.0.0/24"] None
  = Ok [tunnel_conflict s2_wan "10.0.0.0/24"]
  /\ subnets_overlap "10.0.0.0/24" (tunnel_ip_range s2_wan) = true
  /\ exists x,
       x ∈ [tunnel_conflict s2_wan "10.0.0.0/24"]
       /\ severity x = CRITICAL
       /\ suggested_resolutions x = [DONT_ROUTE; USE_NAT; CHANGE_SUBNET].
Proof.
  split; [vm_compute; reflexivity|]. split; [vm_compute; reflexivity|].
  destruct (proj1 tunnel_overlap_is_critical s2_db "wan-2" "" ["10.0.0.0/24"]
              None [tunnel_conflict s2_wan "10.0.0.0/24"] s2_wan "10.0.0.0/24")
    as (x & Hx & _ & Hsev & _ & _ & Hres).
  - vm_compute; reflexivity.
  - reflexivity.
  - apply list_elem_of_here.
  - vm_compute; reflexivity.
  - exists x. split; [exact Hx|]. split; [exact Hsev | exact Hres].
Defined.

End Conflicts.

(** ** The NAT translation subnet *)

Section NatSubnet.
Import ipaddress conflict_detection.

(** [r] lies in the private range [range]: it parses to a network that is
    a subnet of it. *)
Definition lies_in (r range : string) : bool :=
  match ip_network r, ip_network range with
  | Some a, Some b => subnet_of a b
  | _, _ => false
  end.

(** C6 at a /8.  For the conflicting subnet 10.0.0.0/8 and no existing
    subnets, [find_available_nat_subnet] returns 172.0.0.0/8: the first
    candidate text 172.16.0.0/8 loses its host bits when it is parsed.
    The result has the prefix length of the conflicting subnet, and it
    lies neither in 172.16.0.0/12 nor in 192.168.0.0/16. *)
Theorem nat_subnet_leaves_private_ranges :
  find_available_nat_subnet "10.0.0.0/8" [] = Ok (Some "172.0.0.0/8")
  /\ candidate_172 8 16 = "172.16.0.0/8"
  /\ option_map str_network (ip_network "172.16.0.0/8") = Some "172.0.0.0/8"
  /\ lies_in "172.0.0.0/8" "172.16.0.0/12" = false
  /\ lies_in "172.0.0.0/8" "192.168.0.0/16" = false.
Proof. repeat (apply conj); vm_compute; reflexivity. Qed.

End NatSubnet.

(** ** The search of the NAT translation subnet *)

Section NatSubnetSearch.
Import ipaddress conflict_detection.















End NatSubnetSearch.

(** ** Clearing the managed resources *)

Section Clear.
Import router runtime mikrotik_client scenarios.

(** C7 on a router with a foreign rule that mentions the prefix.  The
    comment of [legacy_rule] does not begin with the ownership prefix, so
    the rule is foreign; [remove_managed_resources] selects by
    [comment_filter], a substring test, and deletes it together with the
    managed rule.  Only the rule that does not mention the prefix stays. *)
Theorem remove_managed_resources_deletes_foreign_rule :
  (get_str legacy_rule ".id" = "*1"
   /\ String.prefix COMMENT_PREFIX (get_str legacy_rule "comment") = false
   /\ str_in COMMENT_PREFIX (get_str legacy_rule "comment") = true)
  /\ map (fun r => get_str r ".id") (table firewall_router FIREWALL_FILTER)
     = ["*1"; "*2"; "*3"]
  /\ fst (remove_managed_resources router_client
            (initial_world firewall_router empty_db no_fault no_interference))
     = Ok tt
  /\ map (fun r => get_str r ".id")
       (table
          (w_router
             (snd (remove_managed_resources router_client
                     (initial_world firewall_router empty_db no_fault
                        no_interference))))
          FIREWALL_FILTER)
     = ["*3"]
  /\ List.filter is_write_event
       (w_trace
          (snd (remove_managed_resources router_client
                  (initial_world firewall_router empty_db no_fault
                     no_interference))))
     = [EvApi FIREWALL_FILTER (Remove "*1"); EvApi FIREWALL_FILTER (Remove "*2")].
Proof. repeat (apply conj); vm_compute; reflexivity. Qed.

End Clear.

(** ** Starting an apply *)

Section StartApply.
Import models deployment endpoints scenarios.

(** The jobs of [peer] that are pending or running. *)
Definition active_jobs (db : Database) (peer : string) : list DeploymentJob :=
  List.filter
    (fun j => String.eqb (job_peer_id j) peer && cancellable (status j))
    (jobs db).

Lemma active_jobs_add_pending db peer created_by new_id :
  active_jobs
    (snd (create_deployment_job db peer DEPLOY_CONFIG created_by new_id)) peer
  = active_jobs db peer
    ++ [fst (create_deployment_job db peer DEPLOY_CONFIG created_by new_id)].
Proof.
  unfold active_jobs, create_deployment_job, add_job. simpl.
  rewrite List.filter_app. simpl. by rewrite String.eqb_refl.
Qed.

Lemma deploy_configuration_accepts db peer created_by new_id p :
  get_peer db peer = Some p -> peer_type p = MIKROTIK ->
  deploy_configuration db peer created_by new_id
  = (Ok (fst (create_deployment_job db peer DEPLOY_CONFIG created_by new_id),
         {| task_job_id := new_id; task_peer_id := peer |}),
     snd (create_deployment_job db peer DEPLOY_CONFIG created_by new_id)).
Proof.
  intros Hp Ht. unfold deploy_configuration. by rewrite Hp, Ht.
Qed.

(** C1, as the code has it.  [deploy_configuration] refuses only a
    missing peer and a peer that is not a MikroTik device.  For a MikroTik
    peer it always adds a new pending job and launches its worker,
    whatever jobs the peer already has, so the peer's pending or running
    jobs grow by one; [retry_job] on a failed job does the same through
    it. *)
Theorem deploy_configuration_always_starts :
  (forall db peer created_by new_id p,
      get_peer db peer = Some p -> peer_type p = MIKROTIK ->
      exists job db',
        deploy_configuration db peer created_by new_id
        = (Ok (job, {| task_job_id := new_id; task_peer_id := peer |}), db')
        /\ job_id job = new_id /\ job_peer_id job = peer
        /\ status job = PENDING /\ progress_percent job = 0
        /\ jobs db' = jobs db ++ [job]
        /\ active_jobs db' peer = active_jobs db peer ++ [job])
  /\ (forall db peer created_by new_id,
        is_ok (fst (deploy_configuration db peer created_by new_id)) = false
        <-> (get_peer db peer = None
             \/ exists p, get_peer db peer = Some p /\ peer_type p <> MIKROTIK))
  /\ (forall db job new_id j p,
        get_job db job = Some j -> status j = FAILED ->
        get_peer db (job_peer_id j) = Some p -> peer_type p = MIKROTIK ->
        exists new_job db',
          retry_job db job new_id
          = (Ok (job_id j, new_id,
                 {| task_job_id := new_id; task_peer_id := job_peer_id j |}),
             db')
          /\ status new_job = PENDING
          /\ active_jobs db' (job_peer_id j)
             = active_jobs db (job_peer_id j) ++ [new_job]).
Proof.
  split; [|split].
  - intros db peer created_by new_id p Hp Ht.
    eexists _, _. split; [by eapply deploy_configuration_accepts|].
    repeat split. apply active_jobs_add_pending.
  - intros db peer created_by new_id. unfold deploy_configuration.
    destruct (get_peer db peer) as [p|] eqn:Hp.
    + destruct (PeerType_eqb (peer_type p) MIKROTIK) eqn:Ht; simpl.
      * split; [discriminate|]. intros [H|(q & Hq & Hne)]; [discriminate|].
        injection Hq as <-. destruct (peer_type p); done.
      * split; [|done]. intros _. right. exists p. split; [done|].
        intros E. rewrite E in Ht. discriminate.
    + simpl. split; [by left | done].
  - intros db job new_id j p Hj Hs Hp Ht.
    unfold retry_job. rewrite Hj, Hs. simpl.
    rewrite (deploy_configuration_accepts db _ _ new_id p Hp Ht). simpl.
    exists (fst (create_deployment_job db (job_peer_id j) DEPLOY_CONFIG
                   (created_by_id j) new_id)),
           (snd (create_deployment_job db (job_peer_id j) DEPLOY_CONFIG
                   (created_by_id j) new_id)).
    split; [reflexivity|]. split; [reflexivity|].
    apply (active_jobs_add_pending db (job_peer_id j) (created_by_id j) new_id).
Qed.

(** The theorem on a peer that already has a running job. *)
Lemma deploy_configuration_always_starts_witness :
  get_peer busy_db "peer-m" = Some managed_peer
  /\ exists job db',
       deploy_configuration busy_db "peer-m" None "job-2"
       = (Ok (job, {| task_job_id := "job-2"; task_peer_id := "peer-m" |}), db')
       /\ status job = PENDING
       /\ active_jobs db' "peer-m" = active_jobs busy_db "peer-m" ++ [job].
Proof.
  split; [reflexivity|].
  destruct (proj1 deploy_configuration_always_starts busy_db "peer-m" None
              "job-2" managed_peer eq_refl eq_refl)
    as (job & db' & H & _ & _ & Hs & _ & _ & Ha).
  exists job, db'. split; [exact H|]. split; [exact Hs | exact Ha].
Defined.

(** C1 as stated fails: with job-1 of the peer running,
    [deploy_configuration] accepts a second apply for the same peer, and
    [retry_job] on the failed job-0 accepts one too; afterwards two jobs
    of the peer are pending or running. *)
Lemma second_concurrent_apply_is_accepted :
  map job_id (active_jobs busy_db "peer-m") = ["job-1"]
  /\ is_ok (fst (deploy_configuration busy_db "peer-m" None "job-2")) = true
  /\ map (fun j => (job_id j, status j))
       (active_jobs (snd (deploy_configuration busy_db "peer-m" None "job-2"))
          "peer-m")
     = [("job-1", RUNNING); ("job-2", PENDING)]
  /\ is_ok (fst (retry_job busy_db "job-0" "job-3")) = true
  /\ map (fun j => (job_id j, status j))
       (active_jobs (snd (retry_job busy_db "job-0" "job-3")) "peer-m")
     = [("job-1", RUNNING); ("job-3", PENDING)].
Proof. repeat (apply conj); vm_compute; reflexivity. Qed.

End StartApply.

(** ** A Hoare logic for tasks *)

Section Hoare.
Import runtime.

(** [hoare P m Q E]: from a world in [P], [m] returns [a] in a world in
    [Q a], or raises in a world in [E]. *)
Definition hoare {A} (P : World -> Prop) (m : M A) (Q : A -> World -> Prop)
    (E : World -> Prop) : Prop :=
  forall w, P w ->
    match m w with
    | (Ok a, w') => Q a w'
    | (Raise _, w') => E w'
    end.

Lemma hoare_ret {A} (P : World -> Prop) (a : A) E :
  hoare P (mret a) (fun _ => P) E.
Proof. intros w Hw. exact Hw. Qed.

Lemma hoare_ret_val {A} (P : World -> Prop) (a : A) E :
  hoare P (mret a) (fun v w => P w /\ v = a) E.
Proof. intros w Hw. split; [exact Hw | reflexivity]. Qed.

Lemma hoare_bind {A B} P (m : M A) (f : A -> M B) Q R E :
  hoare P m Q E -> (forall a, hoare (Q a) (f a) R E) ->
  hoare P (m ≫= f) R E.
Proof.
  intros Hm Hf w Hw. specialize (Hm w Hw).
  unfold mbind, M_bind. destruct (m w) as [[a|e] w']; [|exact Hm].
  by apply Hf.
Qed.

Lemma hoare_conseq {A} (P P' : World -> Prop) (m : M A)
    (Q Q' : A -> World -> Prop) (E E' : World -> Prop) :
  hoare P' m Q' E' ->
  (forall w, P w -> P' w) -> (forall a w, Q' a w -> Q a w) ->
  (forall w, E' w -> E w) ->
  hoare P m Q E.
Proof.
  intros Hm HP HQ HE w Hw. specialize (Hm w (HP w Hw)).
  destruct (m w) as [[a|e] w']; [by apply HQ | by apply HE].
Qed.

Lemma hoare_pure {A} (F : Prop) (P : World -> Prop) (m : M A) Q E :
  (F -> hoare P m Q E) -> hoare (fun w => P w /\ F) m Q E.
Proof. intros H w [Hw HF]. by apply H. Qed.

Lemma hoare_raise {A} (P : World -> Prop) e (Q : A -> World -> Prop) :
  hoare P (raise e) Q P.
Proof. intros w Hw. exact Hw. Qed.

Lemma hoare_try {A} P (m : M A) h Q E' E :
  hoare P m Q E' -> (forall e, hoare E' (h e) Q E) ->
  hoare P (try_except m h) Q E.
Proof.
  intros Hm Hh w Hw. specialize (Hm w Hw). unfold try_except.
  destruct (m w) as [[a|e] w']; [exact Hm|]. by apply Hh.
Qed.

Lemma hoare_for_each {A} (I E : World -> Prop) (l : list A) body :
  (forall x, x ∈ l -> hoare I (body x) (fun _ => I) E) ->
  hoare I (for_each l body) (fun _ => I) E.
Proof.
  induction l as [|x l IH]; intros Hbody; simpl.
  - apply hoare_ret.
  - eapply hoare_bind.
    + apply Hbody. apply list_elem_of_here.
    + intros u. apply IH. intros y Hy. apply Hbody. by apply list_elem_of_further.
Qed.

End Hoare.

(** ** Clearing a well-formed router *)

Section ClearFamilies.
Import router runtime mikrotik_client.

(** The test that [comment_filter] makes with the ownership prefix. *)
Definition mentions_prefix (x : resource) : bool :=
  str_in COMMENT_PREFIX (get_str x "comment").

Definition resource_id (x : resource) : string := get_str x ".id".

(** A table as RouterOS keeps it: every entry has an id, and no two
    entries share one. *)
Definition well_formed (l : list resource) : bool :=
  forallb (fun x => bool_decide (is_Some (x !! ".id"))) l
  && bool_decide (NoDup (map resource_id l)).

(** The families in the order in which [remove_managed_resources] goes
    through them. *)
Definition removal_order : list path :=
  [FIREWALL_NAT; FIREWALL_FILTER; IP_ROUTE; IP_ADDRESS; WIREGUARD_PEERS;
   WIREGUARD].

(** One removal per entry of [p] that mentions the prefix, in table order. *)
Definition removals (r : Router) (p : path) : list event :=
  map (fun x => EvApi p (Remove (resource_id x)))
      (List.filter mentions_prefix (table r p)).

Definition writes (w : World) : list event :=
  List.filter is_write_event (w_trace w).

Lemma well_formed_inv l :
  well_formed l = true ->
  Forall (fun x => x !! ".id" = Some (resource_id x)) l
  /\ NoDup (map resource_id l).
Proof.
  unfold well_formed. intros [Hid Hnd]%andb_prop. split.
  - apply Forall_forall. intros x Hx.
    rewrite forallb_forall in Hid. apply list_elem_of_In in Hx.
    specialize (Hid x Hx). apply bool_decide_eq_true in Hid as [i Hi].
    unfold resource_id, get_str. by rewrite Hi.
  - by apply bool_decide_eq_true in Hnd.
Qed.

Lemma has_id_resource_id x id :
  x !! ".id" = Some (resource_id x) ->
  has_id id x = bool_decide (resource_id x = id).
Proof.
  intros Hx. unfold has_id. rewrite Hx.
  apply bool_decide_ext. split; [by intros [= ->] | by intros ->].
Qed.

(** A client with a management address. *)
Variable self : MikrotikAPIClient.
Hypothesis self_has_host : truthy (host self) = true.

(** One [remove] under a working connection. *)
Lemma execute_remove p id w :
  w_fault w = no_fault ->
  existsb (has_id id) (table (w_router w) p) = true ->
  exists w',
    (_ ← _execute self p (Remove id); mret tt) w = (Ok tt, w')
    /\ w_fault w' = no_fault
    /\ table (w_router w') p
       = List.filter (fun x => negb (has_id id x)) (table (w_router w) p)
    /\ (forall q, q <> p -> table (w_router w') q = table (w_router w) q)
    /\ writes w' = writes w ++ [EvApi p (Remove id)].
Proof.
  intros Hf Hex.
  unfold _execute, _get_connection, lift_result, mbind, M_bind, await_point,
    emit, router_apply, mret, M_ret.
  simpl. rewrite Hf, self_has_host. unfold no_fault at 1. simpl.
  rewrite Hex. simpl.
  eexists. split; [reflexivity|]. simpl. split; [reflexivity|]. split; [|split].
  - by destruct (decide (p = p)).
  - intros q Hq. by destruct (decide (q = p)).
  - unfold writes. simpl. rewrite !List.filter_app. simpl.
    by rewrite app_nil_r.
Qed.

(** One [print] under a working connection. *)
Lemma execute_print p w :
  w_fault w = no_fault ->
  exists w',
    _execute self p Print w = (Ok (table (w_router w) p), w')
    /\ w_fault w' = no_fault
    /\ w_router w' = w_router w
    /\ writes w' = writes w.
Proof.
  intros Hf.
  unfold _execute, _get_connection, lift_result, mbind, M_bind, await_point,
    emit, router_apply, mret, M_ret.
  simpl. rewrite Hf, self_has_host. unfold no_fault at 1. simpl.
  eexists. split; [reflexivity|]. simpl. split; [reflexivity|]. split; [done|].
  unfold writes. simpl. rewrite !List.filter_app. simpl.
  by rewrite !app_nil_r.
Qed.


Lemma filter_all {A} (f : A -> bool) (l : list A) :
  (forall x, x ∈ l -> f x = true) -> List.filter f l = l.
Proof.
  induction l as [|x l IH]; intros H; simpl; [done|].
  rewrite (H x) by apply list_elem_of_here.
  f_equal. apply IH. intros y Hy. apply H. by apply list_elem_of_further.
Qed.

Lemma filter_none {A} (f : A -> bool) (l : list A) :
  (forall x, x ∈ l -> f x = false) -> List.filter f l = [].
Proof.
  induction l as [|x l IH]; intros H; simpl; [done|].
  rewrite (H x) by apply list_elem_of_here.
  apply IH. intros y Hy. apply H. by apply list_elem_of_further.
Qed.

Lemma filter_filter {A} (f g : A -> bool) (l : list A) :
  List.filter f (List.filter g l) = List.filter (fun x => g x && f x) l.
Proof.
  induction l as [|x l IH]; simpl; [done|].
  destruct (g x); simpl; [|exact IH]. destruct (f x); by rewrite IH.
Qed.

Lemma elem_of_list_filter {A} (f : A -> bool) (l : list A) x :
  x ∈ List.filter f l <-> x ∈ l /\ f x = true.
Proof. rewrite !list_elem_of_In. apply filter_In. Qed.

(** The loop [for x in l: await delete(x[".id"])] over entries of the
    table with distinct ids. *)
Lemma remove_each p l : forall w,
  w_fault w = no_fault ->
  Forall (fun x => x !! ".id" = Some (resource_id x)) (table (w_router w) p) ->
  NoDup (map resource_id l) ->
  (forall x, x ∈ l -> x ∈ table (w_router w) p) ->
  exists w',
    for_each l (fun x => _ ← _execute self p (Remove (resource_id x)); mret tt) w
    = (Ok tt, w')
    /\ w_fault w' = no_fault
    /\ table (w_router w') p
       = List.filter
           (fun y => negb (bool_decide (resource_id y ∈ map resource_id l)))
           (table (w_router w) p)
    /\ (forall q, q <> p -> table (w_router w') q = table (w_router w) q)
    /\ writes w' = writes w ++ map (fun x => EvApi p (Remove (resource_id x))) l.
Proof.
  induction l as [|x l IH]; intros w Hf Hids Hnd Hin.
  - exists w. simpl. split; [done|]. split; [done|]. split; [|split].
    + symmetry. by apply filter_all.
    + done.
    + by rewrite app_nil_r.
  - simpl in Hnd. apply NoDup_cons in Hnd as [Hx Hnd].
    assert (Hex : existsb (has_id (resource_id x)) (table (w_router w) p) = true).
    { apply existsb_exists. exists x. split.
      - apply list_elem_of_In, Hin, list_elem_of_here.
      - rewrite has_id_resource_id; [by apply bool_decide_eq_true|].
        rewrite Forall_forall in Hids. apply Hids, Hin, list_elem_of_here. }
    destruct (execute_remove p (resource_id x) w Hf Hex)
      as (w1 & Hrun & Hf1 & Htab & Hoth & Hwr).
    destruct (IH w1) as (w' & Hrun' & Hf' & Htab' & Hoth' & Hwr').
    + exact Hf1.
    + rewrite Htab. rewrite Forall_forall in Hids |- *.
      intros y [Hy _]%elem_of_list_filter. by apply Hids.
    + exact Hnd.
    + intros y Hy. rewrite Htab. apply elem_of_list_filter. split.
      * apply Hin. by apply list_elem_of_further.
      * rewrite has_id_resource_id.
        -- apply negb_true_iff, bool_decide_eq_false. intros E. apply Hx.
           rewrite <- E. apply list_elem_of_fmap. by exists y.
        -- rewrite Forall_forall in Hids. apply Hids, Hin.
           by apply list_elem_of_further.
    + exists w'. split.
      { change (for_each (x :: l) ?body)
          with (_ ← body x; for_each l body).
        unfold mbind at 1, M_bind at 1. rewrite Hrun. exact Hrun'. }
      split; [exact Hf'|]. split; [|split].
      * rewrite Htab', Htab, filter_filter. apply filter_ext_in.
        intros y Hy%list_elem_of_In.
        rewrite Forall_forall in Hids.
        rewrite (has_id_resource_id y _ (Hids y Hy)). simpl.
        destruct (decide (resource_id y = resource_id x)) as [E|E].
        -- rewrite (bool_decide_eq_true_2 _ E). simpl.
           symmetry. apply negb_false_iff, bool_decide_eq_true.
           rewrite E. apply list_elem_of_here.
        -- rewrite (bool_decide_eq_false_2 _ E). simpl. f_equal.
           apply bool_decide_ext. rewrite elem_of_cons.
           split; [by right | by intros [?|?]].
      * intros q Hq. by rewrite Hoth', Hoth.
      * rewrite Hwr', Hwr. simpl. by rewrite <- app_assoc.
Qed.



Lemma NoDup_map_filter {A B} (f : A -> B) (g : A -> bool) (l : list A) :
  NoDup (map f l) -> NoDup (map f (List.filter g l)).
Proof.
  induction l as [|x l IH]; simpl; [done|].
  intros [Hx Hnd]%NoDup_cons. destruct (g x); simpl; [|by apply IH].
  apply NoDup_cons. split; [|by apply IH].
  intros (y & E & [Hy _]%elem_of_list_filter)%list_elem_of_fmap.
  apply Hx. apply list_elem_of_fmap. by exists y.
Qed.

(** With distinct ids, the ids of the selected entries select the same
    entries. *)
Lemma selected_by_id (g : resource -> bool) (l : list resource) y :
  NoDup (map resource_id l) -> y ∈ l ->
  bool_decide (resource_id y ∈ map resource_id (List.filter g l)) = g y.
Proof.
  intros Hnd Hy. destruct (g y) eqn:Hg.
  - apply bool_decide_eq_true. apply list_elem_of_fmap. exists y.
    split; [done|]. by apply elem_of_list_filter.
  - apply bool_decide_eq_false.
    intros (z & E & [Hz Hgz]%elem_of_list_filter)%list_elem_of_fmap.
    assert (z = y) as ->; [|congruence].
    clear Hg Hgz. induction l as [|x l IH]; [by apply elem_of_nil in Hy|].
    simpl in Hnd. apply NoDup_cons in Hnd as [Hx Hnd].
    apply elem_of_cons in Hy as [->|Hy]; apply elem_of_cons in Hz as [->|Hz].
    + done.
    + exfalso. apply Hx. apply list_elem_of_fmap. by exists z.
    + exfalso. apply Hx. apply list_elem_of_fmap. by exists y.
    + by apply IH.
Qed.

Variable r : Router.

(** The families in [done] are cleared, the others are as in [r]; the
    connection works; the removals sent so far are those of [done]. *)
Definition Cleared (done : list path) (w : World) : Prop :=
  w_fault w = no_fault
  /\ (forall q,
        table (w_router w) q
        = if bool_decide (q ∈ done)
          then List.filter (fun x => negb (mentions_prefix x)) (table r q)
          else table r q)
  /\ writes w = flat_map (removals r) done.

Definition Never : World -> Prop := fun _ => False.

Lemma hoare_get_filtered p (F : list resource -> list resource) done :
  (forall l, F l = List.filter mentions_prefix l) ->
  hoare (Cleared done) (result ← _execute self p Print; mret (F result))
    (fun l w => Cleared done w
                /\ l = List.filter mentions_prefix (table (w_router w) p))
    Never.
Proof.
  intros HF w (Hf & Htab & Hwr).
  destruct (execute_print p w Hf) as (w' & Hrun & Hf' & Hr' & Hwr').
  unfold mbind, M_bind. rewrite Hrun. simpl.
  split; [|by rewrite HF, Hr'].
  split; [exact Hf'|]. split; [by rewrite Hr' | by rewrite Hwr'].
Qed.

Lemma hoare_remove_each p done l :
  p ∉ done -> well_formed (table r p) = true ->
  hoare (fun w => Cleared done w
                  /\ l = List.filter mentions_prefix (table (w_router w) p))
    (for_each l (fun x => _ ← _execute self p (Remove (resource_id x)); mret tt))
    (fun _ => Cleared (done ++ [p])) Never.
Proof.
  intros Hp [Hids Hnd]%well_formed_inv w [(Hf & Htab & Hwr) ->].
  assert (Hpt : table (w_router w) p = table r p).
  { rewrite Htab. by rewrite bool_decide_eq_false_2. }
  rewrite Hpt.
  destruct (remove_each p (List.filter mentions_prefix (table r p)) w)
    as (w' & Hrun & Hf' & Htab' & Hoth & Hwr').
  - exact Hf.
  - by rewrite Hpt.
  - by apply NoDup_map_filter.
  - intros x [Hx _]%elem_of_list_filter. by rewrite Hpt.
  - rewrite Hrun. split; [exact Hf'|]. split.
    + intros q. destruct (decide (q = p)) as [->|Hq].
      * rewrite bool_decide_eq_true_2 by (apply elem_of_app; right; apply list_elem_of_here).
        rewrite Htab', Hpt. apply filter_ext_in. intros y Hy%list_elem_of_In.
        f_equal. by apply selected_by_id.
      * rewrite Hoth, Htab by done.
        replace (bool_decide (q ∈ done ++ [p])) with (bool_decide (q ∈ done));
          [done|].
        apply bool_decide_ext. rewrite elem_of_app, list_elem_of_singleton.
        split; [by left | by intros [?|?]].
    + rewrite Hwr', Hwr, flat_map_app. simpl. by rewrite app_nil_r.
Qed.


Hypothesis tables_well_formed :
  forallb (fun p => well_formed (table r p)) removal_order = true.

Lemma family_well_formed p :
  p ∈ removal_order -> well_formed (table r p) = true.
Proof.
  intros Hp. pose proof tables_well_formed as H.
  rewrite forallb_forall in H. by apply H, list_elem_of_In.
Qed.

Ltac get_family :=
  eapply hoare_bind;
    [ apply hoare_get_filtered; intros ?; reflexivity | intros ? ].

Ltac remove_family p done :=
  apply (hoare_remove_each p done);
    [ apply (bool_decide_unpack _); exact I
    | apply family_well_formed; apply (bool_decide_unpack _); exact I ].

Lemma hoare_remove_managed_resources :
  hoare (Cleared []) (remove_managed_resources self)
    (fun _ => Cleared removal_order) Never.
Proof.
  unfold remove_managed_resources.
  get_family.
  eapply hoare_bind; [remove_family FIREWALL_NAT (@nil path) | intros ?].
  get_family.
  eapply hoare_bind; [remove_family FIREWALL_FILTER [FIREWALL_NAT] | intros ?].
  get_family.
  eapply hoare_bind;
    [remove_family IP_ROUTE [FIREWALL_NAT; FIREWALL_FILTER] | intros ?].
  get_family.
  eapply hoare_bind;
    [remove_family IP_ADDRESS [FIREWALL_NAT; FIREWALL_FILTER; IP_ROUTE]
    | intros ?].
  get_family.
  eapply hoare_bind;
    [remove_family WIREGUARD_PEERS
       [FIREWALL_NAT; FIREWALL_FILTER; IP_ROUTE; IP_ADDRESS]
    | intros ?].
  get_family.
  remove_family WIREGUARD
    [FIREWALL_NAT; FIREWALL_FILTER; IP_ROUTE; IP_ADDRESS; WIREGUARD_PEERS].
Qed.

Lemma hoare_get_cleared p (F : list resource -> list resource) done :
  p ∈ done -> (forall l, F l = List.filter mentions_prefix l) ->
  hoare (Cleared done) (result ← _execute self p Print; mret (F result))
    (fun l w => Cleared done w /\ l = []) Never.
Proof.
  intros Hp HF.
  eapply hoare_conseq; [by apply hoare_get_filtered | done | | done].
  intros l w [HC ->]. split; [done|]. destruct HC as (_ & Htab & _).
  rewrite Htab, bool_decide_eq_true_2 by done.
  rewrite filter_filter. apply filter_none. intros x _.
  by destruct (mentions_prefix x).
Qed.

Ltac get_cleared :=
  eapply hoare_bind;
    [ apply hoare_get_cleared;
        [ apply (bool_decide_unpack _); exact I | intros ?; reflexivity ]
    | intros ?; apply hoare_pure; intros -> ].

(** On a cleared router every family of [get_managed_resources] is
    empty. *)
Lemma hoare_get_managed_resources_cleared :
  hoare (Cleared removal_order) (get_managed_resources self)
    (fun res _ =>
       res = [("wireguard_interfaces", []); ("wireguard_peers", []);
              ("ip_addresses", []); ("routes", []);
              ("firewall_filter_rules", []); ("nat_rules", [])])
    Never.
Proof.
  unfold get_managed_resources. do 6 get_cleared.
  intros w _. reflexivity.
Qed.

End ClearFamilies.

Section ClearRuns.
Import router runtime mikrotik_client scenarios.

(** What the clearing guarantees.  With a client that has a management
    address, on a router whose tables give every entry an id of its own,
    and with a working connection,
    [remove_managed_resources] returns; it sends one removal for each
    entry whose comment mentions the ownership prefix, family by family
    in the order NAT rules, filter rules, routes, addresses, WireGuard
    peers, WireGuard interfaces, and in table order inside a family;
    every other entry stays; and [get_managed_resources] then finds
    every family empty. *)
Theorem remove_managed_resources_order_and_effect
    (self : MikrotikAPIClient) (r : Router) (db : models.Database)
    (interference : nat -> models.Database -> models.Database) :
  truthy (host self) = true ->
  forallb (fun p => well_formed (table r p)) removal_order = true ->
  fst (remove_managed_resources self
         (initial_world r db no_fault interference))
  = Ok tt
  /\ writes
       (snd (remove_managed_resources self
               (initial_world r db no_fault interference)))
     = flat_map (removals r) removal_order
  /\ (forall q,
        table
          (w_router
             (snd (remove_managed_resources self
                     (initial_world r db no_fault interference)))) q
        = if bool_decide (q ∈ removal_order)
          then List.filter (fun x => negb (mentions_prefix x)) (table r q)
          else table r q)
  /\ fst (get_managed_resources self
            (snd (remove_managed_resources self
                    (initial_world r db no_fault interference))))
     = Ok [("wireguard_interfaces", []); ("wireguard_peers", []);
           ("ip_addresses", []); ("routes", []);
           ("firewall_filter_rules", []); ("nat_rules", [])].
Proof.
  intros Hhost Hwf.
  assert (H0 : Cleared r [] (initial_world r db no_fault interference)).
  { split; [done|]. split; [|done]. intros q. reflexivity. }
  pose proof (hoare_remove_managed_resources self Hhost r Hwf _ H0) as H.
  destruct (remove_managed_resources self
              (initial_world r db no_fault interference)) as [[[]|e] w'];
    [|done].
  simpl. split; [done|]. destruct H as (Hf & Htab & Hwr).
  split; [exact Hwr|]. split; [exact Htab|].
  pose proof (hoare_get_managed_resources_cleared self Hhost r w'
                (conj Hf (conj Htab Hwr))) as H.
  destruct (get_managed_resources self w') as [[res|e] w'']; [|done].
  simpl. by rewrite H.
Qed.

Lemma remove_managed_resources_order_and_effect_witness :
  truthy (host router_client) = true
  /\ forallb (fun p => well_formed (table firewall_router p)) removal_order
     = true
  /\ writes
       (snd (remove_managed_resources router_client
               (initial_world firewall_router empty_db no_fault
                  no_interference)))
     = flat_map (removals firewall_router) removal_order.
Proof.
  split; [reflexivity|]. split; [vm_compute; reflexivity|].
  apply (remove_managed_resources_order_and_effect router_client
           firewall_router empty_db no_interference).
  - reflexivity.
  - vm_compute. reflexivity.
Defined.

End ClearRuns.

(** ** The apply worker *)

Section ApplyWorker.
Import models router runtime mikrotik_client deployment.

(** The progress values that the worker assigns, in order. *)
Definition worker_milestones : list Z :=
  [5; 10; 15; 20; 30; 40; 50; 60; 70; 80; 90; 100].

(** The milestone table of the specification. *)
Definition milestone_table : list Z :=
  [5; 10; 15; 20; 30; 50; 60; 70; 80; 90; 100].

(** What [get_managed_resources] reads from a router. *)
Definition managed_snapshot (r : Router) : managed_resources :=
  map (fun '(name, p) =>
         (name, filter_comment (Some COMMENT_PREFIX) (table r p)))
      [("wireguard_interfaces", WIREGUARD);
       ("wireguard_peers", WIREGUARD_PEERS);
       ("ip_addresses", IP_ADDRESS);
       ("routes", IP_ROUTE);
       ("firewall_filter_rules", FIREWALL_FILTER);
       ("nat_rules", FIREWALL_NAT)].

(** A monitor of the trace of one run.  Its state is the number of
    progress assignments seen and whether the backup was taken.  It
    accepts an event when: a progress assignment is the next value of
    [worker_milestones]; a backup is the first one and records [snap]; a
    write to the router comes after the backup. *)
Definition monitor_step (snap : managed_resources) (st : nat * bool)
    (e : event) : option (nat * bool) :=
  let '(k, backed) := st in
  match e with
  | EvProgress n =>
      if decide (worker_milestones !! k = Some n) then Some (S k, backed)
      else None
  | EvBackup b =>
      if backed then None
      else if decide (b = snap) then Some (k, true) else None
  | EvApi _ c =>
      if is_write c && negb backed then None else Some (k, backed)
  | _ => Some (k, backed)
  end.

Fixpoint monitor_from (snap : managed_resources) (st : nat * bool)
    (t : list event) : option (nat * bool) :=
  match t with
  | [] => Some st
  | e :: t' =>
      match monitor_step snap st e with
      | Some st' => monitor_from snap st' t'
      | None => None
      end
  end.

Definition monitor (snap : managed_resources) (t : list event)
  : option (nat * bool) :=
  monitor_from snap (0%nat, false) t.

Lemma monitor_from_app snap st t1 t2 :
  monitor_from snap st (t1 ++ t2)
  = match monitor_from snap st t1 with
    | Some st' => monitor_from snap st' t2
    | None => None
    end.
Proof.
  revert st. induction t1 as [|e t1 IH]; intros st; simpl; [done|].
  destruct (monitor_step snap st e); [apply IH | done].
Qed.

Lemma monitor_snoc snap t e st :
  monitor snap t = Some st ->
  monitor snap (t ++ [e]) = monitor_step snap st e.
Proof.
  intros H. unfold monitor in *. rewrite monitor_from_app, H. simpl.
  by destruct (monitor_step snap st e).
Qed.

Variable r0 : Router.

(** The invariant of a run that started on router [r0]: the monitor has
    accepted the trace and is in state [(k, backed)], and the router is
    still [r0] as long as no backup was taken. *)
Definition Inv (k : nat) (backed : bool) (w : World) : Prop :=
  monitor (managed_snapshot r0) (w_trace w) = Some (k, backed)
  /\ (backed = false -> w_router w = r0).

Definition Any (w : World) : Prop := exists k backed, Inv k backed w.

Lemma Inv_Any k b w : Inv k b w -> Any w.
Proof. intros H. by exists k, b. Qed.

(** Steps that leave the trace and the router alone. *)
Lemma hoare_get_db k b :
  hoare (Inv k b) get_db (fun _ => Inv k b) Any.
Proof. intros w Hw. exact Hw. Qed.

Lemma hoare_modify_db k b f :
  hoare (Inv k b) (modify_db f) (fun _ => Inv k b) Any.
Proof. intros w Hw. exact Hw. Qed.

Lemma hoare_utcnow k b :
  hoare (Inv k b) utcnow (fun _ => Inv k b) Any.
Proof. intros w Hw. exact Hw. Qed.

Lemma hoare_lift_result {A} k b (r : result A) :
  hoare (Inv k b) (lift_result r) (fun _ => Inv k b) Any.
Proof. intros w Hw. unfold lift_result. destruct r; [exact Hw | by eapply Inv_Any]. Qed.

Lemma hoare_raise_inv {A} k b e (Q : A -> World -> Prop) :
  hoare (Inv k b) (raise e) Q Any.
Proof. intros w Hw. by eapply Inv_Any. Qed.

Lemma hoare_mret_inv {A} k b (a : A) :
  hoare (Inv k b) (mret a) (fun _ => Inv k b) Any.
Proof. apply hoare_ret. Qed.

Lemma hoare_scalar_one {A} k b (o : option A) :
  hoare (Inv k b) (scalar_one o) (fun _ => Inv k b) Any.
Proof. destruct o; [apply hoare_ret | apply hoare_raise_inv]. Qed.

(** An emitted event moves the monitor. *)
Lemma hoare_emit k b e k' b' :
  monitor_step (managed_snapshot r0) (k, b) e = Some (k', b') ->
  (b' = false -> b = false) ->
  hoare (Inv k b) (emit e) (fun _ => Inv k' b') Any.
Proof.
  intros Hstep Hb w [Hmon Hr]. unfold emit, Inv. simpl.
  rewrite (monitor_snoc _ _ _ _ Hmon). split; [exact Hstep|].
  intros Hb'. apply Hr. by apply Hb.
Qed.

Lemma hoare_await_point k b :
  hoare (Inv k b) await_point (fun _ => Inv k b) Any.
Proof.
  intros w [Hmon Hr]. unfold await_point, Inv. simpl.
  rewrite (monitor_snoc _ _ _ _ Hmon). simpl. by split.
Qed.

Lemma hoare_commit k b :
  hoare (Inv k b) commit (fun _ => Inv k b) Any.
Proof.
  unfold commit. eapply hoare_bind; [apply hoare_await_point|].
  intros ?. apply hoare_ret.
Qed.

Lemma hoare_assign k b job f :
  hoare (Inv k b) (assign job f) (fun _ => Inv k b) Any.
Proof. apply hoare_modify_db. Qed.

Lemma hoare_assign_status k b job s :
  hoare (Inv k b) (assign_status job s) (fun _ => Inv k b) Any.
Proof.
  unfold assign_status. eapply hoare_bind.
  - by apply (hoare_emit k b _ k b).
  - intros ?. apply hoare_assign.
Qed.

Lemma hoare_assign_progress k b job n :
  worker_milestones !! k = Some n ->
  hoare (Inv k b) (assign_progress job n) (fun _ => Inv (S k) b) Any.
Proof.
  intros Hn. unfold assign_progress. eapply hoare_bind.
  - apply (hoare_emit k b _ (S k) b); [|done].
    simpl. by rewrite decide_True.
  - intros ?. apply hoare_assign.
Qed.

Lemma hoare_assign_backup k job :
  hoare (Inv k false) (assign_backup job (managed_snapshot r0))
    (fun _ => Inv k true) Any.
Proof.
  unfold assign_backup. eapply hoare_bind.
  - apply (hoare_emit k false _ k true); [|done].
    simpl. by rewrite decide_True.
  - intros ?. apply hoare_assign.
Qed.

(** The router serves a read without changing. *)
Lemma hoare_execute_print k b self p :
  hoare (Inv k b) (_execute self p Print)
    (fun v w => Inv k b w /\ v = table (w_router w) p) Any.
Proof.
  unfold _execute.
  eapply hoare_bind; [apply hoare_await_point|]. intros refused.
  eapply hoare_bind; [apply hoare_lift_result|]. intros ?.
  eapply hoare_bind; [by apply (hoare_emit k b _ k b)|]. intros ?.
  intros w Hw. unfold router_apply. simpl. by split.
Qed.

(** After the backup the router may be written. *)
Lemma hoare_execute_write k self p c :
  hoare (Inv k true) (_execute self p c) (fun _ => Inv k true) Any.
Proof.
  unfold _execute.
  eapply hoare_bind; [apply hoare_await_point|]. intros refused.
  eapply hoare_bind; [apply hoare_lift_result|]. intros ?.
  eapply hoare_bind.
  { apply (hoare_emit k true _ k true); [|done].
    simpl. by rewrite andb_false_r. }
  intros ? w [Hmon Hr]. unfold router_apply.
  destruct (apply p c (w_router w)) as [[v|e] r']; simpl.
  - by split.
  - exists k, true. by split.
Qed.

Lemma hoare_router_apply_print k b p :
  hoare (Inv k b) (router_apply p Print) (fun _ => Inv k b) Any.
Proof. intros w Hw. exact Hw. Qed.

(** A listing call: one read and a filter of the reply. *)
Lemma hoare_read k b self p (F : list resource -> list resource) :
  hoare (Inv k b) (result ← _execute self p Print; mret (F result))
    (fun v w => Inv k b w /\ v = F (table (w_router w) p)) Any.
Proof.
  eapply hoare_bind; [apply hoare_execute_print|].
  intros v w [Hw ->]. simpl. by split.
Qed.

Lemma hoare_read_frame k b self p (F : list resource -> list resource) :
  hoare (Inv k b) (result ← _execute self p Print; mret (F result))
    (fun _ => Inv k b) Any.
Proof.
  eapply hoare_conseq; [apply (hoare_read k b self p F) | done | | done].
  by intros v w [Hw _].
Qed.

Lemma hoare_read_initial k self p (F : list resource -> list resource) :
  hoare (Inv k false) (result ← _execute self p Print; mret (F result))
    (fun v w => Inv k false w /\ v = F (table r0 p)) Any.
Proof.
  eapply hoare_conseq; [apply (hoare_read k false self p F) | done | | done].
  intros v w [Hw ->]. split; [exact Hw|]. destruct Hw as [_ Hr].
  by rewrite Hr.
Qed.

Lemma hoare_get_wireguard_interfaces k b self f :
  hoare (Inv k b) (get_wireguard_interfaces self f) (fun _ => Inv k b) Any.
Proof. apply hoare_read_frame. Qed.

Lemma hoare_get_wireguard_peers k b self i f :
  hoare (Inv k b) (get_wireguard_peers self i f) (fun _ => Inv k b) Any.
Proof. apply hoare_read_frame. Qed.

Lemma hoare_get_ip_addresses k b self i f :
  hoare (Inv k b) (get_ip_addresses self i f) (fun _ => Inv k b) Any.
Proof. apply hoare_read_frame. Qed.

Lemma hoare_get_routes k b self f :
  hoare (Inv k b) (get_routes self f) (fun _ => Inv k b) Any.
Proof. apply hoare_read_frame. Qed.

Lemma hoare_get_firewall_filter_rules k b self c f :
  hoare (Inv k b) (get_firewall_filter_rules self c f) (fun _ => Inv k b) Any.
Proof. apply hoare_read_frame. Qed.

Lemma hoare_get_nat_rules k b self c f :
  hoare (Inv k b) (get_nat_rules self c f) (fun _ => Inv k b) Any.
Proof. apply hoare_read_frame. Qed.

(** Before any write, [get_managed_resources] reads the managed
    resources of the initial router. *)
Lemma hoare_get_managed_resources k self :
  hoare (Inv k false) (get_managed_resources self)
    (fun v w => Inv k false w /\ v = managed_snapshot r0) Any.
Proof.
  unfold get_managed_resources.
  eapply hoare_bind; [apply hoare_read_initial|]. intros v1. apply hoare_pure. intros ->.
  eapply hoare_bind; [apply hoare_read_initial|]. intros v2. apply hoare_pure. intros ->.
  eapply hoare_bind; [apply hoare_read_initial|]. intros v3. apply hoare_pure. intros ->.
  eapply hoare_bind; [apply hoare_read_initial|]. intros v4. apply hoare_pure. intros ->.
  eapply hoare_bind; [apply hoare_read_initial|]. intros v5. apply hoare_pure. intros ->.
  eapply hoare_bind; [apply hoare_read_initial|]. intros v6. apply hoare_pure. intros ->.
  intros w Hw. split; [exact Hw | reflexivity].
Qed.

Lemma hoare_test_connection k b self :
  hoare (Inv k b) (test_connection self) (fun _ => Inv k b) Any.
Proof.
  unfold test_connection.
  eapply hoare_bind; [apply hoare_await_point|]. intros refused.
  destruct (_get_connection self refused).
  - eapply hoare_bind; [apply hoare_router_apply_print|]. intros ?.
    eapply hoare_bind; [apply hoare_router_apply_print|]. intros ?.
    apply hoare_ret.
  - apply hoare_ret.
Qed.

Lemma hoare_write_unit k self p c :
  hoare (Inv k true) (_ ← _execute self p c; mret tt) (fun _ => Inv k true) Any.
Proof.
  eapply hoare_bind; [apply hoare_execute_write|]. intros ?. apply hoare_ret.
Qed.

Lemma hoare_update_wireguard_interface k self id data :
  hoare (Inv k true) (update_wireguard_interface self id data)
    (fun _ => Inv k true) Any.
Proof.
  unfold update_wireguard_interface.
  eapply hoare_bind; [apply hoare_execute_write|]. intros ?. apply hoare_ret.
Qed.

(** The loop that deletes the managed resources of one family. *)
Lemma hoare_delete_managed k existing (delete : string -> M unit) :
  (forall id, hoare (Inv k true) (delete id) (fun _ => Inv k true) Any) ->
  hoare (Inv k true) (delete_managed existing delete) (fun _ => Inv k true) Any.
Proof.
  intros Hdel. unfold delete_managed. apply hoare_for_each.
  intros r _. destruct (is_managed r); [apply Hdel | apply hoare_ret].
Qed.

(** A loop that creates the desired resources of one family. *)
Lemma hoare_create_each k (desired : list resource)
    (create : resource -> M (list resource)) :
  (forall cfg, hoare (Inv k true) (create cfg) (fun _ => Inv k true) Any) ->
  hoare (Inv k true)
    (for_each desired (fun cfg => _ ← create cfg; mret tt))
    (fun _ => Inv k true) Any.
Proof.
  intros Hc. apply hoare_for_each. intros cfg _.
  eapply hoare_bind; [apply Hc|]. intros ?. apply hoare_ret.
Qed.

Lemma hoare_decrypt_if_set k b c settings x dflt :
  hoare (Inv k b) (decrypt_if_set c settings x dflt) (fun _ => Inv k b) Any.
Proof.
  unfold decrypt_if_set. destruct (truthy x); [|apply hoare_ret].
  eapply hoare_bind; [apply hoare_lift_result|]. intros ?. apply hoare_ret.
Qed.

Ltac hoare_frame :=
  first
    [ apply hoare_get_db | apply hoare_scalar_one | apply hoare_assign_status
    | apply hoare_utcnow | apply hoare_assign | apply hoare_commit
    | apply hoare_decrypt_if_set | apply hoare_test_connection
    | apply hoare_lift_result | apply hoare_modify_db
    | apply hoare_get_wireguard_interfaces | apply hoare_get_wireguard_peers
    | apply hoare_get_ip_addresses | apply hoare_get_routes
    | apply hoare_get_firewall_filter_rules | apply hoare_get_nat_rules
    | apply hoare_update_wireguard_interface
    | apply hoare_execute_write
    | apply hoare_assign_backup
    | apply hoare_mret_inv | apply hoare_raise_inv
    | (apply hoare_assign_progress; reflexivity)
    | (apply hoare_delete_managed; intros ?; apply hoare_write_unit)
    | (apply hoare_for_each; intros ? _;
       eapply hoare_bind; [apply hoare_execute_write|]; intros ?;
       apply hoare_ret) ].

Ltac hoare_cmd :=
  lazymatch goal with
  | |- hoare _ (if ?c then _ else _) _ _ => destruct c; hoare_cmd
  | |- hoare _ (match ?o with Some _ => _ | None => _ end) _ _ =>
      destruct o; hoare_cmd
  | |- _ => hoare_frame
  end.

Ltac hoare_step :=
  cbv beta zeta;
  lazymatch goal with
  | |- hoare _ (get_managed_resources _ ≫= _) _ _ =>
      eapply hoare_bind; [apply hoare_get_managed_resources|];
      intros ?; apply hoare_pure; intros ->
  | |- hoare _ (_ ≫= _) _ _ => eapply hoare_bind; [hoare_cmd | intros ?]
  | |- _ => hoare_cmd
  end.

(** The [try] block keeps the invariant, whether it returns or raises. *)
Lemma hoare_apply_body c settings job peer :
  hoare (Inv 0 false) (apply_body c settings job peer)
    (fun _ => Inv 12 true) Any.
Proof.
  unfold apply_body.
  repeat hoare_step.
Qed.

Lemma hoare_any {A} (m : M A) :
  (forall k b, hoare (Inv k b) m (fun _ => Inv k b) Any) ->
  hoare Any m (fun _ => Any) Any.
Proof.
  intros H w (k & b & Hw). specialize (H k b w Hw).
  destruct (m w) as [[a|e] w']; [by eapply Inv_Any | exact H].
Qed.

(** Both [except] clauses keep the invariant. *)
Lemma hoare_apply_failed job e :
  hoare Any (apply_failed job e) (fun _ => Any) Any.
Proof.
  apply hoare_any. intros k b. unfold apply_failed.
  eapply hoare_bind; [apply hoare_get_db|]. intros db.
  destruct (get_job db job) as [j|]; [|apply hoare_raise_inv].
  destruct e; repeat hoare_step.
Qed.

Lemma hoare_execute_deployment c settings job peer :
  hoare (Inv 0 false) (_execute_deployment c settings job peer)
    (fun _ => Any) Any.
Proof.
  unfold _execute_deployment. eapply hoare_try.
  - eapply hoare_conseq; [apply hoare_apply_body | done | | done].
    intros u w Hw. exact (Inv_Any 12 true w Hw).
  - intros e. apply hoare_apply_failed.
Qed.

End ApplyWorker.

(** *** What an accepted trace looks like *)

Section AcceptedTraces.
Import router runtime.

Definition progress_of (e : event) : option Z :=
  match e with EvProgress n => Some n | _ => None end.

Definition backup_of (e : event) : option managed_resources :=
  match e with EvBackup b => Some b | _ => None end.

(** The values assigned to [progress_percent], in order. *)
Definition progress_values (t : list event) : list Z := omap progress_of t.

(** The values assigned to [backup_config], in order. *)
Definition backups (t : list event) : list managed_resources :=
  omap backup_of t.

Lemma monitor_snoc_inv snap t e st :
  monitor snap (t ++ [e]) = Some st ->
  exists st', monitor snap t = Some st' /\ monitor_step snap st' e = Some st.
Proof.
  unfold monitor. rewrite monitor_from_app.
  destruct (monitor_from snap (0%nat, false) t) as [st'|]; [|done].
  simpl. destruct (monitor_step snap st' e) as [st''|] eqn:E; [|done].
  intros H. injection H as <-. by exists st'.
Qed.

Lemma monitor_prefix snap t1 t2 st :
  monitor snap (t1 ++ t2) = Some st -> exists st1, monitor snap t1 = Some st1.
Proof.
  unfold monitor. rewrite monitor_from_app.
  destruct (monitor_from snap (0%nat, false) t1) as [st1|]; [eauto | done].
Qed.

Lemma monitor_progress snap t k b :
  monitor snap t = Some (k, b) ->
  progress_values t = take k worker_milestones.
Proof.
  revert k b. induction t as [|e t IH] using rev_ind; intros k b H.
  - injection H as <- <-. reflexivity.
  - apply monitor_snoc_inv in H as ([k' b'] & Ht & Hstep).
    specialize (IH k' b' Ht). unfold progress_values in *.
    rewrite omap_app, IH. simpl in Hstep.
    destruct e; simpl in *.
    + destruct (is_write c && negb b'); [done|]. injection Hstep as <- <-.
      by rewrite app_nil_r.
    + case_decide as Hn; [|done]. injection Hstep as <- <-.
      by erewrite take_S_r.
    + injection Hstep as <- <-. by rewrite app_nil_r.
    + destruct b'; [done|]. case_decide; [|done]. injection Hstep as <- <-.
      by rewrite app_nil_r.
    + injection Hstep as <- <-. by rewrite app_nil_r.
Qed.

Lemma monitor_backups snap t k b :
  monitor snap t = Some (k, b) ->
  backups t = if b then [snap] else [].
Proof.
  revert k b. induction t as [|e t IH] using rev_ind; intros k b H.
  - injection H as <- <-. reflexivity.
  - apply monitor_snoc_inv in H as ([k' b'] & Ht & Hstep).
    specialize (IH k' b' Ht). unfold backups in *.
    rewrite omap_app, IH. simpl in Hstep.
    destruct e; simpl in *.
    + destruct (is_write c && negb b'); [done|]. injection Hstep as <- <-.
      by rewrite app_nil_r.
    + case_decide as Hn; [|done]. injection Hstep as <- <-.
      by rewrite app_nil_r.
    + injection Hstep as <- <-. by rewrite app_nil_r.
    + destruct b'; [done|]. case_decide as Hb; [|done].
      injection Hstep as <- <-. by rewrite Hb.
    + injection Hstep as <- <-. by rewrite app_nil_r.
Qed.

Lemma monitor_write_after_backup snap t k b t1 e t2 :
  monitor snap t = Some (k, b) ->
  t = t1 ++ e :: t2 -> is_write_event e = true ->
  backups t1 = [snap].
Proof.
  intros H -> He.
  change (t1 ++ e :: t2) with (t1 ++ [e] ++ t2) in H.
  rewrite app_assoc in H.
  apply monitor_prefix in H as (st & H).
  apply monitor_snoc_inv in H as ([k1 b1] & Ht1 & Hstep).
  rewrite (monitor_backups _ _ _ _ Ht1).
  destruct e; try discriminate. simpl in He, Hstep. rewrite He in Hstep.
  destruct b1; [reflexivity | discriminate].
Qed.

Lemma worker_milestones_increasing : StronglySorted Z.lt worker_milestones.
Proof. repeat constructor; lia. Qed.

Lemma progress_values_increasing snap t st :
  monitor snap t = Some st -> StronglySorted Z.lt (progress_values t).
Proof.
  destruct st as [k b]. intros H. rewrite (monitor_progress _ _ _ _ H).
  pose proof worker_milestones_increasing as Hs.
  rewrite <- (take_drop k worker_milestones) in Hs.
  by apply StronglySorted_app_1_l in Hs.
Qed.

End AcceptedTraces.

Section ApplyWorkerRuns.
Import models router runtime mikrotik_client deployment scenarios.

(** C8, as the code has it.  In every run of the apply worker, whatever
    the router, the database, the failures and the other requests: the
    values assigned to [progress_percent] are an initial segment of
    5, 10, 15, 20, 30, 40, 50, 60, 70, 80, 90, 100, hence increasing;
    [backup_config] is never assigned twice, and an assignment records
    the managed resources of the router as the run found it; every write
    to the router comes after that assignment; so a run that writes to
    the router assigns [backup_config] exactly once, before its first
    write. *)
Theorem apply_worker_backup_and_progress
    (c : security.Crypto) (settings : security.Settings) (job peer : string)
    (r : Router) (db : Database) (fault : nat -> bool)
    (interference : nat -> Database -> Database) :
  let t :=
    w_trace (snd (_execute_deployment c settings job peer
                    (initial_world r db fault interference))) in
  (exists k, progress_values t = take k worker_milestones)
  /\ StronglySorted Z.lt (progress_values t)
  /\ (backups t = [] \/ backups t = [managed_snapshot r])
  /\ (forall t1 e t2,
        t = t1 ++ e :: t2 -> is_write_event e = true ->
        backups t1 = [managed_snapshot r])
  /\ (Exists (fun e => is_write_event e = true) t ->
      backups t = [managed_snapshot r]).
Proof.
  intros t.
  pose proof (hoare_execute_deployment r c settings job peer
                (initial_world r db fault interference)) as H.
  assert (Hinit : Inv r 0 false (initial_world r db fault interference))
    by (split; reflexivity).
  specialize (H Hinit). fold t in H.
  assert (Hmon : exists k b, monitor (managed_snapshot r) t = Some (k, b)).
  { subst t.
    destruct (_execute_deployment c settings job peer
                (initial_world r db fault interference)) as [[u|e] w'];
      destruct H as (k & b & Hm & _); by exists k, b. }
  destruct Hmon as (k & b & Hmon).
  split; [|split; [|split; [|split]]].
  - exists k. by eapply monitor_progress.
  - by eapply progress_values_increasing.
  - rewrite (monitor_backups _ _ _ _ Hmon). destruct b; auto.
  - intros t1 e t2 Ht He. by eapply monitor_write_after_backup.
  - intros Hex. apply Exists_exists in Hex as (e & Hin & He).
    apply list_elem_of_split in Hin as (t1 & t2 & Ht).
    pose proof (monitor_write_after_backup _ _ _ _ _ _ _ Hmon Ht He) as H1.
    rewrite (monitor_backups _ _ _ _ Hmon).
    destruct b; [reflexivity|].
    pose proof (monitor_backups _ _ _ _ Hmon) as H2. simpl in H2.
    rewrite Ht in H2. unfold backups in H1, H2.
    rewrite omap_app, H1 in H2. discriminate.
Qed.

(** C8 as stated fails.  On scenario S5, where the peer has a management
    address and nothing fails, the worker assigns 40 between 30 and 50, a
    value that is not in the milestone table. *)
Lemma apply_worker_reports_progress_40 :
  truthy (mikrotik_management_ip managed_peer) = true
  /\ progress_values (w_trace (snd (s5_run no_fault no_interference)))
     = [5; 10; 15; 20; 30; 40; 50; 60; 70; 80; 90; 100]
  /\ existsb (Z.eqb 40) milestone_table = false.
Proof. repeat (apply conj); vm_compute; reflexivity. Qed.

(** A peer without a management address: the connection test fails, the
    job ends failed at 5 percent, and nothing is sent to the router. *)
Example apply_without_management_address :
  let w :=
    snd (_execute_deployment security.toy_crypto security.test_settings
           "job-1" "peer-m"
           (initial_world s5_router unreachable_db
              no_fault no_interference)) in
  map (fun j => (status j, progress_percent j, error_message j))
    (jobs (w_db w))
  = [(FAILED, 5,
      Some "Connection test failed: Connection failed: Connection failed")]
  /\ List.filter (fun e => match e with EvApi _ _ => true | _ => false end)
       (w_trace w) = []
  /\ backups (w_trace w) = [].
Proof. repeat (apply conj); vm_compute; reflexivity. Qed.

(** Scenario S5: after the apply the foreign rule is still there, the
    stale managed route is gone, the job is completed at 100 percent, and
    its [backup_config] holds the stale route. *)
Example s5_convergent_apply :
  fst (s5_run no_fault no_interference) = Ok tt
  /\ map (fun r => get_str r ".id")
       (List.filter (fun r => negb (is_managed r))
          (table (w_router (snd (s5_run no_fault no_interference)))
             FIREWALL_FILTER))
     = ["*3"]
  /\ map (fun r => get_str r "comment")
       (table (w_router (snd (s5_run no_fault no_interference))) IP_ROUTE)
     = ["WAN-Overlay-Manager:route-to-peer-b";
        "WAN-Overlay-Manager:route-shared-services-peer-m"]
  /\ map (fun j => (status j, progress_percent j))
       (jobs (w_db (snd (s5_run no_fault no_interference))))
     = [(COMPLETED, 100)]
  /\ map (fun j =>
            option_map
              (map (fun '(family, l) =>
                      (family, map (fun r => get_str r ".id") l)))
              (backup_config j))
       (jobs (w_db (snd (s5_run no_fault no_interference))))
     = [Some [("wireguard_interfaces", []); ("wireguard_peers", []);
              ("ip_addresses", []); ("routes", ["*7"]);
              ("firewall_filter_rules", []); ("nat_rules", [])]].
Proof. repeat (apply conj); vm_compute; reflexivity. Qed.

End ApplyWorkerRuns.

(** ** Cancellation *)

Section CancelJob.
Import models endpoints.

(** A field assignment that keeps the row's id and status. *)
Definition keeps_status (f : DeploymentJob -> DeploymentJob) : Prop :=
  forall j, job_id (f j) = job_id j /\ status (f j) = status j.

Lemma get_job_update_job db job f :
  (forall j, job_id (f j) = job_id j) ->
  get_job (update_job job f db) job = option_map f (get_job db job).
Proof.
  intros Hid. unfold get_job, update_job. simpl.
  induction (jobs db) as [|j l IH]; simpl; [done|].
  destruct (String.eqb_spec (job_id j) job) as [E|E].
  - by rewrite Hid, E, String.eqb_refl.
  - apply String.eqb_neq in E. by rewrite E.
Qed.

Lemma get_job_update_peer db id f job :
  get_job (update_peer id f db) job = get_job db job.
Proof. reflexivity. Qed.

(** [cancel_job] moves a pending or running job to cancelled and leaves
    every other field and every other row alone; in every other case it
    raises and changes nothing. *)
Lemma cancel_job_spec db job :
  match get_job db job with
  | None =>
      cancel_job db job
      = (Raise (HTTPException 404 (DetailStr "Deployment job not found")), db)
  | Some j =>
      if cancellable (status j) then
        cancel_job db job = (Ok (job_id j), update_job job (set_status CANCELLED) db)
        /\ get_job (snd (cancel_job db job)) job = Some (set_status CANCELLED j)
      else
        cancel_job db job
        = (Raise (HTTPException 400
                    (DetailStr ("Cannot cancel job with status: "
                                +:+ status_value (status j)))), db)
  end.
Proof.
  unfold cancel_job. destruct (get_job db job) as [j|] eqn:Hj; [|done].
  destruct (cancellable (status j)); simpl; [|done].
  split; [done|]. rewrite get_job_update_job by done. by rewrite Hj.
Qed.

End CancelJob.

Section CancelledWorker.
Import models router runtime mikrotik_client deployment endpoints.

Variable job : string.
Variable at_tick : nat -> bool.

(** The row of [job] exists, has status [s] when [s] is given, and the
    other requests are cancellations of [job]. *)
Definition JobIs (s : option JobStatus) (w : World) : Prop :=
  (exists j, get_job (w_db w) job = Some j
             /\ match s with Some st => status j = st | None => True end)
  /\ w_interference w = cancel_requests job at_tick.

(** A status that [cancel_job] does not touch. *)
Definition settled (s : option JobStatus) : Prop :=
  match s with
  | Some st => cancellable st = false
  | None => True
  end.

Lemma JobIs_weaken s w : JobIs s w -> JobIs None w.
Proof. intros [(j & Hj & _) Hi]. split; [by exists j | done]. Qed.

Lemma cancel_keeps_JobIs s db n :
  settled s ->
  (exists j, get_job db job = Some j
             /\ match s with Some st => status j = st | None => True end) ->
  exists j, get_job (cancel_requests job at_tick n db) job = Some j
            /\ match s with Some st => status j = st | None => True end.
Proof.
  intros Hs (j & Hj & Hst). unfold cancel_requests.
  destruct (at_tick n); [|by exists j].
  pose proof (cancel_job_spec db job) as H. rewrite Hj in H.
  destruct (cancellable (status j)) eqn:Hc.
  - destruct H as [_ H]. exists (set_status CANCELLED j). split; [exact H|].
    destruct s as [st|]; [|done]. simpl in Hs. subst st. congruence.
  - rewrite H. simpl. by exists j.
Qed.

Lemma job_await_point s E :
  settled s -> hoare (JobIs s) await_point (fun _ => JobIs s) E.
Proof.
  intros Hs w [Hj Hi]. unfold await_point, JobIs. simpl. split; [|done].
  rewrite Hi. by apply cancel_keeps_JobIs.
Qed.

Lemma job_commit s E :
  settled s -> hoare (JobIs s) commit (fun _ => JobIs s) E.
Proof.
  intros Hs. unfold commit. eapply hoare_bind; [by apply job_await_point|].
  intros ?. apply hoare_ret.
Qed.

Lemma job_pure_step {A} s (m : M A) E :
  (forall w, exists a, m w = (Ok a, w)) ->
  hoare (JobIs s) m (fun _ => JobIs s) E.
Proof. intros H w Hw. destruct (H w) as (a & ->). exact Hw. Qed.

Lemma job_get_db s E : hoare (JobIs s) get_db (fun _ => JobIs s) E.
Proof. apply job_pure_step. intros w. by eexists. Qed.

Lemma job_utcnow s E : hoare (JobIs s) utcnow (fun _ => JobIs s) E.
Proof. apply job_pure_step. intros w. by eexists. Qed.

Lemma job_mret {A} s (a : A) E :
  hoare (JobIs s) (mret a) (fun _ => JobIs s) E.
Proof. apply hoare_ret. Qed.

Lemma job_raise {A} s e (Q : A -> World -> Prop) :
  hoare (JobIs s) (raise e) Q (JobIs None).
Proof. intros w Hw. by eapply JobIs_weaken. Qed.

Lemma job_lift_result {A} s (r : result A) :
  hoare (JobIs s) (lift_result r) (fun _ => JobIs s) (JobIs None).
Proof.
  intros w Hw. unfold lift_result. destruct r; [exact Hw | by eapply JobIs_weaken].
Qed.

Lemma job_scalar_one {A} s (o : option A) :
  hoare (JobIs s) (scalar_one o) (fun _ => JobIs s) (JobIs None).
Proof. destruct o; [apply hoare_ret | apply job_raise]. Qed.

Lemma job_emit s e E : hoare (JobIs s) (emit e) (fun _ => JobIs s) E.
Proof. intros w Hw. exact Hw. Qed.

Lemma job_router_apply s p c :
  hoare (JobIs s) (router_apply p c) (fun _ => JobIs s) (JobIs None).
Proof.
  intros w Hw. unfold router_apply.
  destruct (apply p c (w_router w)) as [[v|e] r']; simpl;
    [exact Hw | by eapply JobIs_weaken].
Qed.

Lemma job_execute s self p c :
  settled s ->
  hoare (JobIs s) (_execute self p c) (fun _ => JobIs s) (JobIs None).
Proof.
  intros Hs. unfold _execute.
  eapply hoare_bind; [by apply job_await_point|]. intros refused.
  eapply hoare_bind; [apply job_lift_result|]. intros ?.
  eapply hoare_bind; [apply job_emit|]. intros ?. apply job_router_apply.
Qed.

Lemma job_assign s f E :
  keeps_status f ->
  hoare (JobIs s) (assign job f) (fun _ => JobIs s) E.
Proof.
  intros Hf w [(j & Hj & Hst) Hi]. unfold assign, modify_db, JobIs. simpl.
  split; [|done]. exists (f j).
  rewrite get_job_update_job by (intros x; apply Hf). rewrite Hj.
  split; [done|]. destruct s; [|done]. by rewrite (proj2 (Hf j)).
Qed.

Lemma job_assign_status s st E :
  hoare (JobIs s) (assign_status job st) (fun _ => JobIs (Some st)) E.
Proof.
  unfold assign_status. eapply hoare_bind; [apply job_emit|]. intros ?.
  intros w [(j & Hj & Hst) Hi]. unfold assign, modify_db, JobIs. simpl.
  split; [|done]. exists (set_status st j).
  rewrite get_job_update_job by done. by rewrite Hj.
Qed.

(** The worker's [job.status = RUNNING]: nothing is kept about the
    status, which a cancellation may change at the next await. *)
Lemma job_assign_running :
  hoare (JobIs None) (assign_status job RUNNING) (fun _ => JobIs None) (JobIs None).
Proof.
  intros w Hw. eapply JobIs_weaken.
  exact (job_assign_status None RUNNING (JobIs None) w Hw).
Qed.

Lemma job_assign_progress s n E :
  hoare (JobIs s) (assign_progress job n) (fun _ => JobIs s) E.
Proof.
  unfold assign_progress. eapply hoare_bind; [apply job_emit|]. intros ?.
  by apply job_assign.
Qed.

Lemma job_assign_backup s b E :
  hoare (JobIs s) (assign_backup job b) (fun _ => JobIs s) E.
Proof.
  unfold assign_backup. eapply hoare_bind; [apply job_emit|]. intros ?.
  by apply job_assign.
Qed.

Lemma job_update_peer s id f E :
  hoare (JobIs s) (modify_db (update_peer id f)) (fun _ => JobIs s) E.
Proof. intros w Hw. exact Hw. Qed.

Lemma job_read s self p (F : list resource -> list resource) :
  settled s ->
  hoare (JobIs s) (result ← _execute self p Print; mret (F result))
    (fun _ => JobIs s) (JobIs None).
Proof.
  intros Hs. eapply hoare_bind; [by apply job_execute|]. intros ?.
  apply hoare_ret.
Qed.

Lemma job_write_unit s self p c :
  settled s ->
  hoare (JobIs s) (_ ← _execute self p c; mret tt)
    (fun _ => JobIs s) (JobIs None).
Proof.
  intros Hs. eapply hoare_bind; [by apply job_execute|]. intros ?.
  apply hoare_ret.
Qed.

Lemma job_update_wireguard_interface s self id data :
  settled s ->
  hoare (JobIs s) (update_wireguard_interface self id data)
    (fun _ => JobIs s) (JobIs None).
Proof.
  intros Hs. unfold update_wireguard_interface.
  eapply hoare_bind; [by apply job_execute|]. intros ?. apply hoare_ret.
Qed.

Lemma job_get_managed_resources s self :
  settled s ->
  hoare (JobIs s) (get_managed_resources self)
    (fun _ => JobIs s) (JobIs None).
Proof.
  intros Hs. unfold get_managed_resources.
  do 6 (eapply hoare_bind; [by apply job_read|]; intros ?).
  apply hoare_ret.
Qed.

Lemma job_test_connection s self :
  settled s ->
  hoare (JobIs s) (test_connection self) (fun _ => JobIs s) (JobIs None).
Proof.
  intros Hs. unfold test_connection.
  eapply hoare_bind; [by apply job_await_point|]. intros refused.
  destruct (_get_connection self refused).
  - do 2 (eapply hoare_bind; [apply job_router_apply|]; intros ?).
    apply hoare_ret.
  - apply hoare_ret.
Qed.

Lemma job_delete_managed s existing (delete : string -> M unit) :
  (forall id, hoare (JobIs s) (delete id) (fun _ => JobIs s) (JobIs None)) ->
  hoare (JobIs s) (delete_managed existing delete)
    (fun _ => JobIs s) (JobIs None).
Proof.
  intros Hdel. unfold delete_managed. apply hoare_for_each.
  intros r _. destruct (is_managed r); [apply Hdel | apply hoare_ret].
Qed.

Lemma job_decrypt_if_set s c settings x dflt :
  hoare (JobIs s) (decrypt_if_set c settings x dflt)
    (fun _ => JobIs s) (JobIs None).
Proof.
  unfold decrypt_if_set. destruct (truthy x); [|apply hoare_ret].
  eapply hoare_bind; [apply job_lift_result|]. intros ?. apply hoare_ret.
Qed.

Ltac settled_tac := first [exact I | reflexivity].

Ltac keeps_tac := intros ?; split; reflexivity.

Ltac job_frame :=
  first
    [ apply job_get_db | apply job_scalar_one | apply job_assign_running
    | apply job_assign_status
    | apply job_utcnow
    | (apply job_assign; keeps_tac)
    | (apply job_commit; settled_tac)
    | apply job_decrypt_if_set
    | (apply job_test_connection; settled_tac)
    | apply job_lift_result | apply job_update_peer
    | (apply job_read; settled_tac)
    | (apply job_get_managed_resources; settled_tac)
    | (apply job_update_wireguard_interface; settled_tac)
    | (apply job_execute; settled_tac)
    | apply job_mret | apply job_raise
    | apply job_assign_progress | apply job_assign_backup
    | (apply job_delete_managed; intros ?; apply job_write_unit; settled_tac)
    | (apply hoare_for_each; intros ? _;
       eapply hoare_bind; [apply job_execute; settled_tac|]; intros ?;
       apply hoare_ret) ].

Ltac job_cmd :=
  lazymatch goal with
  | |- hoare _ (if ?c then _ else _) _ _ => destruct c; job_cmd
  | |- hoare _ (match ?o with Some _ => _ | None => _ end) _ _ =>
      destruct o; job_cmd
  | |- _ => job_frame
  end.

Ltac job_step :=
  cbv beta zeta;
  lazymatch goal with
  | |- hoare _ (_ ≫= _) _ _ => eapply hoare_bind; [job_cmd | intros ?]
  | |- _ => job_cmd
  end.

(** Whatever is cancelled meanwhile, a [try] block that returns leaves
    the job completed. *)
Lemma job_apply_body c settings peer :
  hoare (JobIs None) (apply_body c settings job peer)
    (fun _ => JobIs (Some COMPLETED)) (JobIs None).
Proof.
  unfold apply_body.
  repeat job_step.
Qed.

(** The row that the handler reads is there. *)
Lemma job_get_db_row s E :
  hoare (JobIs s) get_db
    (fun db w => JobIs s w /\ is_Some (get_job db job)) E.
Proof.
  intros w Hw. split; [exact Hw|]. destruct Hw as [(j & Hj & _) _].
  simpl. by exists j.
Qed.

(** Both [except] clauses return, and leave the job failed. *)
Lemma job_apply_failed e :
  hoare (JobIs None) (apply_failed job e)
    (fun _ => JobIs (Some FAILED)) (fun _ => False).
Proof.
  unfold apply_failed.
  eapply hoare_bind; [apply job_get_db_row|]. intros db.
  apply hoare_pure. intros [j Hj]. rewrite Hj.
  destruct e; repeat job_step.
Qed.

Lemma job_execute_deployment c settings peer :
  hoare (JobIs None) (_execute_deployment c settings job peer)
    (fun _ w => JobIs (Some COMPLETED) w \/ JobIs (Some FAILED) w)
    (fun _ => False).
Proof.
  unfold _execute_deployment. eapply hoare_try.
  - eapply hoare_conseq; [apply job_apply_body | done | | done].
    intros ? w Hw. by left.
  - intros e. eapply hoare_conseq; [apply job_apply_failed | done | | done].
    intros ? w Hw. by right.
Qed.

End CancelledWorker.

(** *** The worker does not read the status *)

Section StatusBlind.
Import models router runtime mikrotik_client deployment endpoints.

(** A job row, a database and an event with the status column blanked. *)
Definition blank_job (j : DeploymentJob) : DeploymentJob := set_status PENDING j.

Definition blank_db (db : Database) : Database :=
  {| wans := wans db; peers := peers db; jobs := map blank_job (jobs db) |}.

Definition blank_event (e : event) : event :=
  match e with
  | EvAwait db => EvAwait (blank_db db)
  | EvStatus _ | EvApi _ _ | EvProgress _ | EvBackup _ => e
  end.

(** A field assignment that neither reads the status nor changes another
    column by it. *)
Definition status_blind (f : DeploymentJob -> DeploymentJob) : Prop :=
  exists g, (forall j, blank_job (f j) = g (blank_job j))
            /\ (forall j, job_id (g j) = job_id j).

Lemma blank_update_job id f g db :
  (forall j, blank_job (f j) = g (blank_job j)) ->
  blank_db (update_job id f db) = update_job id g (blank_db db).
Proof.
  intros Hg. unfold blank_db, update_job. simpl. f_equal.
  rewrite !map_map. apply map_ext. intros j.
  change (job_id (blank_job j)) with (job_id j).
  destruct (String.eqb (job_id j) id); [apply Hg | done].
Qed.

Lemma blank_update_job_eq id f db1 db2 :
  status_blind f -> blank_db db1 = blank_db db2 ->
  blank_db (update_job id f db1) = blank_db (update_job id f db2).
Proof.
  intros (g & Hg & _) E.
  by rewrite !(blank_update_job id f g), E.
Qed.

Lemma blank_set_status id s db :
  blank_db (update_job id (set_status s) db) = blank_db db.
Proof.
  unfold blank_db, update_job. simpl. f_equal.
  rewrite map_map. apply map_ext. intros j.
  by destruct (String.eqb (job_id j) id).
Qed.

Lemma blank_cancel_requests job at_tick n db :
  blank_db (cancel_requests job at_tick n db) = blank_db db.
Proof.
  unfold cancel_requests. destruct (at_tick n); [|done].
  unfold cancel_job. destruct (get_job db job) as [j|]; [|done].
  destruct (negb (cancellable (status j))); [done|].
  apply blank_set_status.
Qed.

Lemma get_job_blank db id :
  get_job (blank_db db) id = option_map blank_job (get_job db id).
Proof.
  unfold get_job, blank_db. simpl.
  induction (jobs db) as [|j l IH]; simpl; [done|].
  change (job_id (blank_job j)) with (job_id j).
  by destruct (String.eqb (job_id j) id).
Qed.


Variable job : string.
Variables at_tick1 at_tick2 : nat -> bool.

(** Two runs of a task next to two schedules of cancellation requests:
    the same router, clock and failures, and the same database and events
    up to the status column. *)
Definition Sim (w1 w2 : World) : Prop :=
  w_router w1 = w_router w2
  /\ w_clock w1 = w_clock w2
  /\ w_fault w1 = w_fault w2
  /\ map blank_event (w_trace w1) = map blank_event (w_trace w2)
  /\ blank_db (w_db w1) = blank_db (w_db w2)
  /\ w_interference w1 = cancel_requests job at_tick1
  /\ w_interference w2 = cancel_requests job at_tick2.

(** [rel V m1 m2]: from worlds in [Sim], [m1] and [m2] both return, with
    results in [V], or raise the same exception; the worlds are in [Sim]
    again. *)
Definition rel {A} (V : A -> A -> Prop) (m1 m2 : M A) : Prop :=
  forall w1 w2, Sim w1 w2 ->
    match m1 w1, m2 w2 with
    | (Ok a1, w1'), (Ok a2, w2') => V a1 a2 /\ Sim w1' w2'
    | (Raise e1, w1'), (Raise e2, w2') => e1 = e2 /\ Sim w1' w2'
    | _, _ => False
    end.

Lemma rel_ret {A} (V : A -> A -> Prop) a1 a2 :
  V a1 a2 -> rel V (mret a1) (mret a2).
Proof. intros HV w1 w2 Hw. by split. Qed.

Lemma rel_bind {A B} (V : A -> A -> Prop) (V' : B -> B -> Prop)
    (m1 m2 : M A) (f1 f2 : A -> M B) :
  rel V m1 m2 -> (forall a1 a2, V a1 a2 -> rel V' (f1 a1) (f2 a2)) ->
  rel V' (m1 ≫= f1) (m2 ≫= f2).
Proof.
  intros Hm Hf w1 w2 Hw. specialize (Hm w1 w2 Hw).
  unfold mbind, M_bind.
  destruct (m1 w1) as [[a1|e1] w1'], (m2 w2) as [[a2|e2] w2']; try done.
  destruct Hm as [HV Hw']. by apply Hf.
Qed.

Lemma rel_raise {A} (V : A -> A -> Prop) e : rel V (raise e) (raise e).
Proof. intros w1 w2 Hw. by split. Qed.

Lemma rel_try {A} (V : A -> A -> Prop) (m1 m2 : M A) h1 h2 :
  rel V m1 m2 -> (forall e, rel V (h1 e) (h2 e)) ->
  rel V (try_except m1 h1) (try_except m2 h2).
Proof.
  intros Hm Hh w1 w2 Hw. specialize (Hm w1 w2 Hw). unfold try_except.
  destruct (m1 w1) as [[a1|e1] w1'], (m2 w2) as [[a2|e2] w2']; try done.
  destruct Hm as [<- Hw']. by apply Hh.
Qed.

Lemma rel_for_each {A} (l : list A) (body : A -> M unit) :
  (forall x, rel eq (body x) (body x)) ->
  rel eq (for_each l body) (for_each l body).
Proof.
  intros Hbody. induction l as [|x l IH]; simpl.
  - by apply rel_ret.
  - eapply rel_bind; [apply Hbody|]. intros ? ? _. exact IH.
Qed.

Lemma rel_lift_result {A} (r : result A) :
  rel eq (lift_result r) (lift_result r).
Proof. intros w1 w2 Hw. unfold lift_result. by destruct r. Qed.

Lemma rel_await_point : rel eq await_point await_point.
Proof.
  intros w1 w2 (Hr & Hc & Hf & Ht & Hd & Hi1 & Hi2).
  unfold await_point. simpl. split; [by rewrite Hf, Hc|].
  repeat split; simpl; try done.
  - by rewrite Hc.
  - rewrite !map_app, Ht. simpl. rewrite Hi1, Hi2, Hc.
    by rewrite !blank_cancel_requests, Hd.
  - rewrite Hi1, Hi2. by rewrite !blank_cancel_requests.
Qed.

Lemma rel_emit e : rel eq (emit e) (emit e).
Proof.
  intros w1 w2 (Hr & Hc & Hf & Ht & Hd & Hi1 & Hi2).
  unfold emit. simpl. split; [done|].
  repeat split; simpl; try done. by rewrite !map_app, Ht.
Qed.

Lemma rel_router_apply p c : rel eq (router_apply p c) (router_apply p c).
Proof.
  intros w1 w2 (Hr & Hc & Hf & Ht & Hd & Hi1 & Hi2).
  unfold router_apply. rewrite Hr.
  destruct (apply p c (w_router w2)) as [[v|e] r']; simpl;
    (split; [done|]); repeat split; done.
Qed.

Lemma rel_utcnow : rel eq utcnow utcnow.
Proof.
  intros w1 w2 Hw. unfold utcnow. split; [|done].
  destruct Hw as (_ & Hc & _). by rewrite Hc.
Qed.

Lemma rel_get_db :
  rel (fun db1 db2 => blank_db db1 = blank_db db2) get_db get_db.
Proof.
  intros w1 w2 Hw. unfold get_db. split; [|done].
  by destruct Hw as (_ & _ & _ & _ & Hd & _).
Qed.

Lemma rel_assign id f :
  status_blind f -> rel eq (assign id f) (assign id f).
Proof.
  intros Hf w1 w2 (Hr & Hc & Hfl & Ht & Hd & Hi1 & Hi2).
  unfold assign, modify_db. simpl. split; [done|].
  repeat split; simpl; try done. by apply blank_update_job_eq.
Qed.

Lemma rel_update_peer id f :
  rel eq (modify_db (update_peer id f)) (modify_db (update_peer id f)).
Proof.
  intros w1 w2 (Hr & Hc & Hfl & Ht & Hd & Hi1 & Hi2).
  unfold modify_db. simpl. split; [done|].
  repeat split; simpl; try done.
  unfold blank_db, update_peer in *. simpl. by injection Hd as -> -> ->.
Qed.


Lemma rel_scalar_one_job db1 db2 id :
  blank_db db1 = blank_db db2 ->
  rel (fun j1 j2 => blank_job j1 = blank_job j2)
    (scalar_one (get_job db1 id)) (scalar_one (get_job db2 id)).
Proof.
  intros Hdb.
  assert (E : option_map blank_job (get_job db1 id)
              = option_map blank_job (get_job db2 id))
    by (by rewrite <- !get_job_blank, Hdb).
  destruct (get_job db1 id) as [j1|], (get_job db2 id) as [j2|]; simpl in E.
  - apply rel_ret. congruence.
  - discriminate.
  - discriminate.
  - apply rel_raise.
Qed.

Lemma get_peer_blank db id : get_peer db id = get_peer (blank_db db) id.
Proof. reflexivity. Qed.

Lemma desired_state_blank db peer key :
  config_generator.get_mikrotik_desired_state db peer key
  = config_generator.get_mikrotik_desired_state (blank_db db) peer key.
Proof. reflexivity. Qed.

Ltac blind :=
  lazymatch goal with
  | |- status_blind ?f =>
      first [ by (exists (fun j => j)) | by (exists f) ]
  end.

Ltac rel_prim :=
  first
    [ apply rel_await_point | apply rel_emit | apply rel_router_apply
    | apply rel_utcnow | apply rel_raise | apply rel_lift_result
    | apply rel_update_peer | (apply rel_assign; blind) ].

Ltac rel_same :=
  cbv beta zeta;
  lazymatch goal with
  | |- rel _ (if ?c then _ else _) _ => destruct c; rel_same
  | |- rel _ (match ?o with Ok _ => _ | Raise _ => _ end) _ =>
      destruct o; rel_same
  | |- rel _ (match ?o with Some _ => _ | None => _ end) _ =>
      destruct o; rel_same
  | |- rel _ (_ ≫= _) _ =>
      eapply (rel_bind eq); [solve [rel_same] | intros ? ? <-; try rel_same]
  | |- rel _ (mret _) _ => apply rel_ret; reflexivity
  | |- rel _ (for_each _ _) _ => apply rel_for_each; intros ?; rel_same
  | |- _ =>
      first
        [ rel_prim
        | progress
            unfold commit, _execute, assign_status, assign_progress,
              assign_backup, scalar_one, decrypt_if_set, test_connection,
              get_managed_resources, get_wireguard_interfaces,
              get_wireguard_peers, get_ip_addresses, get_routes,
              get_firewall_filter_rules, get_nat_rules,
              create_wireguard_interface, update_wireguard_interface,
              create_wireguard_peer, create_ip_address, create_route,
              create_firewall_filter_rule, create_nat_rule,
              delete_wireguard_interface, delete_wireguard_peer,
              delete_ip_address, delete_route, delete_firewall_filter_rule,
              delete_nat_rule, delete_managed;
          rel_same ]
  end.

Lemma rel_apply_body c settings peer :
  rel eq (apply_body c settings job peer) (apply_body c settings job peer).
Proof.
  unfold apply_body.
  eapply rel_bind; [apply rel_get_db|]. intros db1 db2 Hdb.
  eapply rel_bind; [by apply rel_scalar_one_job|]. intros _ _ _.
  rewrite (get_peer_blank db1), (get_peer_blank db2), Hdb.
  rel_same.
  eapply rel_bind; [apply rel_get_db|]. intros db3 db4 Hdb'.
  rewrite (desired_state_blank db3), (desired_state_blank db4), Hdb'.
  rel_same.
Qed.


Lemma rel_apply_failed e :
  rel eq (apply_failed job e) (apply_failed job e).
Proof.
  unfold apply_failed.
  eapply rel_bind; [apply rel_get_db|]. intros db1 db2 Hdb.
  assert (E : option_map blank_job (get_job db1 job)
              = option_map blank_job (get_job db2 job))
    by (by rewrite <- !get_job_blank, Hdb).
  destruct (get_job db1 job) as [j1|], (get_job db2 job) as [j2|]; simpl in E.
  - assert (El : operations_log j1 = operations_log j2).
    { change (operations_log (blank_job j1) = operations_log (blank_job j2)).
      congruence. }
    rewrite El. destruct e; rel_same.
  - discriminate.
  - discriminate.
  - apply rel_raise.
Qed.

Lemma rel_execute_deployment c settings peer :
  rel eq (_execute_deployment c settings job peer)
    (_execute_deployment c settings job peer).
Proof.
  unfold _execute_deployment. apply rel_try.
  - apply rel_apply_body.
  - apply rel_apply_failed.
Qed.

End StatusBlind.

Section StatusBlindRuns.
Import models router runtime mikrotik_client deployment endpoints.

Lemma filter_write_blank t :
  List.filter is_write_event (map blank_event t)
  = List.filter is_write_event t.
Proof.
  induction t as [|e t IH]; simpl; [done|].
  destruct e; simpl; try done. destruct (is_write c); simpl; by rewrite IH.
Qed.

(** The world [w] with no other request served at its await points. *)
Definition without_requests (w : World) : World :=
  {| w_router := w_router w; w_db := w_db w; w_clock := w_clock w;
     w_trace := w_trace w; w_fault := w_fault w;
     w_interference := no_interference |}.

(** The run of the worker next to any schedule of cancellation requests
    for its job, and its run with no such request: the same result, the
    same router at the end, the same commands sent to the router, and the
    same events and database up to the status column. *)
Lemma worker_is_status_blind c settings job peer at_tick w :
  w_interference w = cancel_requests job at_tick ->
  fst (_execute_deployment c settings job peer w)
  = fst (_execute_deployment c settings job peer (without_requests w))
  /\ w_router (snd (_execute_deployment c settings job peer w))
     = w_router
         (snd (_execute_deployment c settings job peer (without_requests w)))
  /\ List.filter is_write_event
       (w_trace (snd (_execute_deployment c settings job peer w)))
     = List.filter is_write_event
         (w_trace
            (snd (_execute_deployment c settings job peer
                    (without_requests w))))
  /\ map blank_event
       (w_trace (snd (_execute_deployment c settings job peer w)))
     = map blank_event
         (w_trace
            (snd (_execute_deployment c settings job peer
                    (without_requests w))))
  /\ blank_db (w_db (snd (_execute_deployment c settings job peer w)))
     = blank_db
         (w_db
            (snd (_execute_deployment c settings job peer
                    (without_requests w)))).
Proof.
  intros Hi.
  pose proof (rel_execute_deployment job at_tick (fun _ => false) c settings
                peer w (without_requests w)) as H.
  assert (H0 : Sim job at_tick (fun _ => false) w (without_requests w))
    by (by repeat split).
  specialize (H H0).
  destruct (_execute_deployment c settings job peer w) as [[a1|e1] w1],
    (_execute_deployment c settings job peer (without_requests w))
    as [[a2|e2] w2]; simpl; try contradiction.
  - destruct H as [-> (Hr & _ & _ & Ht & Hd & _)].
    repeat split; try done.
    by rewrite <- (filter_write_blank (w_trace w1)), Ht, filter_write_blank.
  - destruct H as [-> (Hr & _ & _ & Ht & Hd & _)].
    repeat split; try done.
    by rewrite <- (filter_write_blank (w_trace w1)), Ht, filter_write_blank.
Qed.

End StatusBlindRuns.

(** *** Runs of the worker next to cancellation requests *)

(** *** The first step of the worker *)

Section WorkerStart.
Import models router runtime mikrotik_client deployment endpoints.

(** A computation that only adds events to the trace. *)
Definition extends_trace {A} (m : M A) : Prop :=
  forall w, exists t', w_trace (snd (m w)) = w_trace w ++ t'.

Lemma ext_keep {A} (m : M A) :
  (forall w, w_trace (snd (m w)) = w_trace w) -> extends_trace m.
Proof. intros H w. exists []. by rewrite app_nil_r. Qed.

Lemma ext_ret {A} (a : A) : extends_trace (mret a).
Proof. by apply ext_keep. Qed.

Lemma ext_raise {A} e : extends_trace (raise e : M A).
Proof. by apply ext_keep. Qed.

Lemma ext_lift_result {A} (r : result A) : extends_trace (lift_result r).
Proof. by apply ext_keep. Qed.

Lemma ext_get_db : extends_trace get_db.
Proof. by apply ext_keep. Qed.

Lemma ext_utcnow : extends_trace utcnow.
Proof. by apply ext_keep. Qed.

Lemma ext_modify_db f : extends_trace (modify_db f).
Proof. by apply ext_keep. Qed.

Lemma ext_router_apply p c : extends_trace (router_apply p c).
Proof.
  apply ext_keep. intros w. unfold router_apply.
  by destruct (apply p c (w_router w)).
Qed.

Lemma ext_emit e : extends_trace (emit e).
Proof. intros w. by exists [e]. Qed.

Lemma ext_await_point : extends_trace await_point.
Proof. intros w. by eexists. Qed.

Lemma ext_bind {A B} (m : M A) (f : A -> M B) :
  extends_trace m -> (forall a, extends_trace (f a)) ->
  extends_trace (m ≫= f).
Proof.
  intros Hm Hf w. destruct (Hm w) as (t1 & H1).
  unfold mbind, M_bind. destruct (m w) as [[a|e] w1]; simpl in *.
  - destruct (Hf a w1) as (t2 & H2). exists (t1 ++ t2).
    by rewrite H2, H1, app_assoc.
  - by exists t1.
Qed.

Lemma ext_try {A} (m : M A) h :
  extends_trace m -> (forall e, extends_trace (h e)) ->
  extends_trace (try_except m h).
Proof.
  intros Hm Hh w. destruct (Hm w) as (t1 & H1).
  unfold try_except. destruct (m w) as [[a|e] w1]; simpl in *.
  - by exists t1.
  - destruct (Hh e w1) as (t2 & H2). exists (t1 ++ t2).
    by rewrite H2, H1, app_assoc.
Qed.

Lemma ext_for_each {A} (l : list A) (body : A -> M unit) :
  (forall x, extends_trace (body x)) -> extends_trace (for_each l body).
Proof.
  intros Hbody. induction l as [|x l IH]; simpl.
  - apply ext_ret.
  - apply ext_bind; [apply Hbody | intros ?; exact IH].
Qed.

Ltac ext_prim :=
  first
    [ apply ext_await_point | apply ext_emit | apply ext_router_apply
    | apply ext_utcnow | apply ext_raise | apply ext_lift_result
    | apply ext_modify_db | apply ext_get_db | apply ext_ret ].

Ltac ext_same :=
  cbv beta zeta;
  lazymatch goal with
  | |- extends_trace (if ?c then _ else _) => destruct c; ext_same
  | |- extends_trace (match ?o with Some _ => _ | None => _ end) =>
      destruct o; ext_same
  | |- extends_trace (match ?o with Ok _ => _ | Raise _ => _ end) =>
      destruct o; ext_same
  | |- extends_trace (_ ≫= _) =>
      apply ext_bind; [ext_same | intros ?; ext_same]
  | |- extends_trace (for_each _ _) =>
      apply ext_for_each; intros ?; ext_same
  | |- _ =>
      first
        [ ext_prim
        | progress
            unfold commit, _execute, assign, assign_status, assign_progress,
              assign_backup, scalar_one, decrypt_if_set, test_connection,
              get_managed_resources, get_wireguard_interfaces,
              get_wireguard_peers, get_ip_addresses, get_routes,
              get_firewall_filter_rules, get_nat_rules,
              create_wireguard_interface, update_wireguard_interface,
              create_wireguard_peer, create_ip_address, create_route,
              create_firewall_filter_rule, create_nat_rule,
              delete_wireguard_interface, delete_wireguard_peer,
              delete_ip_address, delete_route, delete_firewall_filter_rule,
              delete_nat_rule, delete_managed;
          ext_same ]
  end.

Lemma ext_apply_failed job e : extends_trace (apply_failed job e).
Proof.
  unfold apply_failed. apply ext_bind; [apply ext_get_db|]. intros db.
  destruct (get_job db job) as [j|]; [|apply ext_raise].
  destruct e; ext_same.
Qed.

Lemma bind_eval {A B} (m : M A) (f : A -> M B) w a w' :
  m w = (Ok a, w') -> (m ≫= f) w = f a w'.
Proof. intros H. unfold mbind, M_bind. by rewrite H. Qed.

(** With the rows of the job and of the peer in place, the [try] block
    starts by assigning [RUNNING] to the job's status, and goes on from
    there. *)
Lemma apply_body_start c settings job peer w j p :
  get_job (w_db w) job = Some j -> get_peer (w_db w) peer = Some p ->
  exists rest : M unit,
    extends_trace rest
    /\ apply_body c settings job peer w
       = rest (snd (assign_status job RUNNING w)).
Proof.
  intros Hj Hp. unfold apply_body. eexists. split; cycle 1.
  - etransitivity; [apply (bind_eval get_db); reflexivity|]. cbv beta.
    etransitivity;
      [apply (bind_eval (scalar_one _)); rewrite Hj; reflexivity|].
    cbv beta.
    etransitivity;
      [apply (bind_eval (scalar_one _)); rewrite Hp; reflexivity|].
    cbv beta.
    etransitivity;
      [apply (bind_eval (assign_status job RUNNING)
                _ w tt (snd (assign_status job RUNNING w))); reflexivity|].
    reflexivity.
  - ext_same.
Qed.

(** The worker's first event: the job's status is set to running,
    whatever it was. *)
Lemma worker_starts_running c settings job peer w j p :
  get_job (w_db w) job = Some j -> get_peer (w_db w) peer = Some p ->
  exists t',
    w_trace (snd (_execute_deployment c settings job peer w))
    = w_trace w ++ EvStatus RUNNING :: t'.
Proof.
  intros Hj Hp.
  destruct (apply_body_start c settings job peer w j p Hj Hp)
    as (rest & Hrest & Heq).
  unfold _execute_deployment, try_except. rewrite Heq.
  set (w1 := snd (assign_status job RUNNING w)).
  assert (H1 : w_trace w1 = w_trace w ++ [EvStatus RUNNING]) by reflexivity.
  destruct (Hrest w1) as (t1 & Ht1).
  destruct (rest w1) as [[a|e] w2]; cbn [snd] in Ht1 |- *.
  - exists t1. rewrite Ht1, H1. rewrite <- app_assoc. reflexivity.
  - destruct (ext_apply_failed job e w2) as (t2 & Ht2).
    exists (t1 ++ t2). rewrite Ht2, Ht1, H1. rewrite <- !app_assoc.
    reflexivity.
Qed.

End WorkerStart.

Section CancelledRuns.
Import models router runtime mikrotik_client deployment endpoints scenarios.

(** What an observer of the run sees of [job]: the status of its row
    after each await point, and each command that changes the router. *)
Inductive observation :=
| Row (s : JobStatus)
| Wrote (p : path).

Definition observe (job : string) (e : event) : option observation :=
  match e with
  | EvAwait db => option_map (fun j => Row (status j)) (get_job db job)
  | EvApi p c => if is_write c then Some (Wrote p) else None
  | _ => None
  end.

Definition observations (job : string) (t : list event) : list observation :=
  omap (observe job) t.

(** The observations from the first await point at which the row is
    cancelled. *)
Fixpoint since_cancelled (l : list observation) : list observation :=
  match l with
  | [] => []
  | Row CANCELLED :: _ => l
  | _ :: rest => since_cancelled rest
  end.

Definition is_wrote (o : observation) : bool :=
  match o with Wrote _ => true | Row _ => false end.

(** C9, as the code has it.  A cancellation request for a pending or
    running job returns the job's id and changes the status of its row
    to cancelled and nothing else; for a job in any other status it is
    refused with status code 400 and the database stays as it is.  The
    apply worker never looks at the status: next to any schedule of
    cancellation requests for its job it returns, and the row of the job
    ends completed or failed; its result, the commands it sends to the
    router, the router it leaves and, up to the status column, all its
    events are those of the run with no cancellation at all.  When the
    row of the peer exists, its first step sets the status to running,
    whatever the status was. *)
Theorem worker_overwrites_cancelled_status
    (c : security.Crypto) (settings : security.Settings)
    (job peer : string) (at_tick : nat -> bool) (w : World) (j : DeploymentJob) :
  get_job (w_db w) job = Some j ->
  w_interference w = cancel_requests job at_tick ->
  (if cancellable (status j)
   then cancel_job (w_db w) job
        = (Ok (job_id j), update_job job (set_status CANCELLED) (w_db w))
        /\ get_job (snd (cancel_job (w_db w) job)) job
           = Some (set_status CANCELLED j)
   else cancel_job (w_db w) job
        = (Raise (HTTPException HTTP_400
                    (DetailStr ("Cannot cancel job with status: "
                                +:+ status_value (status j)))),
           w_db w))
  /\ fst (_execute_deployment c settings job peer w) = Ok tt
  /\ (exists j',
        get_job (w_db (snd (_execute_deployment c settings job peer w))) job
        = Some j'
        /\ (status j' = COMPLETED \/ status j' = FAILED))
  /\ w_router (snd (_execute_deployment c settings job peer w))
     = w_router
         (snd (_execute_deployment c settings job peer (without_requests w)))
  /\ List.filter is_write_event
       (w_trace (snd (_execute_deployment c settings job peer w)))
     = List.filter is_write_event
         (w_trace
            (snd (_execute_deployment c settings job peer
                    (without_requests w))))
  /\ map blank_event
       (w_trace (snd (_execute_deployment c settings job peer w)))
     = map blank_event
         (w_trace
            (snd (_execute_deployment c settings job peer
                    (without_requests w))))
  /\ (forall p,
        get_peer (w_db w) peer = Some p ->
        exists t',
          w_trace (snd (_execute_deployment c settings job peer w))
          = w_trace w ++ EvStatus RUNNING :: t').
Proof.
  intros Hj Hi. split.
  { pose proof (cancel_job_spec (w_db w) job) as H. rewrite Hj in H.
    destruct (cancellable (status j)); exact H. }
  destruct (worker_is_status_blind c settings job peer at_tick w Hi)
    as (_ & Hrouter & Hwrites & Hevents & _).
  assert (Hw : JobIs job at_tick None w) by (split; [by exists j | done]).
  pose proof (job_execute_deployment job at_tick c settings peer w Hw) as H.
  split; [|split; [|split; [exact Hrouter|split; [exact Hwrites|split]]]];
    [| |exact Hevents|].
  - destruct (_execute_deployment c settings job peer w) as [[[]|e] w'];
      [reflexivity | contradiction].
  - destruct (_execute_deployment c settings job peer w) as [[[]|e] w'];
      [|contradiction].
    simpl. destruct H as [[(j' & Hj' & Hs) _]|[(j' & Hj' & Hs) _]];
      exists j'; split; auto.
  - intros p Hp. by eapply worker_starts_running.
Qed.

Lemma worker_overwrites_cancelled_status_witness :
  get_job s5_db "job-1" = Some (mk_job "job-1" "peer-m" PENDING 0)
  /\ (cancel_job s5_db "job-1"
      = (Ok "job-1", update_job "job-1" (set_status CANCELLED) s5_db)
      /\ get_job (snd (cancel_job s5_db "job-1")) "job-1"
         = Some (mk_job "job-1" "peer-m" CANCELLED 0))
  /\ fst (s5_run no_fault (cancel_requests "job-1" (Nat.eqb 10))) = Ok tt
  /\ (exists j',
        get_job
          (w_db (snd (s5_run no_fault (cancel_requests "job-1" (Nat.eqb 10)))))
          "job-1"
        = Some j'
        /\ (status j' = COMPLETED \/ status j' = FAILED))
  /\ w_router (snd (s5_run no_fault (cancel_requests "job-1" (Nat.eqb 10))))
     = w_router (snd (s5_run no_fault no_interference))
  /\ List.filter is_write_event
       (w_trace (snd (s5_run no_fault (cancel_requests "job-1" (Nat.eqb 10)))))
     = List.filter is_write_event
         (w_trace (snd (s5_run no_fault no_interference)))
  /\ map blank_event
       (w_trace (snd (s5_run no_fault (cancel_requests "job-1" (Nat.eqb 10)))))
     = map blank_event (w_trace (snd (s5_run no_fault no_interference)))
  /\ exists t',
       w_trace (snd (s5_run no_fault (cancel_requests "job-1" (Nat.eqb 10))))
       = EvStatus RUNNING :: t'.
Proof.
  split; [reflexivity|].
  destruct (worker_overwrites_cancelled_status security.toy_crypto
              security.test_settings "job-1" "peer-m" (Nat.eqb 10)
              (initial_world s5_router s5_db no_fault
                 (cancel_requests "job-1" (Nat.eqb 10)))
              (mk_job "job-1" "peer-m" PENDING 0) eq_refl eq_refl)
    as (H1 & H2 & H3 & H4 & H5 & H6 & H7).
  split; [exact H1|]. split; [exact H2|]. split; [exact H3|].
  split; [exact H4|]. split; [exact H5|]. split; [exact H6|].
  exact (H7 managed_peer eq_refl).
Defined.

(** C9 as stated fails, on scenario S5, whose peer has a management
    address.  In the first run the job is cancelled while its
    worker runs: the request is served at the await point after the
    backup; the worker goes on, sends nine more commands that change the
    router, and marks the job completed (or failed, when a later command
    fails).  In the last run the job is cancelled before its worker
    starts: the worker marks it running, applies everything and marks it
    completed. *)
Lemma worker_ignores_cancellation :
  mikrotik_management_ip managed_peer = Some "192.0.2.1"
  /\ observations "job-1"
    (w_trace (snd (s5_run no_fault (cancel_requests "job-1" (Nat.eqb 10)))))
  = replicate 10 (Row RUNNING)
    ++ [Row CANCELLED; Row CANCELLED; Row CANCELLED; Wrote WIREGUARD;
        Row CANCELLED; Row CANCELLED; Row CANCELLED; Row CANCELLED;
        Wrote WIREGUARD_PEERS;
        Row CANCELLED; Row CANCELLED; Row CANCELLED; Wrote IP_ADDRESS;
        Row CANCELLED; Row CANCELLED;
        Row CANCELLED; Wrote IP_ROUTE; Row CANCELLED; Wrote IP_ROUTE;
        Row CANCELLED; Wrote IP_ROUTE;
        Row CANCELLED; Row CANCELLED;
        Row CANCELLED; Wrote FIREWALL_FILTER; Row CANCELLED;
        Wrote FIREWALL_FILTER; Row CANCELLED; Wrote FIREWALL_FILTER;
        Row CANCELLED; Row CANCELLED; Row CANCELLED; Row CANCELLED;
        Row COMPLETED]
  /\ length
       (List.filter is_wrote
          (since_cancelled
             (observations "job-1"
                (w_trace
                   (snd (s5_run no_fault
                           (cancel_requests "job-1" (Nat.eqb 10))))))))
     = 9%nat
  /\ map (fun j => (status j, progress_percent j))
       (jobs (w_db (snd (s5_run no_fault
                           (cancel_requests "job-1" (Nat.eqb 10))))))
     = [(COMPLETED, 100)]
  /\ map (fun j => (status j, progress_percent j))
       (jobs (w_db (snd (s5_run (Nat.eqb 14)
                           (cancel_requests "job-1" (Nat.eqb 10))))))
     = [(FAILED, 30)]
  /\ map status (jobs (snd (cancel_job s5_db "job-1"))) = [CANCELLED]
  /\ head
       (observations "job-1"
          (w_trace
             (snd (_execute_deployment security.toy_crypto
                     security.test_settings "job-1" "peer-m"
                     (initial_world s5_router (snd (cancel_job s5_db "job-1"))
                        no_fault no_interference)))))
     = Some (Row RUNNING)
  /\ map (fun j => (status j, progress_percent j))
       (jobs
          (w_db
             (snd (_execute_deployment security.toy_crypto
                     security.test_settings "job-1" "peer-m"
                     (initial_world s5_router (snd (cancel_job s5_db "job-1"))
                        no_fault no_interference)))))
     = [(COMPLETED, 100)].
Proof. repeat (apply conj); vm_compute; reflexivity. Qed.

End CancelledRuns.

(** ** Listing the services of a WAN *)

Section ListServices.
Import models endpoints scenarios.

(** The body of [list_services] never assigns [wan], and the module does
    not bind it. *)
Lemma wan_is_unbound :
  existsb (String.eqb "wan") list_services_locals = false
  /\ existsb (String.eqb "wan") services_globals = false.
Proof. split; reflexivity. Qed.

(** The endpoint has two outcomes: 404 for an unknown WAN, [NameError]
    for a known one.  It never returns a list. *)
Lemma list_services_outcomes db pihole wan skip limit peer :
  list_services db pihole wan skip limit peer
  = match get_wan db wan with
    | Some _ => Raise (NameError "wan")
    | None => Raise (HTTPException HTTP_404 (DetailStr "WAN network not found"))
    end.
Proof. unfold list_services. by destruct (get_wan db wan). Qed.

Lemma list_services_never_returns db pihole wan skip limit peer :
  is_ok (list_services db pihole wan skip limit peer) = false.
Proof. rewrite list_services_outcomes. by destruct (get_wan db wan). Qed.

(** C10.  For every WAN that exists, [list_services] raises
    [NameError: name 'wan' is not defined], whatever the paging, the peer
    filter and the Pi-hole settings are. *)
Theorem list_services_raises_NameError
    (db : Database) (pihole : PiHole) (wan : string) (row : WanNetwork)
    (skip limit : nat) (peer : option string) :
  get_wan db wan = Some row ->
  list_services db pihole wan skip limit peer = Raise (NameError "wan").
Proof. intros H. rewrite list_services_outcomes. by rewrite H. Qed.

Lemma list_services_raises_NameError_witness :
  get_wan s2_db "wan-2" = Some s2_wan
  /\ list_services s2_db pihole_unset "wan-2" 0 100 None
     = Raise (NameError "wan").
Proof.
  split; [reflexivity|].
  apply (list_services_raises_NameError s2_db pihole_unset "wan-2" s2_wan
           0 100 None).
  reflexivity.
Defined.

End ListServices.
